(** * Monzo_Bridge.py: a shallow embedding and its verified properties

    The bridge polls a banking API for transactions and forwards them to a
    budgeting backend.  This file embeds the functions of [Monzo_Bridge.py]
    as Rocq functions over a small model of the Python values they handle,
    and proves (or refutes, at concrete inputs) what its specification says
    about them.

    Layout: the model comes first (Python values, floats, the codecs used by
    the credential store, the keyring, HTTP, the two API clients and the
    monitor loop), the lemmas and theorems follow. *)

From Stdlib Require Import ZArith NArith List Lia Bool Ascii String.
From Stdlib Require Import Sorted Permutation.
From Corelib Require Import SpecFloat.
From stdpp Require Import base gmap list strings.

Local Open Scope Z_scope.
Set Warnings "-register-all".

(* ===================================================================== *)
(** * Python values *)
(* ===================================================================== *)

(** A Python [str] is a sequence of code points; [bytes] is a sequence of
    octets.  Both are lists of [N]. *)
Definition pystr := list N.
Definition pybytes := list N.

(** A string literal of the source. *)
Definition py (s : string) : pystr :=
  map N_of_ascii (list_ascii_of_string s).
Arguments py : simpl never.

(** The values that travel through the program: what [json.loads] and
    [response.json()] build and what the configuration dictionaries hold.
    A [dict] is kept as the list of its items in insertion order, its keys
    being strings and pairwise distinct.  JSON numbers are integers here
    (the banking API sends amounts as integer minor units). *)
Inductive pyval :=
| PNone
| PBool (b : bool)
| PInt (z : Z)
| PStr (s : pystr)
| PList (l : list pyval)
| PDict (d : list (pystr * pyval)).

(** The exceptions the program can meet.  [ConnectionError] stands for every
    [requests.exceptions.RequestException] that carries no response;
    [HTTPError] is the one [raise_for_status] raises; [Exception_] is a bare
    [Exception(msg)] raised by the source itself. *)
Inductive exn :=
| KeyError (k : pystr)
| TypeError
| AttributeError
| ValueError
| OverflowError
| ZeroDivisionError
| JSONDecodeError
| ConnectionError (msg : pystr)
| HTTPError (msg : pystr)
| PasswordDeleteError
| Exception_ (msg : pystr).

Inductive result (A : Type) :=
| Ok (a : A)
| Raise (e : exn).
Arguments Ok {A} a.
Arguments Raise {A} e.

Definition rbind {A B} (r : result A) (k : A -> result B) : result B :=
  match r with
  | Ok a => k a
  | Raise e => Raise e
  end.

Notation "x <- r ;; k" := (rbind r (fun x => k))
  (at level 100, r at next level, right associativity).

(** [str(e)] for the exceptions that carry a message. *)
Definition exn_str (e : exn) : pystr :=
  match e with
  | ConnectionError m | HTTPError m | Exception_ m => m
  | KeyError k => py "'" ++ k ++ py "'"
  | _ => []
  end.

Definition pystr_eqb (a b : pystr) : bool := bool_decide (a = b).

(** [d[k]] / [k in d] on the items of a dict. *)
Fixpoint dict_get (d : list (pystr * pyval)) (k : pystr) : option pyval :=
  match d with
  | [] => None
  | (k', v) :: d' => if pystr_eqb k' k then Some v else dict_get d' k
  end.

(** [d[k] = v]: replaces the value in place, or appends a new item. *)
Fixpoint dict_set (d : list (pystr * pyval)) (k : pystr) (v : pyval)
  : list (pystr * pyval) :=
  match d with
  | [] => [(k, v)]
  | (k', v') :: d' =>
      if pystr_eqb k' k then (k', v) :: d' else (k', v') :: dict_set d' k v
  end.

(** [bool(v)] *)
Definition truthy (v : pyval) : bool :=
  match v with
  | PNone => false
  | PBool b => b
  | PInt z => negb (z =? 0)
  | PStr s => match s with [] => false | _ => true end
  | PList l => match l with [] => false | _ => true end
  | PDict d => match d with [] => false | _ => true end
  end.

(** [v[k]] with a string key [k]. *)
Definition getitem (v : pyval) (k : pystr) : result pyval :=
  match v with
  | PDict d => match dict_get d k with Some x => Ok x | None => Raise (KeyError k) end
  | _ => Raise TypeError
  end.

(** [v.get(k, default)]: only a dict has the method. *)
Definition get_method (v : pyval) (k : pystr) (default : pyval) : result pyval :=
  match v with
  | PDict d => Ok (match dict_get d k with Some x => x | None => default end)
  | _ => Raise AttributeError
  end.

(** The integer a value counts as in arithmetic ([bool] is a subclass of
    [int]); anything else makes [<], [abs] and [/] raise [TypeError]. *)
Definition as_int (v : pyval) : result Z :=
  match v with
  | PInt z => Ok z
  | PBool b => Ok (if b then 1 else 0)
  | _ => Raise TypeError
  end.

(** [str(n)] for an integer. *)
Fixpoint digits_of_pos (fuel : nat) (n : Z) (acc : pystr) : pystr :=
  match fuel with
  | O => acc
  | S fuel' =>
      let acc' := Z.to_N (48 + n mod 10) :: acc in
      if n <? 10 then acc' else digits_of_pos fuel' (n / 10) acc'
  end.

Definition str_of_int (z : Z) : pystr :=
  if z <? 0
  then 45%N :: digits_of_pos (S (Z.to_nat (Z.log2 (- z)))) (- z) []
  else digits_of_pos (S (Z.to_nat (Z.log2 z))) z [].

(* ===================================================================== *)
(** * Python floats: IEEE 754 binary64, round to nearest even *)
(* ===================================================================== *)

Module PyFloat.

Definition prec : Z := 53.
Definition emax : Z := 1024.

Definition float := spec_float.

(** [float(n)] for an [int]: correctly rounded, [OverflowError] when the
    integer is too large for a double. *)
Definition of_int (z : Z) : result float :=
  match binary_normalize prec emax z 0 false with
  | S754_infinity _ => Raise OverflowError
  | f => Ok f
  end.

Definition mul (x y : float) : float := SFmul prec emax x y.

Definition is_zero (x : float) : bool :=
  match x with S754_zero _ => true | _ => false end.

(** [x / y] *)
Definition truediv (x y : float) : result float :=
  if is_zero y then Raise ZeroDivisionError else Ok (SFdiv prec emax x y).

Definition neg (x : float) : float := SFopp x.

Definition zero : float := S754_zero false.

(** [x < 0] and [x > 0] *)
Definition lt0 (x : float) : bool := SFltb x zero.
Definition gt0 (x : float) : bool := SFltb zero x.

(** [int(x)]: truncation towards zero. *)
Definition to_int (x : float) : result Z :=
  match x with
  | S754_zero _ => Ok 0
  | S754_infinity _ => Raise OverflowError
  | S754_nan => Raise ValueError
  | S754_finite s m e =>
      let a := match e with
               | Z0 => Zpos m
               | Zpos p => Zpos m * 2 ^ Zpos p
               | Zneg p => Zpos m / 2 ^ Zpos p
               end in
      Ok (if s then - a else a)
  end.

(** The literals [100.0], [100] and [-1] as floats. *)
Definition f100 : float := S754_finite false 7036874417766400 (-46).
Definition fminus1 : float := S754_finite true 4503599627370496 (-52).

End PyFloat.

(* ===================================================================== *)
(** * The codecs behind the credential store *)
(* ===================================================================== *)

(** [encrypt_config] and [decrypt_config] are compositions of library
    calls: [json.dumps] / [json.loads], [str.encode] / [bytes.decode]
    (UTF-8) and [base64.b64encode] / [base64.b64decode].  They are modelled
    here after CPython's implementations. *)

Module Base64.
Local Open Scope N_scope.

(** The base64 alphabet: [A-Z], [a-z], [0-9], [+], [/]. *)
Definition b2a (n : N) : N :=
  if n <? 26 then 65 + n
  else if n <? 52 then 97 + (n - 26)
  else if n <? 62 then 48 + (n - 52)
  else if n =? 62 then 43
  else 47.

(** The reverse table: [None] for a character outside the alphabet. *)
Definition a2b (c : N) : option N :=
  if (65 <=? c) && (c <=? 90) then Some (c - 65)
  else if (97 <=? c) && (c <=? 122) then Some (c - 97 + 26)
  else if (48 <=? c) && (c <=? 57) then Some (c - 48 + 52)
  else if c =? 43 then Some 62
  else if c =? 47 then Some 63
  else None.

Definition pad : N := 61.

(** [base64.b64encode(bs)] *)
Fixpoint b64encode (bs : pybytes) : pybytes :=
  match bs with
  | [] => []
  | [a] =>
      [b2a (N.shiftr a 2); b2a (N.shiftl (N.land a 3) 4); pad; pad]
  | [a; b] =>
      [b2a (N.shiftr a 2);
       b2a (N.lor (N.shiftl (N.land a 3) 4) (N.shiftr b 4));
       b2a (N.shiftl (N.land b 15) 2); pad]
  | a :: b :: c :: rest =>
      b2a (N.shiftr a 2)
      :: b2a (N.lor (N.shiftl (N.land a 3) 4) (N.shiftr b 4))
      :: b2a (N.lor (N.shiftl (N.land b 15) 2) (N.shiftr c 6))
      :: b2a (N.land c 63)
      :: b64encode rest
  end.

(** The loop of [binascii.a2b_base64] in its default, non-strict mode:
    characters outside the alphabet are skipped, a complete pad sequence
    ends the input, and a dangling partial quad is an error
    ([binascii.Error], a [ValueError]). *)
Fixpoint a2b_loop (s : pybytes) (quad_pos leftchar pads : N) (out : pybytes)
  : result pybytes :=
  match s with
  | [] => if quad_pos =? 0 then Ok out else Raise ValueError
  | this_ch :: s' =>
      if this_ch =? pad then
        if 2 <=? quad_pos then
          if 4 <=? quad_pos + (pads + 1) then Ok out
          else a2b_loop s' quad_pos leftchar (pads + 1) out
        else a2b_loop s' quad_pos leftchar pads out
      else
        match a2b this_ch with
        | None => a2b_loop s' quad_pos leftchar pads out
        | Some v =>
            if quad_pos =? 0 then a2b_loop s' 1 v 0 out
            else if quad_pos =? 1 then
              a2b_loop s' 2 (N.land v 15) 0
                (out ++ [N.lor (N.shiftl leftchar 2) (N.shiftr v 4)])
            else if quad_pos =? 2 then
              a2b_loop s' 3 (N.land v 3) 0
                (out ++ [N.lor (N.shiftl leftchar 4) (N.shiftr v 2)])
            else
              a2b_loop s' 0 0 0 (out ++ [N.lor (N.shiftl leftchar 6) v])
        end
  end.

(** [base64.b64decode(s)] for a [str] argument: the text must be ASCII. *)
Definition b64decode (s : pystr) : result pybytes :=
  if forallb (fun c => c <? 128) s then a2b_loop s 0 0 0 [] else Raise ValueError.

End Base64.

Module Utf8.
Local Open Scope N_scope.

Definition is_surrogate (c : N) : bool := (55296 <=? c) && (c <=? 57343).

(** The UTF-8 bytes of one code point. *)
Definition encode_char (c : N) : result pybytes :=
  if c <? 128 then Ok [c]
  else if c <? 2048 then
    Ok [N.lor 192 (N.shiftr c 6); N.lor 128 (N.land c 63)]
  else if is_surrogate c then Raise ValueError
  else if c <? 65536 then
    Ok [N.lor 224 (N.shiftr c 12);
        N.lor 128 (N.land (N.shiftr c 6) 63);
        N.lor 128 (N.land c 63)]
  else
    Ok [N.lor 240 (N.shiftr c 18);
        N.lor 128 (N.land (N.shiftr c 12) 63);
        N.lor 128 (N.land (N.shiftr c 6) 63);
        N.lor 128 (N.land c 63)].

(** [s.encode()] *)
Fixpoint encode (s : pystr) : result pybytes :=
  match s with
  | [] => Ok []
  | c :: s' =>
      bs <- encode_char c ;;
      rest <- encode s' ;;
      Ok (bs ++ rest)
  end.

Definition is_cont (b : N) : bool := (128 <=? b) && (b <=? 191).
Definition between (lo b hi : N) : bool := (lo <=? b) && (b <=? hi).

(** [bs.decode()]: strict UTF-8 ([UnicodeDecodeError] is a [ValueError]). *)
Fixpoint decode (bs : pybytes) : result pystr :=
  match bs with
  | [] => Ok []
  | b0 :: t0 =>
      if b0 <? 128 then (s <- decode t0 ;; Ok (b0 :: s))
      else if between 194 b0 223 then
        match t0 with
        | b1 :: t1 =>
            if is_cont b1
            then (s <- decode t1 ;;
                  Ok (N.lor (N.shiftl (N.land b0 31) 6) (N.land b1 63) :: s))
            else Raise ValueError
        | _ => Raise ValueError
        end
      else if between 224 b0 239 then
        match t0 with
        | b1 :: b2 :: t2 =>
            if between (if b0 =? 224 then 160 else 128) b1
                       (if b0 =? 237 then 159 else 191) && is_cont b2
            then (s <- decode t2 ;;
                  Ok (N.lor (N.shiftl (N.land b0 15) 12)
                        (N.lor (N.shiftl (N.land b1 63) 6) (N.land b2 63)) :: s))
            else Raise ValueError
        | _ => Raise ValueError
        end
      else if between 240 b0 244 then
        match t0 with
        | b1 :: b2 :: b3 :: t3 =>
            if between (if b0 =? 240 then 144 else 128) b1
                       (if b0 =? 244 then 143 else 191)
               && is_cont b2 && is_cont b3
            then (s <- decode t3 ;;
                  Ok (N.lor (N.shiftl (N.land b0 7) 18)
                        (N.lor (N.shiftl (N.land b1 63) 12)
                           (N.lor (N.shiftl (N.land b2 63) 6) (N.land b3 63))) :: s))
            else Raise ValueError
        | _ => Raise ValueError
        end
      else Raise ValueError
  end.

End Utf8.

Module Json.
Local Open Scope N_scope.

(** ** [json.dumps] *)

Definition hex_digit (n : N) : N := if n <? 10 then 48 + n else 87 + n.

(** [\uXXXX] with four lower-case hexadecimal digits. *)
Definition u_escape (c : N) : pystr :=
  [92; 117;
   hex_digit (N.land (N.shiftr c 12) 15);
   hex_digit (N.land (N.shiftr c 8) 15);
   hex_digit (N.land (N.shiftr c 4) 15);
   hex_digit (N.land c 15)].

(** One character of a string under [ensure_ascii=True]: printable ASCII
    stays, the short escapes are used where JSON has them, everything else
    becomes [\uXXXX], as a surrogate pair above the basic plane. *)
Definition escape_char (c : N) : pystr :=
  if c =? 34 then [92; 34]
  else if c =? 92 then [92; 92]
  else if c =? 10 then [92; 110]
  else if c =? 13 then [92; 114]
  else if c =? 9 then [92; 116]
  else if c =? 8 then [92; 98]
  else if c =? 12 then [92; 102]
  else if (32 <=? c) && (c <=? 126) then [c]
  else if c <? 65536 then u_escape c
  else u_escape (55296 - 64 + N.shiftr c 10) ++ u_escape (56320 + N.land c 1023).

Definition encode_basestring_ascii (s : pystr) : pystr :=
  34 :: flat_map escape_char s ++ [34].

(** [json.dumps(v)] with the default separators [", "] and [": "]. *)
Fixpoint dumps (v : pyval) : pystr :=
  match v with
  | PNone => py "null"
  | PBool b => if b then py "true" else py "false"
  | PInt z => str_of_int z
  | PStr s => encode_basestring_ascii s
  | PList l =>
      91 :: (fix items (l : list pyval) : pystr :=
               match l with
               | [] => []
               | x :: l' =>
                   dumps x ++ match l' with [] => [] | _ => 44 :: 32 :: items l' end
               end) l ++ [93]
  | PDict d =>
      123 :: (fix items (d : list (pystr * pyval)) : pystr :=
                match d with
                | [] => []
                | (k, x) :: d' =>
                    encode_basestring_ascii k ++ 58 :: 32 :: dumps x
                      ++ match d' with [] => [] | _ => 44 :: 32 :: items d' end
                end) d ++ [125]
  end.

(** ** [json.loads] *)

Definition is_ws (c : N) : bool :=
  (c =? 32) || (c =? 9) || (c =? 10) || (c =? 13).

Fixpoint skip_ws (s : pystr) : pystr :=
  match s with
  | c :: s' => if is_ws c then skip_ws s' else s
  | [] => []
  end.

Definition is_digit (c : N) : bool := (48 <=? c) && (c <=? 57).

Definition hexval (c : N) : option N :=
  if is_digit c then Some (c - 48)
  else if (97 <=? c) && (c <=? 102) then Some (c - 87)
  else if (65 <=? c) && (c <=? 70) then Some (c - 55)
  else None.

Definition hex4 (a b c d : N) : option N :=
  match hexval a, hexval b, hexval c, hexval d with
  | Some x, Some y, Some z, Some w => Some (4096 * x + 256 * y + 16 * z + w)
  | _, _, _, _ => None
  end.

(** The short escapes of a JSON string. *)
Definition backslash (esc : N) : option N :=
  if esc =? 34 then Some 34
  else if esc =? 92 then Some 92
  else if esc =? 47 then Some 47
  else if esc =? 98 then Some 8
  else if esc =? 102 then Some 12
  else if esc =? 110 then Some 10
  else if esc =? 114 then Some 13
  else if esc =? 116 then Some 9
  else None.

(** [scanstring]: reads a string body up to its closing quote (strict
    mode: a raw control character is an error).  A high surrogate escape
    directly followed by a low surrogate escape is joined into one code
    point. *)
Fixpoint scanstring (s : pystr) (acc : pystr) : result (pystr * pystr) :=
  match s with
  | [] => Raise JSONDecodeError
  | c :: s1 =>
      if c =? 34 then Ok (acc, s1)
      else if c =? 92 then
        match s1 with
        | [] => Raise JSONDecodeError
        | esc :: s2 =>
            if esc =? 117 then
              match s2 with
              | h1 :: h2 :: h3 :: h4 :: s3 =>
                  match hex4 h1 h2 h3 h4 with
                  | None => Raise JSONDecodeError
                  | Some uni =>
                      if (55296 <=? uni) && (uni <=? 56319) then
                        match s3 with
                        | b :: u :: s4 =>
                            if (b =? 92) && (u =? 117) then
                              match s4 with
                              | k1 :: k2 :: k3 :: k4 :: s5 =>
                                  match hex4 k1 k2 k3 k4 with
                                  | None => Raise JSONDecodeError
                                  | Some uni2 =>
                                      if (56320 <=? uni2) && (uni2 <=? 57343)
                                      then scanstring s5
                                             (acc ++ [65536 + N.lor (N.shiftl (uni - 55296) 10)
                                                                    (uni2 - 56320)])
                                      else scanstring s3 (acc ++ [uni])
                                  end
                              | _ => Raise JSONDecodeError
                              end
                            else scanstring s3 (acc ++ [uni])
                        | _ => scanstring s3 (acc ++ [uni])
                        end
                      else scanstring s3 (acc ++ [uni])
                  end
              | _ => Raise JSONDecodeError
              end
            else
              match backslash esc with
              | Some ch => scanstring s2 (acc ++ [ch])
              | None => Raise JSONDecodeError
              end
        end
      else if c <? 32 then Raise JSONDecodeError
      else scanstring s1 (acc ++ [c])
  end.

Fixpoint scan_digits (s : pystr) (acc : Z) : Z * pystr :=
  match s with
  | c :: s' =>
      if is_digit c then scan_digits s' (10 * acc + Z.of_N (c - 48))%Z else (acc, s)
  | [] => (acc, [])
  end.

(** Does a fraction ([.] and a digit) or an exponent follow the integer
    part of a number? *)
Definition float_part_follows (s : pystr) : bool :=
  match s with
  | c :: d :: rest =>
      ((c =? 46) && is_digit d)
      || (((c =? 101) || (c =? 69))
          && (is_digit d
              || (((d =? 43) || (d =? 45))
                  && match rest with e :: _ => is_digit e | [] => false end)))
  | _ => false
  end.

(** The integer part of a number, [0|[1-9][0-9]*], after the optional sign.
    Numbers with a fraction or an exponent and the constants [NaN] and
    [Infinity] are Python floats, which [pyval] does not hold: the model
    reports them as undecodable. *)
Definition scan_number (neg : bool) (s : pystr) : result (pyval * pystr) :=
  match s with
  | c :: s' =>
      if c =? 48 then
        if float_part_follows s' then Raise JSONDecodeError else Ok (PInt 0, s')
      else if is_digit c then
        let '(n, rest) := scan_digits s 0%Z in
        if float_part_follows rest then Raise JSONDecodeError
        else Ok (PInt (if neg then (- n)%Z else n), rest)
      else Raise JSONDecodeError
  | [] => Raise JSONDecodeError
  end.

Fixpoint strip_prefix (p s : pystr) : option pystr :=
  match p, s with
  | [], _ => Some s
  | a :: p', b :: s' => if a =? b then strip_prefix p' s' else None
  | _ :: _, [] => None
  end.

Section Containers.
Variable scan : pystr -> result (pyval * pystr).

(** The item loop of [JSONArray], entered at the first item. *)
Fixpoint array_items (n : nat) (s : pystr) (acc : list pyval)
  : result (pyval * pystr) :=
  match n with
  | O => Raise JSONDecodeError
  | S n' =>
      r <- scan s ;;
      let acc' := acc ++ [fst r] in
      match skip_ws (snd r) with
      | c :: s1 =>
          if c =? 93 then Ok (PList acc', s1)
          else if c =? 44 then array_items n' (skip_ws s1) acc'
          else Raise JSONDecodeError
      | [] => Raise JSONDecodeError
      end
  end.

Definition JSONArray (n : nat) (s : pystr) : result (pyval * pystr) :=
  match skip_ws s with
  | c :: s1 => if c =? 93 then Ok (PList [], s1) else array_items n (skip_ws s) []
  | [] => Raise JSONDecodeError
  end.

(** The pair loop of [JSONObject], entered after the opening quote of a
    key; a repeated key keeps its place and takes the later value, as
    [dict(pairs)] does. *)
Fixpoint object_pairs (n : nat) (s : pystr) (acc : list (pystr * pyval))
  : result (pyval * pystr) :=
  match n with
  | O => Raise JSONDecodeError
  | S n' =>
      k <- scanstring s [] ;;
      match skip_ws (snd k) with
      | c :: s1 =>
          if c =? 58 then
            r <- scan (skip_ws s1) ;;
            let acc' := dict_set acc (fst k) (fst r) in
            match skip_ws (snd r) with
            | c2 :: s2 =>
                if c2 =? 125 then Ok (PDict acc', s2)
                else if c2 =? 44 then
                  match skip_ws s2 with
                  | q :: s3 =>
                      if q =? 34 then object_pairs n' s3 acc' else Raise JSONDecodeError
                  | [] => Raise JSONDecodeError
                  end
                else Raise JSONDecodeError
            | [] => Raise JSONDecodeError
            end
          else Raise JSONDecodeError
      | [] => Raise JSONDecodeError
      end
  end.

Definition JSONObject (n : nat) (s : pystr) : result (pyval * pystr) :=
  match skip_ws s with
  | c :: s1 =>
      if c =? 125 then Ok (PDict [], s1)
      else if c =? 34 then object_pairs n s1 []
      else Raise JSONDecodeError
  | [] => Raise JSONDecodeError
  end.

End Containers.

(** [scan_once]: one JSON value at the head of the text.  The fuel bounds
    the nesting depth and the number of items; [loads] gives more than the
    length of the text, which is never used up. *)
Fixpoint scan_once (fuel : nat) (s : pystr) : result (pyval * pystr) :=
  match fuel with
  | O => Raise JSONDecodeError
  | S fuel' =>
      match s with
      | [] => Raise JSONDecodeError
      | c :: s1 =>
          if c =? 34 then
            r <- scanstring s1 [] ;; Ok (PStr (fst r), snd r)
          else if c =? 123 then JSONObject (scan_once fuel') fuel' s1
          else if c =? 91 then JSONArray (scan_once fuel') fuel' s1
          else if c =? 45 then scan_number true s1
          else if is_digit c then scan_number false s
          else
            match strip_prefix (py "null") s with
            | Some rest => Ok (PNone, rest)
            | None =>
                match strip_prefix (py "true") s with
                | Some rest => Ok (PBool true, rest)
                | None =>
                    match strip_prefix (py "false") s with
                    | Some rest => Ok (PBool false, rest)
                    | None => Raise JSONDecodeError
                    end
                end
            end
      end
  end.

(** [json.loads(s)] for a [str]: a leading byte-order mark is refused,
    white space may surround the value, and nothing else may follow it. *)
Definition loads (s : pystr) : result pyval :=
  match s with
  | 65279 :: _ => Raise JSONDecodeError
  | _ =>
      r <- scan_once (S (length s)) (skip_ws s) ;;
      match skip_ws (snd r) with
      | [] => Ok (fst r)
      | _ :: _ => Raise JSONDecodeError
      end
  end.

End Json.

(* ===================================================================== *)
(** * The outside world: HTTP, the clock and the keyring *)
(* ===================================================================== *)

(** A [datetime] object, by its attributes. *)
Record datetime := {
  year : Z; month : Z; day : Z;
  hour : Z; minute : Z; second : Z;
  microsecond : Z
}.

Definition cookiejar := list (pystr * pystr).

(** What the program reads off a [requests.Response]. [resp_json] is the
    outcome of [response.json()]: [None] when the body is not JSON. *)
Record response := {
  status_code : Z;
  reason : pystr;
  url : pystr;
  text : pystr;
  resp_json : option pyval;
  cookies : cookiejar
}.

(** The five HTTP calls the program makes, each with the values it sends. *)
Inductive request :=
(** [POST {monetr_url}/api/authentication/login], JSON body [email], [password] *)
| LoginRequest (monetr_url email password : pyval)
(** [POST {monetr_url}/api/bank_accounts/{id}/transactions], JSON body, cookies *)
| TransactionPost (monetr_url bank_account_id transaction_data : pyval)
    (auth_cookie : option cookiejar)
(** [POST https://api.monzo.com/oauth2/token], form data *)
| TokenRequest (data : list (pystr * pyval))
(** [GET https://api.monzo.com/accounts], bearer token *)
| AccountsRequest (access_token : pyval)
(** [GET https://api.monzo.com/transactions], bearer token, query
    parameters [account_id], [since], [expand[]=merchant], [limit=50] *)
| TransactionsRequest (account_id access_token : pyval) (since : pystr).

Inductive http_outcome :=
| Responded (r : response)
| NoResponse (msg : pystr).

(** Everything the program does not decide itself: how the servers answer
    (given the requests made so far and the current one), how
    [datetime.strptime] reads a creation timestamp in the format
    [%Y-%m-%dT%H:%M:%S.%fZ], what [datetime.now()] minus one hour looks like
    in that format, and whether [datetime.now()] plus a number of seconds is
    still a representable date. *)
Record environment := {
  net : list request -> request -> http_outcome;
  strptime : pystr -> result datetime;
  since_now : list request -> pystr;
  expiry_in_range : Z -> bool
}.

(** The mutable state outside the Python heap: the keyring, keyed by service
    and user name, the requests sent so far, the lines printed, and the
    module-level [LOCAL_BANK_ACCOUNT_ID]. *)
Record world := {
  keyring : gmap (pystr * pystr) pystr;
  sent : list request;
  stdout : list pystr;
  LOCAL_BANK_ACCOUNT_ID : pyval
}.

Definition set_keyring (f : gmap (pystr * pystr) pystr -> gmap (pystr * pystr) pystr)
  (w : world) : world :=
  {| keyring := f (keyring w); sent := sent w; stdout := stdout w;
     LOCAL_BANK_ACCOUNT_ID := LOCAL_BANK_ACCOUNT_ID w |}.

Definition print (line : pystr) (w : world) : world :=
  {| keyring := keyring w; sent := sent w; stdout := stdout w ++ [line];
     LOCAL_BANK_ACCOUNT_ID := LOCAL_BANK_ACCOUNT_ID w |}.

(** One HTTP call: the request is recorded and the server's answer comes
    back, or a [RequestException] without a response is raised. *)
Definition send (E : environment) (req : request) (w : world)
  : result response * world :=
  let w' := {| keyring := keyring w; sent := sent w ++ [req]; stdout := stdout w;
               LOCAL_BANK_ACCOUNT_ID := LOCAL_BANK_ACCOUNT_ID w |} in
  match net E (sent w) req with
  | Responded r => (Ok r, w')
  | NoResponse msg => (Raise (ConnectionError msg), w')
  end.

(** [response.raise_for_status()] of the [requests] library: an [HTTPError]
    for a status in 400..599, nothing otherwise. *)
Definition raise_for_status (r : response) : result unit :=
  if (400 <=? status_code r) && (status_code r <? 500) then
    Raise (HTTPError (str_of_int (status_code r) ++ py " Client Error: "
                        ++ reason r ++ py " for url: " ++ url r))
  else if (500 <=? status_code r) && (status_code r <? 600) then
    Raise (HTTPError (str_of_int (status_code r) ++ py " Server Error: "
                        ++ reason r ++ py " for url: " ++ url r))
  else Ok tt.

(* ===================================================================== *)
(** * The credential store *)
(* ===================================================================== *)

Definition MONETR_SERVICE : pystr := py "monzo_bridge_monetr".
Definition MONZO_SERVICE : pystr := py "monzo_bridge_monzo".

(** [base64.b64encode(json.dumps(data).encode()).decode()] *)
Definition encrypt_config (data : pyval) : result pystr :=
  bs <- Utf8.encode (Json.dumps data) ;;
  Utf8.decode (Base64.b64encode bs).

(** [json.loads(base64.b64decode(encrypted_data).decode())]: the body of
    the [try] block of [decrypt_config]. *)
Definition decode_config (encrypted_data : pystr) : result pyval :=
  bs <- Base64.b64decode encrypted_data ;;
  s <- Utf8.decode bs ;;
  Json.loads s.

(** [decrypt_config]: any exception of the decoding is turned into [None]. *)
Definition decrypt_config (encrypted_data : pystr) : pyval :=
  match decode_config encrypted_data with
  | Ok v => v
  | Raise _ => PNone
  end.

Definition load_config (service : pystr) (w : world) : pyval :=
  match keyring w !! (service, py "config") with
  | Some encrypted_data =>
      match encrypted_data with
      | [] => PNone
      | _ :: _ => decrypt_config encrypted_data
      end
  | None => PNone
  end.

Definition load_monetr_config (w : world) : pyval := load_config MONETR_SERVICE w.
Definition load_monzo_config (w : world) : pyval := load_config MONZO_SERVICE w.

Definition save_config (service : pystr) (config : pyval) (w : world)
  : result unit * world :=
  match encrypt_config config with
  | Ok encrypted_data =>
      (Ok tt, set_keyring (fun k => <[(service, py "config") := encrypted_data]> k) w)
  | Raise e => (Raise e, w)
  end.

Definition save_monetr_config (config : pyval) (w : world) : result unit * world :=
  save_config MONETR_SERVICE config w.
Definition save_monzo_config (config : pyval) (w : world) : result unit * world :=
  save_config MONZO_SERVICE config w.

(** [config[k] = v] *)
Definition setitem (config : pyval) (k : pystr) (v : pyval) : result pyval :=
  match config with
  | PDict d => Ok (PDict (dict_set d k v))
  | _ => Raise TypeError
  end.

Definition save_tokens (access_token refresh_token : pyval) (w : world)
  : result unit * world :=
  let config := load_monzo_config w in
  if truthy config then
    match (c1 <- setitem config (py "access_token") access_token ;;
           setitem c1 (py "refresh_token") refresh_token) with
    | Ok c2 => save_monzo_config c2 w
    | Raise e => (Raise e, w)
    end
  else (Ok tt, w).

Definition load_saved_tokens (w : world) : result pyval :=
  let config := load_monzo_config w in
  if truthy config then get_method config (py "access_token") PNone
  else Ok PNone.

(* ===================================================================== *)
(** * The budgeting backend client: [LocalAPIClient] *)
(* ===================================================================== *)

(** The attributes of a [LocalAPIClient] that change or are read after
    construction. *)
Record LocalAPIClient := {
  auth_cookie : option cookiejar;
  client_config : pyval
}.

(** [not self.auth_cookie]: no jar yet, or an empty one. *)
Definition no_auth_cookie (self : LocalAPIClient) : bool :=
  match auth_cookie self with
  | None | Some [] => true
  | Some (_ :: _) => false
  end.

Definition nl : pystr := [10%N].
Definition check_mark : pystr := [10003%N; 32%N].

(** [LocalAPIClient.login].  The handler of the source catches
    [RequestException] only: the error of a failed call, which has no
    response, and the [HTTPError] of [raise_for_status], which has one. *)
Definition login (E : environment) (self : LocalAPIClient) (w : world)
  : result unit * LocalAPIClient * world :=
  match getitem (client_config self) (py "monetr_url") with
  | Raise e => (Raise e, self, w)
  | Ok monetr_url =>
      let w1 := print (nl ++ py "Attempting login to Monetr...") w in
      match (email <- getitem (client_config self) (py "monetr_email") ;;
             password <- getitem (client_config self) (py "monetr_password") ;;
             Ok (LoginRequest monetr_url email password)) with
      | Raise e => (Raise e, self, w1)
      | Ok req =>
          match send E req w1 with
          | (Raise e, w2) =>
              let w3 := print (nl ++ py "Failed to login to Monetr:") w2 in
              (Raise (Exception_ (py "Monetr login failed: " ++ exn_str e)), self, w3)
          | (Ok r, w2) =>
              let logged_in (w : world) :=
                (Ok tt,
                 {| auth_cookie := Some (cookies r);
                    client_config := client_config self |},
                 print (check_mark ++ py "Successfully logged in to Monetr") w) in
              if status_code r =? 200 then logged_in w2
              else
                let w3 := print (py "Login failed with status "
                                   ++ str_of_int (status_code r)) w2 in
                let w4 := print (py "Response: " ++ text r) w3 in
                match raise_for_status r with
                | Ok _ => logged_in w4
                | Raise e =>
                    let w5 := print (nl ++ py "Failed to login to Monetr:") w4 in
                    let w6 := print (py "Status code: "
                                       ++ str_of_int (status_code r)) w5 in
                    let w7 := print (py "Error: " ++ text r) w6 in
                    (Raise (Exception_ (py "Monetr login failed: " ++ exn_str e)),
                     self, w7)
                end
          end
      end
  end.

(** [str.zfill] and [date.strftime("%Y-%m-%dT%H:%M:%S.000Z")]. *)
Definition zfill (width : nat) (s : pystr) : pystr :=
  repeat 48%N (width - length s) ++ s.

Definition strftime (date : datetime) : pystr :=
  zfill 4 (str_of_int (year date)) ++ py "-"
  ++ zfill 2 (str_of_int (month date)) ++ py "-"
  ++ zfill 2 (str_of_int (day date)) ++ py "T"
  ++ zfill 2 (str_of_int (hour date)) ++ py ":"
  ++ zfill 2 (str_of_int (minute date)) ++ py ":"
  ++ zfill 2 (str_of_int (second date)) ++ py ".000Z".

(** The two sign branches at the head of [post_transaction]. *)
Definition flip_sign (amount : PyFloat.float) : PyFloat.float :=
  if PyFloat.lt0 amount then PyFloat.neg amount
  else if PyFloat.gt0 amount then PyFloat.neg amount
  else amount.

(** The [transaction_data] dictionary. *)
Definition transaction_data (bank_account_id : pyval) (amount : PyFloat.float)
  (name : pyval) (date : datetime) (is_pending : bool) : result pyval :=
  cents <- PyFloat.to_int (PyFloat.mul (flip_sign amount) PyFloat.f100) ;;
  Ok (PDict [(py "bankAccountId", bank_account_id);
             (py "amount", PInt cents);
             (py "name", name);
             (py "merchantName", name);
             (py "date", PStr (strftime date));
             (py "isPending", PBool is_pending);
             (py "spendingId", PNone);
             (py "adjustsBalance", PBool true)]).

(** [LocalAPIClient.post_transaction].  The progress line printed after a
    successful post formats a float and is left out. *)
Definition post_transaction (E : environment) (self : LocalAPIClient)
  (amount : PyFloat.float) (name : pyval) (date : datetime) (is_pending : bool)
  (w : world) : result unit * LocalAPIClient * world :=
  let '(r0, self1, w1) :=
    if no_auth_cookie self then login E self w else (Ok tt, self, w) in
  match r0 with
  | Raise e => (Raise e, self1, w1)
  | Ok _ =>
      match transaction_data (LOCAL_BANK_ACCOUNT_ID w1) amount name date is_pending with
      | Raise e => (Raise e, self1, w1)
      | Ok body =>
          match getitem (client_config self1) (py "monetr_url") with
          | Raise e => (Raise e, self1, w1)
          | Ok monetr_url =>
              match send E (TransactionPost monetr_url (LOCAL_BANK_ACCOUNT_ID w1)
                              body (auth_cookie self1)) w1 with
              | (Raise e, w2) =>
                  let w3 := print (nl ++ py "Failed to post transaction:") w2 in
                  (Raise (Exception_ (py "Failed to post transaction: " ++ exn_str e)),
                   self1, w3)
              | (Ok r, w2) =>
                  if status_code r =? 200 then (Ok tt, self1, w2)
                  else
                    let w3 := print (py "Failed to post transaction with status "
                                       ++ str_of_int (status_code r)) w2 in
                    let w4 := print (py "Response: " ++ text r) w3 in
                    match raise_for_status r with
                    | Ok _ => (Ok tt, self1, w4)
                    | Raise e =>
                        let w5 := print (nl ++ py "Failed to post transaction:") w4 in
                        let w6 := print (py "Status code: "
                                           ++ str_of_int (status_code r)) w5 in
                        let w7 := print (py "Error: " ++ text r) w6 in
                        (Raise (Exception_ (py "Failed to post transaction: "
                                              ++ exn_str e)), self1, w7)
                    end
              end
          end
      end
  end.

(* ===================================================================== *)
(** * The authorization code and its exchange *)
(* ===================================================================== *)

Definition REDIRECT_URI : pystr := py "http://localhost:8080/callback".

(** [keyring.get_password(MONZO_SERVICE, "auth_code")] *)
Definition get_auth_code (w : world) : pyval :=
  match keyring w !! (MONZO_SERVICE, py "auth_code") with
  | Some code => PStr code
  | None => PNone
  end.

(** [keyring.delete_password]: raises [PasswordDeleteError] when there is
    nothing to delete. *)
Definition delete_password (service username : pystr) (w : world)
  : result unit * world :=
  match keyring w !! (service, username) with
  | Some _ => (Ok tt, set_keyring (delete (service, username)) w)
  | None => (Raise PasswordDeleteError, w)
  end.

Definition clear_auth_code (w : world) : result unit * world :=
  match delete_password MONZO_SERVICE (py "auth_code") w with
  | (Raise PasswordDeleteError, w') => (Ok tt, w')
  | r => r
  end.

(** [response.json()] *)
Definition json_of (r : response) : result pyval :=
  match resp_json r with
  | Some v => Ok v
  | None => Raise JSONDecodeError
  end.

Definition exchange_auth_code (E : environment)
  (auth_code client_id client_secret : pyval) (w : world)
  : result pyval * world :=
  let config := load_monzo_config w in
  if negb (truthy config) then
    (Raise (Exception_ (py "Monzo configuration not found")), w)
  else
    let data := [(py "grant_type", PStr (py "authorization_code"));
                 (py "client_id", client_id);
                 (py "client_secret", client_secret);
                 (py "redirect_uri", PStr REDIRECT_URI);
                 (py "code", auth_code)] in
    match send E (TokenRequest data) w with
    | (Raise e, w1) => (Raise e, w1)
    | (Ok r, w1) =>
        match (_ <- raise_for_status r ;;
               tokens <- json_of r ;;
               expires_in <- getitem tokens (py "expires_in") ;;
               seconds <- as_int expires_in ;;
               _ <- (if expiry_in_range E seconds then Ok tt else Raise OverflowError) ;;
               access_token <- getitem tokens (py "access_token") ;;
               refresh_token <- getitem tokens (py "refresh_token") ;;
               Ok (access_token, refresh_token)) with
        | Raise e => (Raise e, w1)
        | Ok (access_token, refresh_token) =>
            match save_tokens access_token refresh_token w1 with
            | (Raise e, w2) => (Raise e, w2)
            | (Ok _, w2) =>
                match clear_auth_code w2 with
                | (Raise e, w3) => (Raise e, w3)
                | (Ok _, w3) => (Ok access_token, w3)
                end
            end
        end
    end.

(* ===================================================================== *)
(** * The banking API client *)
(* ===================================================================== *)

Definition get_accounts (E : environment) (access_token : pyval) (w : world)
  : result pyval * world :=
  match send E (AccountsRequest access_token) w with
  | (Raise e, w1) => (Raise e, w1)
  | (Ok r, w1) =>
      ((data <- json_of r ;; get_method data (py "accounts") (PList [])), w1)
  end.

(** [for x in v]: the items of a list, the keys of a dict, the characters
    of a string. *)
Definition iter_values (v : pyval) : result (list pyval) :=
  match v with
  | PList l => Ok l
  | PDict d => Ok (map (fun kv => PStr (fst kv)) d)
  | PStr s => Ok (map (fun c => PStr [c]) s)
  | _ => Raise TypeError
  end.

Fixpoint mapM {A B} (f : A -> result B) (l : list A) : result (list B) :=
  match l with
  | [] => Ok []
  | x :: l' => y <- f x ;; ys <- mapM f l' ;; Ok (y :: ys)
  end.

(** [a < b] on two strings: by code points, the shorter first on a tie. *)
Fixpoint pystr_ltb (a b : pystr) : bool :=
  match a, b with
  | _, [] => false
  | [], _ :: _ => true
  | x :: a', y :: b' =>
      if (x <? y)%N then true
      else if (y <? x)%N then false
      else pystr_ltb a' b'
  end.

Definition is_str (v : pyval) : bool :=
  match v with PStr _ => true | _ => false end.
Definition is_int (v : pyval) : bool :=
  match v with PInt _ | PBool _ => true | _ => false end.

(** [a < b] on sort keys of one kind: two strings, or two integers. *)
Definition key_ltb (a b : pyval) : bool :=
  match a, b with
  | PStr x, PStr y => pystr_ltb x y
  | _, _ =>
      match as_int a, as_int b with
      | Ok x, Ok y => x <? y
      | _, _ => false
      end
  end.

(** Keys that [sorted] can order: all strings or all integers.  With two
    items or more every item is compared at least once, and comparing a
    string with an integer, or [None] or a dict with anything, raises
    [TypeError].  (Keys that are lists compare item by item in Python; the
    model does not follow that and counts them as not comparable.) *)
Definition comparable (keys : list pyval) : bool :=
  forallb is_str keys || forallb is_int keys.

(** Stable insertion for a descending order: an item goes after the items
    with a greater key and before those with an equal or smaller one. *)
Fixpoint insert_desc (x : pyval * pyval) (l : list (pyval * pyval))
  : list (pyval * pyval) :=
  match l with
  | [] => [x]
  | y :: l' => if key_ltb (fst x) (fst y) then y :: insert_desc x l' else x :: l
  end.

Definition sort_desc (l : list (pyval * pyval)) : list (pyval * pyval) :=
  foldr insert_desc [] l.

(** [sorted(transactions, key=lambda x: x['created'], reverse=True)] *)
Definition sorted_by_created (transactions : pyval) : result (list pyval) :=
  items <- iter_values transactions ;;
  keyed <- mapM (fun x => k <- getitem x (py "created") ;; Ok (k, x)) items ;;
  if (length keyed <=? 1)%nat || comparable (map fst keyed)
  then Ok (map snd (sort_desc keyed))
  else Raise TypeError.

(** The body of the [try] block of [get_transactions], once the response
    is there. *)
Definition read_transactions (r : response) : result (list pyval) :=
  _ <- raise_for_status r ;;
  data <- json_of r ;;
  transactions <- get_method data (py "transactions") (PList []) ;;
  sorted_by_created transactions.

(** [get_transactions]: every exception of the [try] block gives the empty
    list.  (The line printed when [quiet] is false is left out.) *)
Definition get_transactions (E : environment) (account_id access_token : pyval)
  (quiet : bool) (w : world) : list pyval * world :=
  let since := since_now E (sent w) in
  match send E (TransactionsRequest account_id access_token since) w with
  | (Raise _, w1) => ([], w1)
  | (Ok r, w1) =>
      match read_transactions r with
      | Ok sorted_transactions => (sorted_transactions, w1)
      | Raise _ => ([], w1)
      end
  end.

(* ===================================================================== *)
(** * The transaction monitor (step 4 of [main]) *)
(* ===================================================================== *)

(** What a set can hold of the values in [pyval], up to Python's equality
    ([True == 1]); lists and dicts are unhashable. *)
Inductive hkey :=
| HNone
| HInt (z : Z)
| HStr (s : pystr).

#[global] Instance hkey_eq_dec : EqDecision hkey.
Proof. solve_decision. Defined.

#[global] Instance hkey_countable : Countable hkey.
Proof.
  refine (inj_countable'
            (fun k => match k with
                      | HNone => inl tt
                      | HInt z => inr (inl z)
                      | HStr s => inr (inr s)
                      end)
            (fun x => match x with
                      | inl _ => HNone
                      | inr (inl z) => HInt z
                      | inr (inr s) => HStr s
                      end) _).
  intros []; reflexivity.
Defined.

Definition hashable (v : pyval) : result hkey :=
  match v with
  | PNone => Ok HNone
  | PBool b => Ok (HInt (if b then 1 else 0))
  | PInt z => Ok (HInt z)
  | PStr s => Ok (HStr s)
  | _ => Raise TypeError
  end.

(** The amount as [main] computes it from the record: minor units divided
    by [100.0], the sign kept. *)
Definition source_amount (t : pyval) : result PyFloat.float :=
  a <- getitem t (py "amount") ;;
  n <- as_int a ;;
  if n <? 0 then
    f <- PyFloat.of_int (Z.abs n) ;;
    q <- PyFloat.truediv f PyFloat.f100 ;;
    Ok (PyFloat.mul q PyFloat.fminus1)
  else
    f <- PyFloat.of_int (Z.abs n) ;;
    PyFloat.truediv f PyFloat.f100.

(** The name sent to the backend. *)
Definition display_name (t : pyval) : result pyval :=
  merchant <- get_method t (py "merchant") (PDict []) ;;
  if truthy merchant then
    name <- get_method merchant (py "name") PNone ;;
    if truthy name then getitem merchant (py "name")
    else get_method t (py "description") (PStr (py "Unknown"))
  else get_method t (py "description") (PStr (py "Unknown")).

(** [datetime.strptime(transaction['created'], '%Y-%m-%dT%H:%M:%S.%fZ')] *)
Definition transaction_time (E : environment) (t : pyval) : result datetime :=
  created <- getitem t (py "created") ;;
  match created with
  | PStr s => strptime E s
  | _ => Raise TypeError
  end.

(** The state of the loop: the set of ids, the backend client, and, as a
    record of what happened, the calls of [post_transaction] so far in
    order, each with the id it was made for and whether it returned. *)
Record monitor := {
  initial_transaction_ids : gset hkey;
  local_api : LocalAPIClient;
  attempts : list (hkey * bool)
}.

(** The body of [for transaction in transactions].  An exception raised
    before the inner [try] leaves the cycle; one raised by
    [post_transaction] is caught and the id stays out of the set. *)
Definition process_transaction (E : environment) (t : pyval) (m : monitor)
  (w : world) : result unit * monitor * world :=
  match (v <- getitem t (py "id") ;; hashable v) with
  | Raise e => (Raise e, m, w)
  | Ok id =>
      if bool_decide (id ∈ initial_transaction_ids m) then (Ok tt, m, w)
      else
        match (amount <- source_amount t ;;
               merchant_name <- display_name t ;;
               time <- transaction_time E t ;;
               settled <- get_method t (py "settled") (PBool false) ;;
               Ok (amount, merchant_name, time, negb (truthy settled))) with
        | Raise e => (Raise e, m, w)
        | Ok (amount, merchant_name, time, is_pending) =>
            match post_transaction E (local_api m) amount merchant_name time
                    is_pending w with
            | (Ok _, api, w1) =>
                (Ok tt,
                 {| initial_transaction_ids := {[id]} ∪ initial_transaction_ids m;
                    local_api := api;
                    attempts := attempts m ++ [(id, true)] |}, w1)
            | (Raise _, api, w1) =>
                (Ok tt,
                 {| initial_transaction_ids := initial_transaction_ids m;
                    local_api := api;
                    attempts := attempts m ++ [(id, false)] |}, w1)
            end
        end
  end.

Fixpoint for_transactions (E : environment) (ts : list pyval) (m : monitor)
  (w : world) : result unit * monitor * world :=
  match ts with
  | [] => (Ok tt, m, w)
  | t :: ts' =>
      match process_transaction E t m w with
      | (Ok _, m1, w1) => for_transactions E ts' m1 w1
      | r => r
      end
  end.

Definition is_us_partner (ty : pyval) : bool :=
  match ty with
  | PStr s => pystr_eqb s (py "us_partner")
  | _ => false
  end.

(** The body of [for account in accounts] inside the loop. *)
Definition poll_account (E : environment) (access_token account : pyval)
  (m : monitor) (w : world) : result unit * monitor * world :=
  match getitem account (py "type") with
  | Raise e => (Raise e, m, w)
  | Ok ty =>
      if is_us_partner ty then
        match getitem account (py "id") with
        | Raise e => (Raise e, m, w)
        | Ok account_id =>
            let '(transactions, w1) :=
              get_transactions E account_id access_token true w in
            for_transactions E transactions m w1
        end
      else (Ok tt, m, w)
  end.

Fixpoint for_accounts (E : environment) (access_token : pyval)
  (accounts : list pyval) (m : monitor) (w : world)
  : result unit * monitor * world :=
  match accounts with
  | [] => (Ok tt, m, w)
  | account :: accounts' =>
      match poll_account E access_token account m w with
      | (Ok _, m1, w1) => for_accounts E access_token accounts' m1 w1
      | r => r
      end
  end.

(** One turn of [while True]: an exception ends the turn, not the loop. *)
Definition cycle (E : environment) (access_token accounts : pyval)
  (m : monitor) (w : world) : monitor * world :=
  match iter_values accounts with
  | Raise _ => (m, w)
  | Ok l => let '(_, m1, w1) := for_accounts E access_token l m w in (m1, w1)
  end.

(** The first [n] turns of the loop. *)
Fixpoint monitor_loop (E : environment) (access_token accounts : pyval)
  (n : nat) (m : monitor) (w : world) : monitor * world :=
  match n with
  | O => (m, w)
  | S n' =>
      let '(m1, w1) := cycle E access_token accounts m w in
      monitor_loop E access_token accounts n' m1 w1
  end.

(** [initial_transaction_ids.update(t['id'] for t in transactions)] *)
Fixpoint update_ids (ts : list pyval) (ids : gset hkey) : result (gset hkey) :=
  match ts with
  | [] => Ok ids
  | t :: ts' =>
      v <- getitem t (py "id") ;;
      k <- hashable v ;;
      update_ids ts' ({[k]} ∪ ids)
  end.

(** The seeding pass over the accounts. *)
Fixpoint seed (E : environment) (access_token : pyval) (accounts : list pyval)
  (ids : gset hkey) (w : world) : result (gset hkey) * world :=
  match accounts with
  | [] => (Ok ids, w)
  | account :: accounts' =>
      match getitem account (py "type") with
      | Raise e => (Raise e, w)
      | Ok ty =>
          if is_us_partner ty then
            match getitem account (py "id") with
            | Raise e => (Raise e, w)
            | Ok account_id =>
                let '(transactions, w1) :=
                  get_transactions E account_id access_token true w in
                match update_ids transactions ids with
                | Raise e => (Raise e, w1)
                | Ok ids' => seed E access_token accounts' ids' w1
                end
            end
          else seed E access_token accounts' ids w
      end
  end.

(** Step 4 of [main], the loop cut after [n] turns: [None] when the step
    ends before the loop starts (no accounts, or an exception while the
    accounts are listed or the set is seeded). *)
Definition transaction_monitor (E : environment) (access_token : pyval)
  (api : LocalAPIClient) (n : nat) (w : world) : option (monitor * world) :=
  match get_accounts E access_token w with
  | (Raise _, _) => None
  | (Ok accounts, w1) =>
      if negb (truthy accounts) then None
      else
        match (l <- iter_values accounts ;;
               _ <- mapM (fun a => _ <- getitem a (py "description") ;;
                                   getitem a (py "type")) l ;;
               Ok l) with
        | Raise _ => None
        | Ok l =>
            match seed E access_token l ∅ w1 with
            | (Raise _, _) => None
            | (Ok ids, w2) =>
                Some (monitor_loop E access_token accounts n
                        {| initial_transaction_ids := ids;
                           local_api := api;
                           attempts := [] |} w2)
            end
        end
  end.

(* ===================================================================== *)
(** * Notions used to state the properties *)
(* ===================================================================== *)

(** [sub] occurs in [s]. *)
Definition embeds (sub s : pystr) : Prop :=
  exists pre post, s = pre ++ sub ++ post.

Fixpoint starts_with (p s : pystr) : bool :=
  match p, s with
  | [], _ => true
  | a :: p', b :: s' => (a =? b)%N && starts_with p' s'
  | _ :: _, [] => false
  end.

Fixpoint embedsb (sub s : pystr) : bool :=
  starts_with sub s
  || match s with
     | [] => false
     | _ :: s' => embedsb sub s'
     end.

(** The message of the [HTTPError] that [raise_for_status] raises for a
    status in 400..599, as [requests] composes it: the status code, the
    kind of error, the reason phrase and the URL.  The body of the response
    is no part of it. *)
Definition http_error_message (status : Z) (reason_ url_ : pystr) : pystr :=
  str_of_int status
  ++ (if status <? 500 then py " Client Error: " else py " Server Error: ")
  ++ reason_ ++ py " for url: " ++ url_.

(** The amount field of the posting made for a source record: [main]
    computes the amount, [post_transaction] turns it into minor units. *)
Definition submitted_amount (t : pyval) : result Z :=
  amount <- source_amount t ;;
  PyFloat.to_int (PyFloat.mul (flip_sign amount) PyFloat.f100).

(** A transaction record whose [merchant] is absent, [null] or an object,
    the merchant's [name] being absent, [null] or a string. *)
Definition typed_merchant (t : list (pystr * pyval)) : bool :=
  match dict_get t (py "merchant") with
  | None | Some PNone => true
  | Some (PDict m) =>
      match dict_get m (py "name") with
      | None | Some PNone | Some (PStr _) => true
      | Some _ => false
      end
  | Some _ => false
  end.

(** The name of the record's merchant, when it has a merchant with a
    non-empty name. *)
Definition merchant_name_of (t : list (pystr * pyval)) : option pystr :=
  match dict_get t (py "merchant") with
  | Some (PDict m) =>
      match dict_get m (py "name") with
      | Some (PStr (c :: s)) => Some (c :: s)
      | _ => None
      end
  | _ => None
  end.

(** The precedence rule in the words of the specification: the merchant's
    name; else the description, when one is present ([null] is no
    description, as it is no merchant and no merchant name); else the
    literal [Unknown]. *)
Definition name_by_precedence (t : list (pystr * pyval)) : pyval :=
  match merchant_name_of t with
  | Some s => PStr s
  | None =>
      match dict_get t (py "description") with
      | None | Some PNone => PStr (py "Unknown")
      | Some d => d
      end
  end.

(** The records on which the code leaves that rule: no merchant name, and
    a [description] entry that is [null]. *)
Definition null_description (t : list (pystr * pyval)) : bool :=
  match merchant_name_of t, dict_get t (py "description") with
  | None, Some PNone => true
  | _, _ => false
  end.

Definition with_microsecond (d : datetime) (us : Z) : datetime :=
  {| year := year d; month := month d; day := day d;
     hour := hour d; minute := minute d; second := second d;
     microsecond := us |}.

(** The error conditions of a fetch: the request fails, the status is one
    that [raise_for_status] raises for, the body is not JSON or not an
    object, its [transactions] cannot be iterated, or one of them has no
    [created] entry. *)
Inductive fetch_error : http_outcome -> Prop :=
| request_failed msg : fetch_error (NoResponse msg)
| error_status r :
    400 <= status_code r < 600 -> fetch_error (Responded r)
| body_not_json r :
    resp_json r = None -> fetch_error (Responded r)
| body_not_object r v :
    resp_json r = Some v -> (forall d, v <> PDict d) -> fetch_error (Responded r)
| transactions_not_iterable r d v :
    resp_json r = Some (PDict d) ->
    dict_get d (py "transactions") = Some v ->
    iter_values v = Raise TypeError ->
    fetch_error (Responded r)
| item_without_created r d v l x :
    resp_json r = Some (PDict d) ->
    dict_get d (py "transactions") = Some v ->
    iter_values v = Ok l ->
    In x l ->
    (forall k, getitem x (py "created") <> Ok k) ->
    fetch_error (Responded r).

(** The creation timestamp of a record, when it is a string. *)
Definition created_text (t : pyval) : option pystr :=
  match getitem t (py "created") with
  | Ok (PStr s) => Some s
  | _ => None
  end.

(** [x] may stand before [y] in the order [sorted] produces: the key of
    [x] is not smaller than the key of [y]. *)
Definition created_desc (x y : pyval) : Prop :=
  exists kx ky,
    getitem x (py "created") = Ok kx
    /\ getitem y (py "created") = Ok ky
    /\ key_ltb kx ky = false.

(** The same on the pairs of key and item that [sort_desc] works on. *)
Definition keys_desc (x y : pyval * pyval) : Prop :=
  key_ltb (fst x) (fst y) = false.




(** The transactions posted to the backend among some requests, and their
    number. *)
Definition is_post (req : request) : bool :=
  match req with TransactionPost _ _ _ _ => true | _ => false end.

Definition posts (l : list request) : nat := length (List.filter is_post l).



(** The id under which the monitor knows a record. *)
Definition external_id (t : pyval) : result hkey :=
  v <- getitem t (py "id") ;; hashable v.

(** A code point that a string of a configuration may hold: any code point
    of Unicode except the high surrogates (which a Python [str] read from
    the console or from JSON never holds on their own). *)
Definition valid_char (c : N) : bool :=
  (c <? 1114112)%N && negb ((55296 <=? c)%N && (c <=? 56319)%N).

Definition valid_str (s : pystr) : bool := forallb valid_char s.

(** A value of a configuration: a string or [None]. *)
Definition config_value (v : pyval) : bool :=
  match v with
  | PNone => true
  | PStr s => valid_str s
  | _ => false
  end.

(** The items of a configuration blob: a dict whose keys are pairwise
    distinct strings and whose values are strings or [None]. *)
Fixpoint config_items (d : list (pystr * pyval)) : bool :=
  match d with
  | [] => true
  | (k, v) :: d' =>
      valid_str k && config_value v
      && forallb (fun kv => negb (pystr_eqb (fst kv) k)) d'
      && config_items d'
  end.

(** The text [json.dumps] writes between the braces of a dict. *)
Fixpoint dumps_items (d : list (pystr * pyval)) : pystr :=
  match d with
  | [] => []
  | (k, x) :: d' =>
      Json.encode_basestring_ascii k ++ 58%N :: 32%N :: Json.dumps x
        ++ match d' with [] => [] | _ => 44%N :: 32%N :: dumps_items d' end
  end.

(** Auxiliary definitions of the codec proofs. *)
Module CodecAux.
Local Open Scope N_scope.

(** The sextets cut from two neighbouring octets [x] and [y], and the
    facts about them that are checked by enumeration. *)
Definition second (x y : N) : N := N.lor (N.shiftl (N.land x 3) 4) (N.shiftr y 4).
Definition third (x y : N) : N := N.lor (N.shiftl (N.land x 15) 2) (N.shiftr y 6).

Definition octet_pair_ok (x y : N) : bool :=
  (N.shiftr x 2 <? 64) && (second x y <? 64) && (third x y <? 64)
  && (N.land x 63 <? 64)
  && (N.lor (N.shiftl (N.shiftr x 2) 2) (N.shiftr (second x y) 4) =? x)
  && (N.land (second x y) 15 =? N.shiftr y 4)
  && (N.shiftr (third x y) 2 =? N.land x 15)
  && (N.lor (N.shiftl (N.shiftr x 4) 4) (N.land x 15) =? x)
  && (N.land (third x y) 3 =? N.shiftr y 6)
  && (N.lor (N.shiftl (N.shiftr x 6) 6) (N.land x 63) =? x).

(** The text of the items of a dict after the opening quote of the first
    key. *)
Definition after_quote (k : pystr) (x : pyval) (d : list (pystr * pyval)) : pystr :=
  flat_map Json.escape_char k ++ 34 :: 58 :: 32 :: Json.dumps x
    ++ match d with [] => [] | _ => 44 :: 32 :: dumps_items d end.

End CodecAux.

(** The instant that a creation timestamp [YYYY-MM-DDThh:mm:ss.fZ] with one
    to six fraction digits stands for (the form [main] parses), as one
    integer that grows with time: the fields in order of significance, the
    fraction counted in microseconds.  [None] for another form. *)
Fixpoint digits_value (s : pystr) (acc : Z) : option Z :=
  match s with
  | [] => Some acc
  | c :: s' =>
      if ((48 <=? c) && (c <=? 57))%N
      then digits_value s' (10 * acc + Z.of_N (c - 48))
      else None
  end.

Definition fraction_microseconds (digits : pystr) : option Z :=
  if ((1 <=? length digits) && (length digits <=? 6))%nat
  then digits_value (digits ++ repeat 48%N (6 - length digits)) 0
  else None.

Definition instant_of (created : pystr) : option Z :=
  match created with
  | y1 :: y2 :: y3 :: y4 :: d1 :: m1 :: m2 :: d2 :: a1 :: a2 :: t
      :: h1 :: h2 :: c1 :: n1 :: n2 :: c2 :: s1 :: s2 :: dot :: rest =>
      if forallb (fun p => (fst p =? snd p)%N)
           [(d1, 45%N); (d2, 45%N); (t, 84%N); (c1, 58%N); (c2, 58%N); (dot, 46%N)]
      then
        match digits_value [y1; y2; y3; y4; m1; m2; a1; a2; h1; h2; n1; n2; s1; s2] 0,
              rev rest with
        | Some seconds, z :: fraction =>
            if (z =? 90)%N then
              match fraction_microseconds (rev fraction) with
              | Some us => Some (seconds * 1000000 + us)
              | None => None
              end
            else None
        | _, _ => None
        end
      else None
  | _ => None
  end.

(** ** Concrete worlds and servers for the examples *)

Module Fixtures.

Definition world0 : world :=
  {| keyring := ∅; sent := []; stdout := [];
     LOCAL_BANK_ACCOUNT_ID := PStr (py "bac_01HXYZ") |}.

Definition reply (status : Z) (reason_ text_ : pystr) (body : option pyval)
  : response :=
  {| status_code := status; reason := reason_;
     url := py "http://localhost:4000/api"; text := text_;
     resp_json := body; cookies := [(py "M-Token", py "abc")] |}.

(** A server that gives the same answer to every request. *)
Definition always (o : http_outcome) : environment :=
  {| net := fun _ _ => o;
     strptime := fun _ => Raise ValueError;
     since_now := fun _ => py "2024-01-01T09:00:00.000000Z";
     expiry_in_range := fun _ => true |}.

Definition monetr_config : pyval :=
  PDict [(py "monetr_url", PStr (py "http://localhost:4000"));
         (py "monetr_email", PStr (py "me@example.org"));
         (py "monetr_password", PStr (py "hunter2"));
         (py "bank_account_id", PStr (py "bac_01HXYZ"))].

Definition fresh_client : LocalAPIClient :=
  {| auth_cookie := None; client_config := monetr_config |}.

Definition noon : datetime :=
  {| year := 2024; month := 1; day := 1; hour := 12; minute := 30; second := 5;
     microsecond := 123456 |}.

Definition tx (id created : string) : pyval :=
  PDict [(py "id", PStr (py id)); (py "amount", PInt (-500));
         (py "created", PStr (py created))].

(** Two transactions created ten milliseconds apart. *)
Definition tx_older : pyval := tx "tx_older" "2024-01-01T10:00:00.5Z".
Definition tx_newer : pyval := tx "tx_newer" "2024-01-01T10:00:00.51Z".

Definition transactions_body (l : list pyval) : option pyval :=
  Some (PDict [(py "transactions", PList l)]).

(** The backend refusing the credentials, and the backend answering a
    login with 204 No Content. *)
Definition refused : environment :=
  always (Responded (reply 401 (py "Unauthorized") (py "invalid credentials") None)).
Definition no_content : environment :=
  always (Responded (reply 204 (py "No Content") (py "") None)).

(** The scenario of the specification: [tx1] is there when the monitor
    starts, [tx2] appears afterwards; the backend rejects the first post
    it receives and accepts the later ones. *)
Definition tx1 : pyval :=
  PDict [(py "id", PStr (py "tx1")); (py "amount", PInt (-500));
         (py "merchant", PDict [(py "name", PStr (py "Cafe"))]);
         (py "created", PStr (py "2024-01-01T10:00:00.000Z"));
         (py "settled", PBool true)].
Definition tx2 : pyval :=
  PDict [(py "id", PStr (py "tx2")); (py "amount", PInt 1200);
         (py "description", PStr (py "Refund"));
         (py "created", PStr (py "2024-01-01T10:05:00.000Z"));
         (py "settled", PBool false)].

Definition is_fetch (req : request) : bool :=
  match req with TransactionsRequest _ _ _ => true | _ => false end.

Definition scenario : environment :=
  {| net := fun history req =>
       match req with
       | AccountsRequest _ =>
           Responded (reply 200 (py "OK") (py "")
                        (Some (PDict [(py "accounts",
                                       PList [PDict [(py "id", PStr (py "acc_1"));
                                                     (py "type", PStr (py "us_partner"));
                                                     (py "description", PStr (py "Current"))]])])))
       | TransactionsRequest _ _ _ =>
           Responded (reply 200 (py "OK") (py "")
                        (transactions_body
                           (if existsb is_fetch history then [tx2; tx1] else [tx1])))
       | TransactionPost _ _ _ _ =>
           if existsb is_post history
           then Responded (reply 200 (py "OK") (py "{}") None)
           else Responded (reply 500 (py "Internal Server Error") (py "oops") None)
       | _ => Responded (reply 200 (py "OK") (py "{}") None)
       end;
     strptime := fun _ => Ok noon;
     since_now := fun _ => py "2024-01-01T09:00:00.000000Z";
     expiry_in_range := fun _ => true |}.

Definition posted_bodies (w : world) : list pyval :=
  flat_map (fun req => match req with
                       | TransactionPost _ _ body _ => [body]
                       | _ => []
                       end) (sent w).


(** A banking configuration as [setup_monzo_config] builds it, with a
    secret that holds a quote, a backslash, an accented letter and an
    emoji. *)
Definition monzo_config : list (pystr * pyval) :=
  [(py "client_id", PStr (py "oauth2client_0000"));
   (py "client_secret", PStr ([34%N; 92%N; 233%N; 128512%N] ++ py "s3cret"));
   (py "access_token", PNone);
   (py "refresh_token", PNone)].

(** A keyring that holds that configuration and a fresh authorization
    code. *)
Definition stored_config : pystr :=
  match encrypt_config (PDict monzo_config) with
  | Ok e => e
  | Raise _ => []
  end.

Definition authorizing : world :=
  {| keyring := <[(MONZO_SERVICE, py "auth_code") := py "code-123"]>
                  (<[(MONZO_SERVICE, py "config") := stored_config]> ∅);
     sent := []; stdout := [];
     LOCAL_BANK_ACCOUNT_ID := PNone |}.

(** The token endpoint granting a pair of tokens. *)
Definition token_server : environment :=
  always (Responded
            (reply 200 (py "OK") (py "")
               (Some (PDict [(py "access_token", PStr (py "access-1"));
                             (py "refresh_token", PStr (py "refresh-1"));
                             (py "expires_in", PInt 21600)])))).

End Fixtures.


(* ===================================================================== *)
(** * The rest of the program: callback, token refresh, console setup *)
(* ===================================================================== *)

(** ** String methods *)

(** [s.split(sep)] for a separator of one character: the pieces between
    the occurrences of [sep], one piece at least. *)
Fixpoint split (sep : N) (s : pystr) : list pystr :=
  match s with
  | [] => [[]]
  | c :: s' =>
      if (c =? sep)%N then [] :: split sep s'
      else
        match split sep s' with
        | piece :: pieces => (c :: piece) :: pieces
        | [] => [[c]]
        end
  end.

(** [c.isspace()]: the white space of Unicode. *)
Definition isspace (c : N) : bool :=
  ((9 <=? c) && (c <=? 13) || (28 <=? c) && (c <=? 32)
   || (c =? 133) || (c =? 160) || (c =? 5760)
   || (8192 <=? c) && (c <=? 8202)
   || (c =? 8232) || (c =? 8233) || (c =? 8239) || (c =? 8287) || (c =? 12288))%N.

Fixpoint lstrip (s : pystr) : pystr :=
  match s with
  | c :: s' => if isspace c then lstrip s' else s
  | [] => []
  end.

(** [s.strip()] *)
Definition strip (s : pystr) : pystr := rev (lstrip (rev (lstrip s))).

Fixpoint lstrip_char (ch : N) (s : pystr) : pystr :=
  match s with
  | c :: s' => if (c =? ch)%N then lstrip_char ch s' else s
  | [] => []
  end.

(** [s.rstrip(ch)] for one character [ch]. *)
Definition rstrip_char (ch : N) (s : pystr) : pystr :=
  rev (lstrip_char ch (rev s)).

(** [s.lower()].  On a string of ASCII characters it maps [A-Z] to [a-z];
    the case mapping of the other characters is data of the interpreter's
    character database and is taken as the function [unicode_lower]. *)
Definition ascii_lower (c : N) : N :=
  if ((65 <=? c) && (c <=? 90))%N then (c + 32)%N else c.

Definition lower (unicode_lower : pystr -> pystr) (s : pystr) : pystr :=
  if forallb (fun c => (c <? 128)%N) s then map ascii_lower s else unicode_lower s.

(** ** The callback handler: [AuthHandler.do_GET] *)

(** The exceptions that the [try] block of [do_GET] can raise, and their
    [str]: [IndexError] when the path has no [?], the [ValueError] of
    [dict()] for the first parameter (number [i]) that [split('=')] does not
    cut into two pieces but into [n], and [KeyError] when no parameter is
    named [code]. *)
Inductive callback_exn :=
| IndexError
| DictUpdateError (i n : nat)
| CodeKeyError.

Definition callback_exn_str (e : callback_exn) : pystr :=
  match e with
  | IndexError => py "list index out of range"
  | DictUpdateError i n =>
      py "dictionary update sequence element #" ++ str_of_int (Z.of_nat i)
        ++ py " has length " ++ str_of_int (Z.of_nat n) ++ py "; 2 is required"
  | CodeKeyError => py "'code'"
  end.

(** [dict(pairs)]: every element must have two items; a repeated key keeps
    its place and takes the later value. *)
Fixpoint dict_of_pairs (i : nat) (pairs : list (list pystr))
  (acc : list (pystr * pyval)) : callback_exn + list (pystr * pyval) :=
  match pairs with
  | [] => inr acc
  | [k; v] :: pairs' => dict_of_pairs (S i) pairs' (dict_set acc k (PStr v))
  | pieces :: _ => inl (DictUpdateError i (length pieces))
  end.

(** [dict(qc.split('=') for qc in self.path.split('?')[1].split('&'))] *)
Definition query_components (path : pystr)
  : callback_exn + list (pystr * pyval) :=
  match split 63 path with
  | _ :: query :: _ => dict_of_pairs 0 (map (split 61) (split 38 query)) []
  | _ => inl IndexError
  end.

(** The first two statements of the [try] block: the value of [code]. *)
Definition callback_code (path : pystr) : callback_exn + pystr :=
  match query_components path with
  | inl e => inl e
  | inr d =>
      match dict_get d (py "code") with
      | Some (PStr auth_code) => inr auth_code
      | _ => inl CodeKeyError
      end
  end.

(** What the handler does to the connection. *)
Inductive handler_call :=
| send_response (code : Z)
| send_header (keyword value : pystr)
| end_headers
| wfile_write (data : pybytes).

Definition dq : pystr := [34%N].

Definition success_message : pystr :=
  nl
  ++ py "            <html>"
  ++ nl
  ++ py "            <body style="
  ++ dq
  ++ py "font-family: Arial, sans-serif; max-width: 600px; margin: 40px auto; text-align: center;"
  ++ dq
  ++ py ">"
  ++ nl
  ++ py "                <h2 style="
  ++ dq
  ++ py "color: #2ecc71;"
  ++ dq
  ++ py ">"
  ++ [10003%N]
  ++ py " Authorization Successful!</h2>"
  ++ nl
  ++ py "                <p>You can now close this window and return to the application.</p>"
  ++ nl
  ++ py "            </body>"
  ++ nl
  ++ py "            </html>"
  ++ nl
  ++ py "            ".

(** The error page is an f-string: the text before [{str(e)}], the
    message of the exception, the text after. *)
Definition error_message_head : pystr :=
  nl
  ++ py "            <html>"
  ++ nl
  ++ py "            <body style="
  ++ dq
  ++ py "font-family: Arial, sans-serif; max-width: 600px; margin: 40px auto; text-align: center;"
  ++ dq
  ++ py ">"
  ++ nl
  ++ py "                <h2 style="
  ++ dq
  ++ py "color: #e74c3c;"
  ++ dq
  ++ py ">"
  ++ [10007%N]
  ++ py " Authorization Failed</h2>"
  ++ nl
  ++ py "                <p>Error: ".

Definition error_message_tail : pystr :=
  py "</p>"
  ++ nl
  ++ py "                <p>Please close this window and try again.</p>"
  ++ nl
  ++ py "            </body>"
  ++ nl
  ++ py "            </html>"
  ++ nl
  ++ py "            ".

Definition error_message (e : callback_exn) : pystr :=
  error_message_head ++ callback_exn_str e ++ error_message_tail.

(** [message.encode()] for the two pages: they hold no surrogate, so the
    encoding cannot fail (see [pages_encode]). *)
Definition encoded (message : pystr) : pybytes :=
  match Utf8.encode message with
  | Ok data => data
  | Raise _ => []
  end.

(** [AuthHandler.do_GET]: the code of the query is stored in the keyring
    and the success page is sent with status 200; any exception gives the
    error page with status 400. *)
Definition do_GET (path : pystr) (w : world) : list handler_call * world :=
  match callback_code path with
  | inr auth_code =>
      ([send_response 200;
        send_header (py "Content-type") (py "text/html");
        end_headers;
        wfile_write (encoded success_message)],
       set_keyring (fun k => <[(MONZO_SERVICE, py "auth_code") := auth_code]> k) w)
  | inl e =>
      ([send_response 400;
        send_header (py "Content-type") (py "text/html");
        end_headers;
        wfile_write (encoded (error_message e))],
       w)
  end.

(** ** The token calls that read the module's [CLIENT_ID], [CLIENT_SECRET] *)

(** The two globals are set by [main] before these functions run; they are
    arguments here. *)
Definition get_access_token (E : environment) (CLIENT_ID CLIENT_SECRET : pyval)
  (auth_code : pyval) (w : world) : result pyval * world :=
  exchange_auth_code E auth_code CLIENT_ID CLIENT_SECRET w.

(** [refresh_access_token]: the status of the answer is not looked at. *)
Definition refresh_access_token (E : environment) (CLIENT_ID CLIENT_SECRET : pyval)
  (refresh_token : pyval) (w : world) : result pyval * world :=
  let data := [(py "grant_type", PStr (py "refresh_token"));
               (py "client_id", CLIENT_ID);
               (py "client_secret", CLIENT_SECRET);
               (py "refresh_token", refresh_token)] in
  match send E (TokenRequest data) w with
  | (Raise e, w1) => (Raise e, w1)
  | (Ok r, w1) =>
      match (tokens <- json_of r ;;
             expires_in <- getitem tokens (py "expires_in") ;;
             seconds <- as_int expires_in ;;
             _ <- (if expiry_in_range E seconds then Ok tt else Raise OverflowError) ;;
             access_token <- getitem tokens (py "access_token") ;;
             new_refresh_token <- getitem tokens (py "refresh_token") ;;
             Ok (access_token, new_refresh_token)) with
      | Raise e => (Raise e, w1)
      | Ok (access_token, new_refresh_token) =>
          match save_tokens access_token new_refresh_token w1 with
          | (Raise e, w2) => (Raise e, w2)
          | (Ok _, w2) => (Ok access_token, w2)
          end
      end
  end.

(** ** The console *)

(** The functions below talk to the user.  The console is the list of the
    lines still to be typed: [input()] and [getpass()] take the first one,
    and raise [EOFError] when there is none.  What these functions print
    themselves is not recorded. *)
Inductive interaction (A : Type) :=
| Done (a : A)
| Failed (e : exn)
| EndOfInput.
Arguments Done {A} a.
Arguments Failed {A} e.
Arguments EndOfInput {A}.

Definition set_bank_account_id (v : pyval) (w : world) : world :=
  {| keyring := keyring w; sent := sent w; stdout := stdout w;
     LOCAL_BANK_ACCOUNT_ID := v |}.

(** [existing_config.get(key, default) if existing_config else default] *)
Definition default_of (existing_config : pyval) (key : pystr) (default : pyval)
  : result pyval :=
  if truthy existing_config then get_method existing_config key default
  else Ok default.

(** [x = input(...).strip(); x = x if x else default] *)
Definition typed_or (line : pystr) (default : pyval) : pyval :=
  match strip line with
  | [] => default
  | c :: s => PStr (c :: s)
  end.

(** [url.rstrip('/')] and [bank_id.startswith('bac_')]: methods of [str]
    only. *)
Definition rstrip_slash (v : pyval) : result pyval :=
  match v with
  | PStr s => Ok (PStr (rstrip_char 47 s))
  | _ => Raise AttributeError
  end.

Definition startswith_bac (v : pyval) : result bool :=
  match v with
  | PStr s => Ok (starts_with (py "bac_") s)
  | _ => Raise AttributeError
  end.

Section Console.

Variable unicode_lower : pystr -> pystr.

(** [input(...).lower().strip() == 'yes'] and the like. *)
Definition answer (line : pystr) : pystr := strip (lower unicode_lower line).

Definition answers (word : string) (line : pystr) : bool :=
  pystr_eqb (answer line) (py word).

(** [setup_monzo_config]: the tokens of the new configuration are [None]. *)
Definition setup_monzo_config (stdin : list pystr) (w : world)
  : interaction pyval * list pystr * world :=
  match default_of (load_monzo_config w) (py "client_id") (PStr []) with
  | Raise e => (Failed e, stdin, w)
  | Ok default_client_id =>
      match stdin with
      | [] => (EndOfInput, [], w)
      | [_] => (EndOfInput, [], w)
      | id_line :: secret_line :: stdin' =>
          let config :=
            PDict [(py "client_id", typed_or id_line default_client_id);
                   (py "client_secret", PStr (strip secret_line));
                   (py "access_token", PNone);
                   (py "refresh_token", PNone)] in
          match save_monzo_config config w with
          | (Ok _, w') => (Done config, stdin', w')
          | (Raise e, w') => (Failed e, stdin', w')
          end
      end
  end.

(** One pass through the body of [setup_monetr_config]: it ends with the
    function's result, or at one of the three places where the function
    calls itself to start over. *)
Inductive setup_pass :=
| Finished (r : interaction pyval)
| StartOver.

Definition verify_and_save (E : environment) (config bank_id : pyval)
  (stdin : list pystr) (w : world) : setup_pass * list pystr * world :=
  let w1 := set_bank_account_id bank_id w in
  let test_client := {| auth_cookie := None; client_config := config |} in
  let '(r, _, w2) := login E test_client w1 in
  let '(r', w3) :=
    match r with
    | Ok _ => save_monetr_config config w2
    | Raise e => (Raise e, w2)
    end in
  match r' with
  | Ok _ => (Finished (Done config), stdin, w3)
  | Raise _ =>
      match stdin with
      | [] => (Finished EndOfInput, [], w3)
      | retry :: stdin' =>
          if answers "yes" retry then (StartOver, stdin', w3)
          else (Finished (Done PNone), stdin', w3)
      end
  end.

Definition setup_monetr_config_pass (E : environment) (stdin : list pystr)
  (w : world) : setup_pass * list pystr * world :=
  let existing_config := load_monetr_config w in
  match default_of existing_config (py "monetr_url")
          (PStr (py "http://localhost:4000")) with
  | Raise e => (Finished (Failed e), stdin, w)
  | Ok default_url =>
  match stdin with
  | [] => (Finished EndOfInput, [], w)
  | url_line :: stdin1 =>
  match rstrip_slash (typed_or url_line default_url) with
  | Raise e => (Finished (Failed e), stdin1, w)
  | Ok url =>
  match default_of existing_config (py "monetr_email") (PStr []) with
  | Raise e => (Finished (Failed e), stdin1, w)
  | Ok default_email =>
  match stdin1 with
  | [] => (Finished EndOfInput, [], w)
  | email_line :: stdin2 =>
  let email := typed_or email_line default_email in
  match stdin2 with
  | [] => (Finished EndOfInput, [], w)
  | password_line :: stdin3 =>
  let password := PStr (strip password_line) in
  match default_of existing_config (py "bank_account_id") (PStr []) with
  | Raise e => (Finished (Failed e), stdin3, w)
  | Ok default_bank_id =>
  match stdin3 with
  | [] => (Finished EndOfInput, [], w)
  | bank_line :: stdin4 =>
  let bank_id := typed_or bank_line default_bank_id in
  let config :=
    PDict [(py "monetr_url", url);
           (py "monetr_email", email);
           (py "monetr_password", password);
           (py "bank_account_id", bank_id)] in
  match startswith_bac bank_id with
  | Raise e => (Finished (Failed e), stdin4, w)
  | Ok true => verify_and_save E config bank_id stdin4 w
  | Ok false =>
      match stdin4 with
      | [] => (Finished EndOfInput, [], w)
      | continue :: stdin5 =>
          if answers "yes" continue
          then verify_and_save E config bank_id stdin5 w
          else (StartOver, stdin5, w)
      end
  end end end end end end end end end.

(** [setup_monetr_config]: passes until one finishes.  A pass that starts
    over has read a line, so [passes] need not exceed the number of lines
    left (see [setup_monetr_config] below, which starts with one more). *)
Fixpoint setup_monetr_config_passes (passes : nat) (E : environment)
  (stdin : list pystr) (w : world) : interaction pyval * list pystr * world :=
  match passes with
  | O => (EndOfInput, [], w)
  | S passes' =>
      match setup_monetr_config_pass E stdin w with
      | (Finished r, stdin', w') => (r, stdin', w')
      | (StartOver, stdin', w') => setup_monetr_config_passes passes' E stdin' w'
      end
  end.

Definition setup_monetr_config (E : environment) (stdin : list pystr) (w : world)
  : interaction pyval * list pystr * world :=
  setup_monetr_config_passes (S (length stdin)) E stdin w.

(** [LocalAPIClient(config)]: the configuration given, else the stored
    one, else the one that [setup_monetr_config] returns.  The bank account
    id is set here in the last case only. *)
Definition new_client (E : environment) (config : pyval) (stdin : list pystr)
  (w : world) : interaction LocalAPIClient * list pystr * world :=
  let config1 := if truthy config then config else load_monetr_config w in
  if truthy config1
  then (Done {| auth_cookie := None; client_config := config1 |}, stdin, w)
  else
    match setup_monetr_config E stdin w with
    | (Done config2, stdin', w') =>
        if truthy config2 then
          match getitem config2 (py "bank_account_id") with
          | Ok bank_id =>
              (Done {| auth_cookie := None; client_config := config2 |}, stdin',
               set_bank_account_id bank_id w')
          | Raise e => (Failed e, stdin', w')
          end
        else
          (Failed (Exception_ (py "Monetr configuration is required")), stdin', w')
    | (Failed e, stdin', w') => (Failed e, stdin', w')
    | (EndOfInput, stdin', w') => (EndOfInput, stdin', w')
    end.

(** [wait_for_app_approval]: one answer per turn of its loop. *)
Fixpoint wait_for_app_approval (E : environment) (access_token : pyval)
  (stdin : list pystr) (w : world) : interaction bool * list pystr * world :=
  match stdin with
  | [] => (EndOfInput, [], w)
  | line :: stdin' =>
      if answers "yes" line then
        match get_accounts E access_token w with
        | (Ok _, w1) => (Done true, stdin', w1)
        | (Raise _, w1) => wait_for_app_approval E access_token stdin' w1
        end
      else if answers "no" line then wait_for_app_approval E access_token stdin' w
      else if answers "exit" line then (Done false, stdin', w)
      else wait_for_app_approval E access_token stdin' w
  end.

(** ** [main] *)

(** How a run of [main] stands after [n] turns of the monitoring loop: it
    has returned, an exception or [EOFError] has left it, or it is still
    monitoring. *)
Inductive main_outcome :=
| Returned
| Uncaught (e : exn)
| UncaughtEOFError
| Monitoring (m : monitor).

(** Step 4, as [transaction_monitor] but keeping the world when the step
    ends before the loop. *)
Definition start_monitor (E : environment) (access_token : pyval)
  (api : LocalAPIClient) (n : nat) (w : world) : main_outcome * world :=
  match get_accounts E access_token w with
  | (Raise _, w1) => (Returned, w1)
  | (Ok accounts, w1) =>
      if negb (truthy accounts) then (Returned, w1)
      else
        match (l <- iter_values accounts ;;
               _ <- mapM (fun a => _ <- getitem a (py "description") ;;
                                   getitem a (py "type")) l ;;
               Ok l) with
        | Raise _ => (Returned, w1)
        | Ok l =>
            match seed E access_token l ∅ w1 with
            | (Raise _, w2) => (Returned, w2)
            | (Ok ids, w2) =>
                let '(m, w3) :=
                  monitor_loop E access_token accounts n
                    {| initial_transaction_ids := ids;
                       local_api := api;
                       attempts := [] |} w2 in
                (Monitoring m, w3)
            end
        end
  end.

(** Step 3: the authorization, entered when no access token is stored.
    [callback_path] is the path of the one request that the callback
    server handles. *)
Definition authorize (E : environment) (CLIENT_ID CLIENT_SECRET : pyval)
  (callback_path : pystr) (stdin : list pystr) (w : world)
  : interaction (option pyval) * list pystr * world :=
  match stdin with
  | [] => (EndOfInput, [], w)
  | _ :: stdin1 =>
      let '(_, w1) := do_GET callback_path w in
      let auth_code := get_auth_code w1 in
      match get_access_token E CLIENT_ID CLIENT_SECRET auth_code w1 with
      | (Raise _, w2) => (Done None, stdin1, w2)
      | (Ok access_token, w2) =>
          match wait_for_app_approval E access_token stdin1 w2 with
          | (Done true, stdin2, w3) => (Done (Some access_token), stdin2, w3)
          | (_, stdin2, w3) => (Done None, stdin2, w3)
          end
      end
  end.

Definition main (E : environment) (callback_path : pystr) (n : nat)
  (stdin : list pystr) (w : world) : main_outcome * list pystr * world :=
  match new_client E PNone stdin w with
  | (Failed _, stdin1, w1) | (EndOfInput, stdin1, w1) => (Returned, stdin1, w1)
  | (Done local_api_, stdin1, w1) =>
      let loaded := load_monzo_config w1 in
      match (if truthy loaded then (Done loaded, stdin1, w1)
             else setup_monzo_config stdin1 w1) with
      | (Failed e, stdin2, w2) => (Uncaught e, stdin2, w2)
      | (EndOfInput, stdin2, w2) => (UncaughtEOFError, stdin2, w2)
      | (Done monzo_config, stdin2, w2) =>
          if negb (truthy monzo_config) then (Returned, stdin2, w2)
          else
            match (CLIENT_ID <- getitem monzo_config (py "client_id") ;;
                   CLIENT_SECRET <- getitem monzo_config (py "client_secret") ;;
                   access_token <- load_saved_tokens w2 ;;
                   Ok (CLIENT_ID, CLIENT_SECRET, access_token)) with
            | Raise e => (Uncaught e, stdin2, w2)
            | Ok (CLIENT_ID, CLIENT_SECRET, access_token) =>
                if truthy access_token then
                  let '(o, w3) := start_monitor E access_token local_api_ n w2 in
                  (o, stdin2, w3)
                else
                  match authorize E CLIENT_ID CLIENT_SECRET callback_path stdin2 w2 with
                  | (EndOfInput, stdin3, w3) => (UncaughtEOFError, stdin3, w3)
                  | (Failed e, stdin3, w3) => (Uncaught e, stdin3, w3)
                  | (Done None, stdin3, w3) => (Returned, stdin3, w3)
                  | (Done (Some access_token'), stdin3, w3) =>
                      let '(o, w4) :=
                        start_monitor E access_token' local_api_ n w3 in
                      (o, stdin3, w4)
                  end
            end
      end
  end.

End Console.

(* ===================================================================== *)
(** * Notions used to state the further properties *)
(* ===================================================================== *)

(** A piece of a URL that holds none of the separators [?], [&] and [=]. *)
Definition plain (s : pystr) : bool :=
  forallb (fun c => negb ((c =? 63) || (c =? 38) || (c =? 61))%N) s.

(** The query string [k1=v1&k2=v2&...] of some parameters. *)
Fixpoint query_string (params : list (pystr * pystr)) : pystr :=
  match params with
  | [] => []
  | (k, v) :: params' =>
      k ++ 61%N :: v
        ++ match params' with [] => [] | _ => 38%N :: query_string params' end
  end.

(** The value of the last parameter named [k]. *)
Fixpoint last_value (k : pystr) (params : list (pystr * pystr)) : option pystr :=
  match params with
  | [] => None
  | (k', v) :: params' =>
      match last_value k params' with
      | Some v' => Some v'
      | None => if pystr_eqb k' k then Some v else None
      end
  end.

Definition plain_params (params : list (pystr * pystr)) : bool :=
  forallb (fun kv => plain (fst kv) && plain (snd kv)) params.

(** The calls that send a page with a status. *)
Definition page (status : Z) (message : pystr) : list handler_call :=
  [send_response status;
   send_header (py "Content-type") (py "text/html");
   end_headers;
   wfile_write (encoded message)].

(** A callback path that the handler refuses: it has no query, or one of
    the parameters of its query is not of the form [key=value] with one
    [=] sign. *)
Inductive malformed_callback : pystr -> Prop :=
| no_query path :
    forallb (fun c => negb (c =? 63)%N) path = true ->
    malformed_callback path
| odd_parameter route query p :
    forallb (fun c => negb (c =? 63)%N) route = true ->
    forallb (fun c => negb (c =? 63)%N) query = true ->
    In p (split 38 query) ->
    count_occ N.eq_dec p 61%N <> 1%nat ->
    malformed_callback (route ++ 63%N :: query).

(** A callback that the handler refuses, whatever the reason: the answer
    it sends starts with the status 400.  That is so for a path without a
    query, for a query with a parameter that is not of the form
    [key=value], and for a query without a [code]. *)
Definition refused_callback (path : pystr) (w : world) : Prop :=
  exists calls, fst (do_GET path w) = send_response 400 :: calls.

(** An answer of the token endpoint that grants a pair of tokens: a JSON
    object with [access_token], [refresh_token] and a number of seconds
    [expires_in] that gives a representable date. *)
Definition grants (E : environment) (r : response) (access_token refresh_token : pyval)
  : Prop :=
  exists tokens seconds,
    resp_json r = Some (PDict tokens)
    /\ dict_get tokens (py "expires_in") = Some (PInt seconds)
    /\ expiry_in_range E seconds = true
    /\ dict_get tokens (py "access_token") = Some access_token
    /\ dict_get tokens (py "refresh_token") = Some refresh_token.

(** The form data of the two grants. *)
Definition authorization_code_grant (client_id client_secret auth_code : pyval)
  : request :=
  TokenRequest [(py "grant_type", PStr (py "authorization_code"));
                (py "client_id", client_id);
                (py "client_secret", client_secret);
                (py "redirect_uri", PStr REDIRECT_URI);
                (py "code", auth_code)].

Definition refresh_token_grant (client_id client_secret refresh_token : pyval)
  : request :=
  TokenRequest [(py "grant_type", PStr (py "refresh_token"));
                (py "client_id", client_id);
                (py "client_secret", client_secret);
                (py "refresh_token", refresh_token)].

(** The Monetr configuration that [setup_monetr_config] builds. *)
Definition monetr_configuration (url email password bank_id : pyval) : pyval :=
  PDict [(py "monetr_url", url);
         (py "monetr_email", email);
         (py "monetr_password", password);
         (py "bank_account_id", bank_id)].

(** What is true of a world [w'] in which [setup_monetr_config], started
    in [w], has stored a configuration: its URL is a string that does not
    end in a slash; it is what the keyring holds, in its encoded form; the
    bank account id of the module is the one of the configuration; and the
    last request sent is a login with its credentials, which the backend
    did not answer with an error status. *)
Definition verified_and_saved (E : environment) (w w' : world) (config : pyval)
  : Prop :=
  exists url email password bank_id encrypted_data pre r,
    config = monetr_configuration (PStr url) email password bank_id
    /\ (forall p, url <> p ++ [47%N])
    /\ encrypt_config config = Ok encrypted_data
    /\ keyring w' = <[(MONETR_SERVICE, py "config") := encrypted_data]> (keyring w)
    /\ LOCAL_BANK_ACCOUNT_ID w' = bank_id
    /\ sent w' = pre ++ [LoginRequest (PStr url) email password]
    /\ net E pre (LoginRequest (PStr url) email password) = Responded r
    /\ raise_for_status r = Ok tt.

(** The outcome of the setup: a configuration that is verified and saved,
    or nothing saved at all. *)
Definition setup_outcome (E : environment) (w : world)
  (o : interaction pyval) (w' : world) : Prop :=
  match o with
  | Done PNone | Failed _ | EndOfInput => keyring w' = keyring w
  | Done config => verified_and_saved E w w' config
  end.

(** The requests sent between two worlds all satisfy [P]. *)
Definition sends (P : request -> Prop) (w w' : world) : Prop :=
  exists extra, sent w' = sent w ++ extra /\ Forall P extra.

(** The requests of the monitoring: logins and postings to the backend,
    the postings under the bank account id [bank], and the two reading
    calls of the banking API; no call of the token endpoint. *)
Definition monitor_request (bank : pyval) (req : request) : Prop :=
  match req with
  | TransactionPost _ bank_account_id body _ =>
      bank_account_id = bank /\ getitem body (py "bankAccountId") = Ok bank
  | TokenRequest _ => False
  | _ => True
  end.

(** A stretch of the monitoring leaves the keyring and the bank account id
    as they are and sends requests of the monitoring only. *)
Definition monitoring_step (w w' : world) : Prop :=
  keyring w' = keyring w
  /\ LOCAL_BANK_ACCOUNT_ID w' = LOCAL_BANK_ACCOUNT_ID w
  /\ sends (monitor_request (LOCAL_BANK_ACCOUNT_ID w)) w w'.


(** The requests of a run of [main]: logins, the reading calls of the
    banking API, calls of the token endpoint that exchange an
    authorization code, and postings whose [bankAccountId] field is the
    bank account id of their URL, which is [bank] if that is given. *)
Definition main_request (bank : option pyval) (req : request) : Prop :=
  match req with
  | TransactionPost _ bank_account_id body _ =>
      getitem body (py "bankAccountId") = Ok bank_account_id
      /\ match bank with
         | Some id => bank_account_id = id
         | None => True
         end
  | TokenRequest _ =>
      exists client_id client_secret auth_code,
        req = authorization_code_grant client_id client_secret auth_code
  | _ => True
  end.

Definition is_login (req : request) : Prop :=
  match req with LoginRequest _ _ _ => True | _ => False end.

(** What [main] prepares for a new transaction before it posts it: the
    amount, the display name, the creation time and the pending flag. *)
Definition prepared (E : environment) (t : pyval)
  : result (PyFloat.float * pyval * datetime * bool) :=
  amount <- source_amount t ;;
  merchant_name <- display_name t ;;
  time <- transaction_time E t ;;
  settled <- get_method t (py "settled") (PBool false) ;;
  Ok (amount, merchant_name, time, negb (truthy settled)).

(** An account of another type than [us_partner]. *)
Definition other_type (account : pyval) : Prop :=
  exists ty, getitem account (py "type") = Ok ty /\ is_us_partner ty = false.

(** The transactions of a list whose creation timestamp is the text [s]. *)
Definition created_at (s : pystr) (l : list pyval) : list pyval :=
  List.filter (fun x => bool_decide (created_text x = Some s)) l.

(** The same on the pairs of key and item that [sort_desc] works on. *)
Definition key_is (s : pystr) (kx : pyval * pyval) : bool :=
  match fst kx with
  | PStr k => bool_decide (k = s)
  | _ => false
  end.

(** ** Further worlds and servers for the examples *)

Module Cases.

(** A token endpoint that answers with the given status and reason and a
    body that grants a pair of tokens. *)
Definition granting (status : Z) (reason_ : pystr) : environment :=
  Fixtures.always
    (Responded
       (Fixtures.reply status reason_ (py "")
          (Some (PDict [(py "access_token", PStr (py "access-2"));
                        (py "refresh_token", PStr (py "refresh-2"));
                        (py "expires_in", PInt 21600)])))).

(** The module as it is when the program starts, with nothing stored. *)
Definition started : world :=
  {| keyring := ∅; sent := []; stdout := []; LOCAL_BANK_ACCOUNT_ID := PNone |}.

(** A keyring that holds both configurations and an access token, in a
    module that has just been loaded. *)
Definition monzo_tokens : pyval :=
  PDict [(py "client_id", PStr (py "oauth2client_0000"));
         (py "client_secret", PStr (py "s3cret"));
         (py "access_token", PStr (py "access-1"));
         (py "refresh_token", PStr (py "refresh-1"))].

Definition ready : world :=
  snd (save_monzo_config monzo_tokens
         (snd (save_monetr_config Fixtures.monetr_config started))).

Definition posted_to (w : world) : list (pyval * result pyval) :=
  flat_map (fun req => match req with
                       | TransactionPost _ bank_account_id body _ =>
                           [(bank_account_id, getitem body (py "bankAccountId"))]
                       | _ => []
                       end) (sent w).

End Cases.

(** A value that [json.dumps] writes and [json.loads] reads back as it
    was: its strings hold valid code points, its integers have at most
    4300 decimal digits (beyond that the conversion between [int] and [str]
    raises [ValueError]) and the keys of each of its dicts are pairwise
    distinct, at every depth. *)
Fixpoint json_value (v : pyval) : bool :=
  match v with
  | PNone | PBool _ => true
  | PInt z => Z.abs z <? 10 ^ 4300
  | PStr s => valid_str s
  | PList l => forallb json_value l
  | PDict d =>
      (fix items (d : list (pystr * pyval)) : bool :=
         match d with
         | [] => true
         | (k, x) :: d' =>
             valid_str k && json_value x
             && forallb (fun kv => negb (pystr_eqb (fst kv) k)) d'
             && items d'
         end) d
  end.

(** How deep the lists and dicts of a value are nested.  The encoder and
    the decoder of [json] recurse once per level and raise [RecursionError]
    at the recursion limit of the interpreter (1000 frames by default). *)
Fixpoint nesting (v : pyval) : nat :=
  match v with
  | PList l => S (list_max (map nesting l))
  | PDict d => S (list_max (map (fun '(_, x) => nesting x) d))
  | _ => 0
  end.

(** The condition of [json_value] on the items of a dict. *)
Fixpoint json_items (d : list (pystr * pyval)) : bool :=
  match d with
  | [] => true
  | (k, x) :: d' =>
      valid_str k && json_value x
      && forallb (fun kv => negb (pystr_eqb (fst kv) k)) d'
      && json_items d'
  end.

(** The text [json.dumps] writes between the brackets of a list. *)
Fixpoint dumps_elements (l : list pyval) : pystr :=
  match l with
  | [] => []
  | x :: l' =>
      Json.dumps x ++ match l' with [] => [] | _ => 44%N :: 32%N :: dumps_elements l' end
  end.

(** The first character of a JSON value. *)
Definition value_start (c : N) : bool :=
  ((c =? 110) || (c =? 116) || (c =? 102) || (c =? 45) || (c =? 34)
   || (c =? 91) || (c =? 123) || Json.is_digit c)%N.

(** A text that ends a number in front of it: it is empty or starts with a
    character that is no digit, no point and no exponent mark. *)
Definition delimited (rest : pystr) : bool :=
  match rest with
  | [] => true
  | c :: _ => negb (Json.is_digit c || (c =? 46) || (c =? 101) || (c =? 69))%N
  end.
(* ===================================================================== *)
(** * Properties *)
(* ===================================================================== *)

(** ** The posting: date and amount fields *)

Lemma sent_print line w : sent (print line w) = sent w.
Proof. reflexivity. Qed.

Lemma LOCAL_BANK_ACCOUNT_ID_print line w :
  LOCAL_BANK_ACCOUNT_ID (print line w) = LOCAL_BANK_ACCOUNT_ID w.
Proof. reflexivity. Qed.

Lemma send_sent E req w : sent (snd (send E req w)) = sent w ++ [req].
Proof. unfold send. destruct (net E (sent w) req); reflexivity. Qed.

Lemma send_LOCAL_BANK_ACCOUNT_ID E req w :
  LOCAL_BANK_ACCOUNT_ID (snd (send E req w)) = LOCAL_BANK_ACCOUNT_ID w.
Proof. unfold send. destruct (net E (sent w) req); reflexivity. Qed.

(** [login] sends nothing, or exactly one login request; it leaves the
    bank account id alone. *)
Lemma login_sent E self w :
  LOCAL_BANK_ACCOUNT_ID (snd (login E self w)) = LOCAL_BANK_ACCOUNT_ID w
  /\ (sent (snd (login E self w)) = sent w
      \/ exists u e p, sent (snd (login E self w)) = sent w ++ [LoginRequest u e p]).
Proof.
  unfold login.
  destruct (getitem (client_config self) (py "monetr_url")) as [u|];
    [|cbn [snd]; auto].
  destruct (getitem (client_config self) (py "monetr_email")) as [e|];
    cbn [rbind]; [|cbn [snd]; auto].
  destruct (getitem (client_config self) (py "monetr_password")) as [p|];
    cbn [rbind]; [|cbn [snd]; auto].
  pose proof (send_sent E (LoginRequest u e p)
                (print (nl ++ py "Attempting login to Monetr...") w)) as Hs.
  pose proof (send_LOCAL_BANK_ACCOUNT_ID E (LoginRequest u e p)
                (print (nl ++ py "Attempting login to Monetr...") w)) as Hl.
  destruct (send E (LoginRequest u e p) _) as [[r|x] w2];
    cbn [snd] in Hs, Hl; rewrite sent_print in Hs;
    rewrite LOCAL_BANK_ACCOUNT_ID_print in Hl.
  - destruct (status_code r =? 200);
      [cbn [snd]; rewrite sent_print, LOCAL_BANK_ACCOUNT_ID_print; eauto 6|].
    destruct (raise_for_status r); cbn [snd];
      rewrite !sent_print, !LOCAL_BANK_ACCOUNT_ID_print; eauto 6.
  - cbn [snd]. rewrite sent_print, LOCAL_BANK_ACCOUNT_ID_print. eauto 6.
Qed.

(** What [post_transaction] sends: possibly a login request, then possibly
    the transaction, whose body is the [transaction_data] of its
    arguments. *)
Lemma post_transaction_sent E self amount name date is_pending w :
  exists extra,
    sent (snd (post_transaction E self amount name date is_pending w))
    = sent w ++ extra
    /\ forall u b body c,
        In (TransactionPost u b body c) extra ->
        transaction_data b amount name date is_pending = Ok body.
Proof.
  unfold post_transaction.
  assert (exists r0 self1 w1,
             (if no_auth_cookie self then login E self w else (Ok tt, self, w))
             = (r0, self1, w1)
             /\ LOCAL_BANK_ACCOUNT_ID w1 = LOCAL_BANK_ACCOUNT_ID w
             /\ exists pre, sent w1 = sent w ++ pre
                            /\ forall u b body c, ~ In (TransactionPost u b body c) pre)
    as (r0 & self1 & w1 & -> & Hl & pre & Hpre & Hno).
  { destruct (no_auth_cookie self).
    - destruct (login E self w) as [[r0 self1] w1] eqn:Hlogin.
      exists r0, self1, w1. split; [reflexivity|].
      pose proof (login_sent E self w) as [Hl Hs]. rewrite Hlogin in Hl, Hs.
      cbn [snd] in Hl, Hs. split; [exact Hl|].
      destruct Hs as [Hs|(u & e & p & Hs)].
      + exists []. rewrite app_nil_r. split; [exact Hs|]. intros ? ? ? ? [].
      + exists [LoginRequest u e p]. split; [exact Hs|].
        intros ? ? ? ? [H|[]]. discriminate H.
    - exists (Ok tt), self, w. repeat split.
      exists []. rewrite app_nil_r. split; [reflexivity|]. intros ? ? ? ? []. }
  assert (sent w1 = sent w ++ pre ++ []
          /\ forall u b body c,
              In (TransactionPost u b body c) (pre ++ []) ->
              transaction_data b amount name date is_pending = Ok body) as Hnone.
  { rewrite app_nil_r. split; [exact Hpre|].
    intros u b body c Hin. destruct (Hno _ _ _ _ Hin). }
  destruct r0 as [[]|e]; [|exists (pre ++ []); exact Hnone].
  destruct (transaction_data (LOCAL_BANK_ACCOUNT_ID w1) amount name date is_pending)
    as [body|e] eqn:Hbody; [|exists (pre ++ []); exact Hnone].
  destruct (getitem (client_config self1) (py "monetr_url")) as [u|e];
    [|exists (pre ++ []); exact Hnone].
  pose proof (send_sent E (TransactionPost u (LOCAL_BANK_ACCOUNT_ID w1) body
                             (auth_cookie self1)) w1) as Hs.
  exists (pre ++ [TransactionPost u (LOCAL_BANK_ACCOUNT_ID w1) body (auth_cookie self1)]).
  assert (forall u0 b0 body0 c0,
             In (TransactionPost u0 b0 body0 c0)
                (pre ++ [TransactionPost u (LOCAL_BANK_ACCOUNT_ID w1) body
                           (auth_cookie self1)]) ->
             transaction_data b0 amount name date is_pending = Ok body0) as Hin.
  { intros u0 b0 body0 c0 Hin. apply in_app_or in Hin as [Hin|[Heq|[]]].
    - destruct (Hno _ _ _ _ Hin).
    - injection Heq as <- <- <- <-. exact Hbody. }
  destruct (send E _ w1) as [[r|x] w2]; cbn [snd] in Hs;
    rewrite Hpre, <- app_assoc in Hs.
  - destruct (status_code r =? 200); [cbn [snd]; auto|].
    destruct (raise_for_status r); cbn [snd]; rewrite !sent_print; auto.
  - cbn [snd]. rewrite sent_print. auto.
Qed.

Lemma transaction_data_date b amount name date is_pending body :
  transaction_data b amount name date is_pending = Ok body ->
  getitem body (py "date") = Ok (PStr (strftime date)).
Proof.
  unfold transaction_data.
  destruct (PyFloat.to_int _); cbn [rbind]; [|discriminate].
  intros [= <-]. reflexivity.
Qed.

Lemma transaction_data_name b amount name date is_pending body :
  transaction_data b amount name date is_pending = Ok body ->
  getitem body (py "name") = Ok name
  /\ getitem body (py "merchantName") = Ok name
  /\ getitem body (py "isPending") = Ok (PBool is_pending).
Proof.
  unfold transaction_data.
  destruct (PyFloat.to_int _); cbn [rbind]; [|discriminate].
  intros [= <-]. repeat split.
Qed.

Lemma strftime_with_microsecond date us :
  strftime (with_microsecond date us) = strftime date.
Proof. reflexivity. Qed.

Lemma strftime_suffix date : exists prefix, strftime date = prefix ++ py ".000Z".
Proof.
  unfold strftime. eexists. rewrite !app_assoc. reflexivity.
Qed.

(** C10. Every transaction that [post_transaction] sends to the backend
    carries a [date] field that ends in [.000Z] and does not depend on the
    microseconds of the creation time it was given. *)
Theorem posted_date_drops_fraction E self amount name date is_pending w u b body c :
  In (TransactionPost u b body c)
     (sent (snd (post_transaction E self amount name date is_pending w))) ->
  ~ In (TransactionPost u b body c) (sent w) ->
  getitem body (py "date") = Ok (PStr (strftime date))
  /\ (exists prefix, strftime date = prefix ++ py ".000Z")
  /\ forall us, strftime (with_microsecond date us) = strftime date.
Proof.
  intros Hin Hnew.
  destruct (post_transaction_sent E self amount name date is_pending w)
    as (extra & Hs & Hbody).
  rewrite Hs in Hin. apply in_app_or in Hin as [Hin|Hin]; [contradiction|].
  split; [|split].
  - eapply transaction_data_date, Hbody, Hin.
  - apply strftime_suffix.
  - intros us. apply strftime_with_microsecond.
Qed.

Lemma posted_date_drops_fraction_witness :
  let E := Fixtures.always (Responded (Fixtures.reply 200 (py "OK") (py "{}") None)) in
  let amount := SpecFloat.S754_finite false 6946802425218990 (-49) in
  let body :=
    PDict [(py "bankAccountId", PStr (py "bac_01HXYZ"));
           (py "amount", PInt (-1234));
           (py "name", PStr (py "Cafe"));
           (py "merchantName", PStr (py "Cafe"));
           (py "date", PStr (py "2024-01-01T12:30:05.000Z"));
           (py "isPending", PBool false);
           (py "spendingId", PNone);
           (py "adjustsBalance", PBool true)] in
  getitem body (py "date") = Ok (PStr (strftime Fixtures.noon))
  /\ (exists prefix, strftime Fixtures.noon = prefix ++ py ".000Z")
  /\ forall us, strftime (with_microsecond Fixtures.noon us) = strftime Fixtures.noon.
Proof.
  intros E amount body.
  apply (posted_date_drops_fraction E Fixtures.fresh_client amount
           (PStr (py "Cafe")) Fixtures.noon false Fixtures.world0
           (PStr (py "http://localhost:4000")) (PStr (py "bac_01HXYZ")) body
           (Some [(py "M-Token", py "abc")])).
  - vm_compute. right. left. reflexivity.
  - intros [].
Defined.

(** ** The display name *)

Lemma display_name_typed (t : list (pystr * pyval)) :
  typed_merchant t = true -> display_name (PDict t)
  = Ok (if null_description t then PNone else name_by_precedence t).
Proof.
  unfold typed_merchant, display_name, null_description, name_by_precedence,
    merchant_name_of.
  cbn [get_method rbind].
  assert (match dict_get t (py "description") with
          | Some x => x
          | None => PStr (py "Unknown")
          end
          = if match dict_get t (py "description") with
               | Some PNone => true
               | _ => false
               end
            then PNone
            else match dict_get t (py "description") with
                 | None | Some PNone => PStr (py "Unknown")
                 | Some d => d
                 end) as Hd.
  { destruct (dict_get t (py "description")) as [[| | | | |]|]; reflexivity. }
  destruct (dict_get t (py "merchant")) as [[| | | | |m]|] eqn:Hm;
    try discriminate; intros Hty; cbn [truthy rbind]; try (rewrite Hd; reflexivity).
  destruct m as [|kv m']; [cbn [dict_get]; rewrite Hd; reflexivity|].
  cbn [get_method rbind getitem].
  destruct (dict_get (kv :: m') (py "name")) as [[| | |s| |]|] eqn:Hn;
    try discriminate; cbn [truthy rbind]; try (rewrite Hd; reflexivity).
  destruct s; [rewrite Hd; reflexivity|reflexivity].
Qed.

(** What [process_transaction] sends: the requests of one call of
    [post_transaction], made with the name that [display_name] gives. *)
Lemma process_transaction_sent E t m w :
  exists extra,
    sent (snd (process_transaction E t m w)) = sent w ++ extra
    /\ forall u b body c,
        In (TransactionPost u b body c) extra ->
        exists amount name date is_pending,
          display_name t = Ok name
          /\ transaction_data b amount name date is_pending = Ok body.
Proof.
  assert (exists extra : list request,
             sent w = sent w ++ extra
             /\ forall u b body c,
                 In (TransactionPost u b body c) extra ->
                 exists amount name date is_pending,
                   display_name t = Ok name
                   /\ transaction_data b amount name date is_pending = Ok body)
    as Hnone.
  { exists []. rewrite app_nil_r. split; [reflexivity|]. intros ? ? ? ? []. }
  unfold process_transaction.
  destruct (_ <- getitem t (py "id") ;; _) as [id|e]; [|exact Hnone].
  destruct (bool_decide _); [exact Hnone|].
  destruct (source_amount t) as [amount|e]; cbn [rbind]; [|exact Hnone].
  destruct (display_name t) as [name|e] eqn:Hname; cbn [rbind]; [|exact Hnone].
  destruct (transaction_time E t) as [time|e]; cbn [rbind]; [|exact Hnone].
  destruct (get_method t (py "settled") (PBool false)) as [settled|e];
    cbn [rbind]; [|exact Hnone].
  destruct (post_transaction_sent E (local_api m) amount name time
              (negb (truthy settled)) w) as (extra & Hs & Hbody).
  destruct (post_transaction E (local_api m) amount name time
              (negb (truthy settled)) w) as [[[[]|e] api] w1];
    cbn [snd] in Hs |- *; exists extra; (split; [exact Hs|]);
    intros u b body c Hin; exists amount, name, time, (negb (truthy settled));
    (split; [reflexivity|exact (Hbody u b body c Hin)]).
Qed.

(** The one way [display_name] fails on a record: its [merchant] is
    neither an object nor a false value (such as [null]). *)
Lemma display_name_raises t e :
  display_name (PDict t) = Raise e ->
  exists m, dict_get t (py "merchant") = Some m
            /\ truthy m = true /\ forall d, m <> PDict d.
Proof.
  unfold display_name. cbn [get_method rbind].
  destruct (dict_get t (py "merchant")) as [m|]; [|discriminate].
  destruct (truthy m) eqn:Hm; [|discriminate].
  destruct m as [| | | | |d]; cbn [get_method rbind];
    try (intros _; eexists; repeat split; [exact Hm|discriminate]).
  unfold getitem.
  destruct (dict_get d (py "name")) as [name|]; cbn [truthy]; [|discriminate].
  destruct (truthy name); discriminate.
Qed.

(** C5, as amended. For a record whose merchant is absent, [null] or an
    object with an absent, [null] or string name, the name that the monitor
    resolves, and that every posting it makes for the record carries as
    [name] and as [merchantName], follows the precedence of the
    specification (the merchant's name when the record has a merchant with
    a non-empty name, otherwise the record's description, otherwise the
    literal [Unknown]), except that a [description] entry that is [null]
    is sent as it is: the name is then [None], not [Unknown]. *)
Theorem display_name_precedence E (t : list (pystr * pyval)) m w :
  typed_merchant t = true ->
  display_name (PDict t)
  = Ok (if null_description t then PNone else name_by_precedence t)
  /\ exists extra,
      sent (snd (process_transaction E (PDict t) m w)) = sent w ++ extra
      /\ forall u b body c,
          In (TransactionPost u b body c) extra ->
          getitem body (py "name")
          = Ok (if null_description t then PNone else name_by_precedence t)
          /\ getitem body (py "merchantName")
             = Ok (if null_description t then PNone else name_by_precedence t).
Proof.
  intros Hty. pose proof (display_name_typed t Hty) as Hname.
  split; [exact Hname|].
  destruct (process_transaction_sent E (PDict t) m w) as (extra & Hs & Hbody).
  exists extra. split; [exact Hs|].
  intros u b body c Hin.
  destruct (Hbody u b body c Hin) as (amount & name & date & is_pending & Hn & Hdata).
  rewrite Hname in Hn. injection Hn as <-.
  destruct (transaction_data_name _ _ _ _ _ _ Hdata) as (H1 & H2 & _). auto.
Qed.

Lemma display_name_precedence_witness :
  display_name
    (PDict [(py "id", PStr (py "tx1"));
            (py "merchant", PDict [(py "name", PStr (py "Cafe"))]);
            (py "description", PStr (py "CAFE LONDON"))])
  = Ok (PStr (py "Cafe"))
  /\ display_name
       (PDict [(py "id", PStr (py "tx2")); (py "merchant", PNone);
               (py "description", PStr (py "Refund"))])
     = Ok (PStr (py "Refund"))
  /\ display_name (PDict [(py "id", PStr (py "tx3"))]) = Ok (PStr (py "Unknown"))
  /\ (let m := {| initial_transaction_ids := ∅; local_api := Fixtures.fresh_client;
                  attempts := [] |} in
      let w' := snd (process_transaction Fixtures.scenario Fixtures.tx2 m
                       Fixtures.world0) in
      posts (sent w') = 1%nat
      /\ exists extra,
          sent w' = sent Fixtures.world0 ++ extra
          /\ forall u b body c,
              In (TransactionPost u b body c) extra ->
              getitem body (py "name") = Ok (PStr (py "Refund"))
              /\ getitem body (py "merchantName") = Ok (PStr (py "Refund"))).
Proof.
  pose (m := {| initial_transaction_ids := ∅; local_api := Fixtures.fresh_client;
                attempts := [] |}).
  split; [|split; [|split]].
  - apply (display_name_precedence Fixtures.scenario
             [(py "id", PStr (py "tx1"));
              (py "merchant", PDict [(py "name", PStr (py "Cafe"))]);
              (py "description", PStr (py "CAFE LONDON"))] m Fixtures.world0).
    reflexivity.
  - apply (display_name_precedence Fixtures.scenario
             [(py "id", PStr (py "tx2")); (py "merchant", PNone);
              (py "description", PStr (py "Refund"))] m Fixtures.world0).
    reflexivity.
  - apply (display_name_precedence Fixtures.scenario [(py "id", PStr (py "tx3"))] m
             Fixtures.world0).
    reflexivity.
  - cbv zeta. split; [vm_compute; reflexivity|].
    exact (proj2 (display_name_precedence Fixtures.scenario
                    [(py "id", PStr (py "tx2")); (py "amount", PInt 1200);
                     (py "description", PStr (py "Refund"));
                     (py "created", PStr (py "2024-01-01T10:05:00.000Z"));
                     (py "settled", PBool false)] m Fixtures.world0 eq_refl)).
Defined.

(** Against the claim as stated: a record without a merchant whose
    description is [null] has no description, so the name of the claim is
    [Unknown]; the monitor resolves the name [None] and posts it. *)
Lemma display_name_counterexample :
  let d := [(py "id", PStr (py "tx9")); (py "amount", PInt (-500));
            (py "description", PNone);
            (py "created", PStr (py "2024-01-01T10:05:00.000Z"))] in
  let m := {| initial_transaction_ids := ∅; local_api := Fixtures.fresh_client;
              attempts := [] |} in
  name_by_precedence d = PStr (py "Unknown")
  /\ display_name (PDict d) = Ok PNone
  /\ map (fun body => getitem body (py "name"))
         (Fixtures.posted_bodies
            (snd (process_transaction Fixtures.scenario (PDict d) m Fixtures.world0)))
     = [Ok PNone].
Proof. vm_compute. repeat split. Qed.

(** ** The amount field *)

Lemma transaction_data_amount t b amount name date is_pending body :
  source_amount t = Ok amount ->
  transaction_data b amount name date is_pending = Ok body ->
  exists cents, submitted_amount t = Ok cents
                /\ getitem body (py "amount") = Ok (PInt cents).
Proof.
  unfold submitted_amount, transaction_data. intros ->. cbn [rbind].
  destruct (PyFloat.to_int _) as [cents|]; cbn [rbind]; [|discriminate].
  intros [= <-]. exists cents. split; reflexivity.
Qed.

(** The records with an amount of 0 to 199 minor units whose posting is
    not the exact negation. *)
Lemma submitted_amount_below_200 :
  List.filter (fun n => match submitted_amount (PDict [(py "amount", PInt n)]) with
                   | Ok c => negb (c =? - n)
                   | Raise _ => true
                   end)
         (map Z.of_nat (seq 0 200))
  = [29; 57; 58; 113; 114; 115; 116].
Proof. vm_compute. reflexivity. Qed.

(** C1. The amount field is meant to be the exact negation of the
    record's minor units, and it is for 1234 (a posting of -1234); but a
    record of 29 minor units is posted as -28, and one of -29 as 28: the
    product [0.29 * 100] is just below 29 in binary64 and [int] truncates
    it.  The last part runs the monitor's loop body on such a record and
    reads the amount off the request it sends. *)
Theorem submitted_amount_truncates :
  submitted_amount (PDict [(py "amount", PInt 1234)]) = Ok (-1234)
  /\ submitted_amount (PDict [(py "amount", PInt 29)]) = Ok (-28)
  /\ submitted_amount (PDict [(py "amount", PInt (-29))]) = Ok 28
  /\ map (fun body => getitem body (py "amount"))
       (Fixtures.posted_bodies
          (snd (process_transaction Fixtures.scenario
                  (PDict [(py "id", PStr (py "tx29")); (py "amount", PInt 29);
                          (py "description", PStr (py "Coffee"));
                          (py "created", PStr (py "2024-01-01T10:05:00.000Z"))])
                  {| initial_transaction_ids := ∅;
                     local_api := Fixtures.fresh_client;
                     attempts := [] |}
                  Fixtures.world0)))
     = [Ok (PInt (-28))].
Proof. vm_compute. repeat split. Qed.

(** ** Listing accounts *)

(** Whatever the status code, a response whose body is a JSON object makes
    [get_accounts] return. *)
Lemma get_accounts_any_status E access_token w r d :
  net E (sent w) (AccountsRequest access_token) = Responded r ->
  resp_json r = Some (PDict d) ->
  exists accounts, fst (get_accounts E access_token w) = Ok accounts.
Proof.
  intros Hnet Hjson. unfold get_accounts, send, json_of.
  rewrite Hnet, Hjson. cbn [fst rbind get_method]. eauto.
Qed.

(** C2. [get_accounts] does not look at the status code: on a 401 answer
    with a JSON error body it returns the empty list instead of failing. *)
Theorem get_accounts_returns_on_401 :
  fst (get_accounts
         (Fixtures.always
            (Responded
               (Fixtures.reply 401 (py "Unauthorized") (py "unauthorized")
                  (Some (PDict [(py "code", PStr (py "unauthorized.bad_access_token"))])))))
         (PStr (py "expired-token")) Fixtures.world0)
  = Ok (PList []).
Proof. reflexivity. Qed.

(** ** Listing transactions *)

Lemma raise_for_status_error r :
  400 <= status_code r < 600 -> exists e, raise_for_status r = Raise e.
Proof.
  intros [Hlo Hhi]. unfold raise_for_status.
  destruct (Z.ltb_spec (status_code r) 500).
  - replace (400 <=? status_code r) with true by (symmetry; apply Z.leb_le; lia).
    cbn [andb]. eauto.
  - replace (400 <=? status_code r) with true by (symmetry; apply Z.leb_le; lia).
    replace (500 <=? status_code r) with true by (symmetry; apply Z.leb_le; lia).
    replace (status_code r <? 600) with true by (symmetry; apply Z.ltb_lt; lia).
    cbn [andb]. eauto.
Qed.

Lemma raise_for_status_ok r :
  ~ 400 <= status_code r < 600 -> raise_for_status r = Ok tt.
Proof.
  intros Hout. unfold raise_for_status.
  destruct (Z.leb_spec 400 (status_code r)), (Z.ltb_spec (status_code r) 500),
    (Z.leb_spec 500 (status_code r)), (Z.ltb_spec (status_code r) 600);
    cbn [andb]; try reflexivity; lia.
Qed.

Lemma mapM_raise {A B} (f : A -> result B) l x :
  In x l -> (forall y, f x <> Ok y) -> exists e, mapM f l = Raise e.
Proof.
  induction l as [|a l IH]; intros Hin Hx; [destruct Hin|].
  cbn [mapM]. destruct Hin as [->|Hin].
  - destruct (f x) as [y|e]; [destruct (Hx y); reflexivity|]. cbn [rbind]. eauto.
  - destruct (f a) as [y|e]; cbn [rbind]; [|eauto].
    destruct (IH Hin Hx) as [e ->]. cbn [rbind]. eauto.
Qed.

Lemma read_transactions_error r :
  fetch_error (Responded r) -> exists e, read_transactions r = Raise e.
Proof.
  intros H. unfold read_transactions.
  destruct (Z_le_dec 400 (status_code r)) as [Hlo|Hlo];
    [destruct (Z_lt_dec (status_code r) 600) as [Hhi|Hhi]|];
    try (destruct (raise_for_status_error r) as [e ->]; [lia|]; cbn [rbind]; eauto; fail).
  all: rewrite raise_for_status_ok by lia; cbn [rbind].
  all: inversion H as [|? Hs|? Hj|? v Hj Hv|? d v Hj Hd Hi|? d v l x Hj Hd Hi Hin Hx];
    subst; try lia; unfold json_of; rewrite Hj; cbn [rbind]; eauto.
  all: try (destruct v; cbn [get_method]; eauto; destruct (Hv d); reflexivity).
  all: cbn [get_method]; rewrite Hd; cbn [rbind]; unfold sorted_by_created;
    rewrite Hi; cbn [rbind]; eauto.
  all: destruct (mapM_raise (fun x => k <- getitem x (py "created") ;; Ok (k, x)) l x Hin)
    as [e ->]; cbn [rbind]; eauto.
  all: intros [k y]; destruct (getitem x (py "created")) as [k'|] eqn:Hk;
    cbn [rbind]; [destruct (Hx k'); reflexivity|discriminate].
Qed.

(** C6, as amended. [get_transactions] has no way to raise: it returns a
    list; and on every error condition of the fetch (the request fails, the
    status is in 400..599, the body is not a JSON object, the transactions
    cannot be iterated or lack a [created] entry) that list is empty. *)
Theorem get_transactions_swallows_errors E account_id access_token quiet w :
  fetch_error (net E (sent w)
                 (TransactionsRequest account_id access_token (since_now E (sent w)))) ->
  fst (get_transactions E account_id access_token quiet w) = [].
Proof.
  intros H. unfold get_transactions, send.
  destruct (net E (sent w) _) as [r|msg]; [|reflexivity].
  destruct (read_transactions_error r H) as [e ->]. reflexivity.
Qed.

Lemma get_transactions_swallows_errors_witness :
  fst (get_transactions
         (Fixtures.always
            (Responded (Fixtures.reply 503 (py "Service Unavailable") (py "") None)))
         (PStr (py "acc_01")) (PStr (py "token")) true Fixtures.world0) = [].
Proof.
  apply get_transactions_swallows_errors.
  apply error_status. cbn. lia.
Defined.

(** Against the claim as stated: 300 is a status outside 200..299 that
    [raise_for_status] lets through, and the transactions of the body are
    returned. *)
Lemma get_transactions_counterexample :
  let r := Fixtures.reply 300 (py "Multiple Choices") (py "")
             (Fixtures.transactions_body [Fixtures.tx_older]) in
  ~ 200 <= status_code r < 300
  /\ fst (get_transactions (Fixtures.always (Responded r))
            (PStr (py "acc_01")) (PStr (py "token")) true Fixtures.world0)
     = [Fixtures.tx_older].
Proof. split; [cbn; lia|reflexivity]. Qed.

(** ** The order of the transactions returned *)

Lemma pystr_ltb_asym a : forall b, pystr_ltb a b = true -> pystr_ltb b a = false.
Proof.
  induction a as [|x a IH]; intros [|y b]; cbn [pystr_ltb]; try easy.
  destruct (N.ltb_spec x y), (N.ltb_spec y x); try easy; try lia.
  apply IH.
Qed.

Lemma key_ltb_asym a b : key_ltb a b = true -> key_ltb b a = false.
Proof.
  destruct a, b; cbn [key_ltb as_int]; try easy;
    try (intros H; apply Z.ltb_lt in H; apply Z.ltb_ge; lia).
  apply pystr_ltb_asym.
Qed.

Lemma insert_desc_head x l y :
  keys_desc y x -> HdRel keys_desc y l -> HdRel keys_desc y (insert_desc x l).
Proof.
  intros Hyx Hyl. destruct l as [|z l]; cbn [insert_desc].
  - constructor. exact Hyx.
  - destruct (key_ltb (fst x) (fst z)).
    + constructor. inversion Hyl. assumption.
    + constructor. exact Hyx.
Qed.

Lemma insert_desc_sorted x l :
  Sorted keys_desc l -> Sorted keys_desc (insert_desc x l).
Proof.
  induction 1 as [|y l Hs IH Hhd]; cbn [insert_desc].
  - repeat constructor.
  - destruct (key_ltb (fst x) (fst y)) eqn:Hxy.
    + constructor; [exact IH|].
      apply insert_desc_head; [|exact Hhd].
      apply key_ltb_asym. exact Hxy.
    + constructor; [constructor; assumption|]. constructor. exact Hxy.
Qed.

Lemma sort_desc_sorted l : Sorted keys_desc (sort_desc l).
Proof.
  induction l as [|x l IH]; cbn [sort_desc foldr]; [constructor|].
  apply insert_desc_sorted, IH.
Qed.

Lemma insert_desc_perm x l : Permutation (insert_desc x l) (x :: l).
Proof.
  induction l as [|y l IH]; cbn [insert_desc]; [reflexivity|].
  destruct (key_ltb (fst x) (fst y)); [|reflexivity].
  rewrite IH. apply perm_swap.
Qed.

Lemma sort_desc_perm l : Permutation (sort_desc l) l.
Proof.
  induction l as [|x l IH]; cbn [sort_desc foldr]; [reflexivity|].
  rewrite insert_desc_perm. constructor. exact IH.
Qed.

Lemma mapM_keyed items : forall keyed,
  mapM (fun x => k <- getitem x (py "created") ;; Ok (k, x)) items = Ok keyed ->
  map snd keyed = items
  /\ Forall (fun p => getitem (snd p) (py "created") = Ok (fst p)) keyed.
Proof.
  induction items as [|x items IH]; cbn [mapM]; intros keyed.
  - intros [= <-]. split; constructor.
  - destruct (getitem x (py "created")) as [k|] eqn:Hk; cbn [rbind]; [|discriminate].
    destruct (mapM _ items) as [ks|]; cbn [rbind]; [|discriminate].
    intros [= <-]. destruct (IH ks eq_refl) as [Hm Hf].
    split; [cbn [map snd]; rewrite Hm; reflexivity|].
    constructor; [exact Hk|exact Hf].
Qed.

Lemma sorted_map_snd keyed :
  Forall (fun p => getitem (snd p) (py "created") = Ok (fst p)) keyed ->
  Sorted keys_desc keyed -> Sorted created_desc (map snd keyed).
Proof.
  intros Hf Hs. induction Hs as [|p l Hs IH Hhd]; cbn [map]; [constructor|].
  inversion Hf as [|? ? Hp Hl]; subst.
  constructor; [apply IH, Hl|].
  destruct Hhd as [|q l Hpq]; cbn [map]; constructor.
  inversion Hl as [|? ? Hq _]; subst.
  exists (fst p), (fst q). auto.
Qed.

(** What the code guarantees about the order: the list returned is a
    rearrangement of the fetched transactions in which no [created] key is
    smaller than the next one, strings being compared as text. *)
Lemma sorted_by_created_spec transactions l :
  sorted_by_created transactions = Ok l ->
  Sorted created_desc l
  /\ exists items, iter_values transactions = Ok items /\ Permutation l items.
Proof.
  unfold sorted_by_created.
  destruct (iter_values transactions) as [items|]; cbn [rbind]; [|discriminate].
  destruct (mapM _ items) as [keyed|] eqn:Hk; cbn [rbind]; [|discriminate].
  destruct (mapM_keyed items keyed Hk) as [Hm Hf].
  destruct ((length keyed <=? 1)%nat || comparable (map fst keyed)); [|discriminate].
  intros [= <-]. split.
  - apply sorted_map_snd; [|apply sort_desc_sorted].
    eapply Permutation_Forall; [symmetry; apply sort_desc_perm|exact Hf].
  - exists items. split; [reflexivity|].
    rewrite <- Hm. apply Permutation_map, sort_desc_perm.
Qed.

Lemma get_transactions_sorted_as_text E account_id access_token quiet w :
  Sorted created_desc (fst (get_transactions E account_id access_token quiet w)).
Proof.
  unfold get_transactions.
  destruct (send E _ w) as [[r|e] w1]; cbn [fst]; [|constructor].
  unfold read_transactions.
  destruct (raise_for_status r) as [?|?]; cbn [rbind fst]; [|constructor].
  destruct (json_of r) as [data|]; cbn [rbind fst]; [|constructor].
  destruct (get_method _ _ _) as [ts|]; cbn [rbind fst]; [|constructor].
  destruct (sorted_by_created ts) as [l|] eqn:Hs; cbn [fst]; [|constructor].
  apply (sorted_by_created_spec _ _ Hs).
Qed.

(** C9. The transactions are sorted by their [created] strings compared
    as text, which is not always newest first: of two transactions created
    at 10:00:00.51 and 10:00:00.5, fetched in that order, the older one is
    returned first, because the character [Z] is greater than the digit
    [1]. *)
Theorem get_transactions_older_first :
  created_text Fixtures.tx_newer = Some (py "2024-01-01T10:00:00.51Z")
  /\ created_text Fixtures.tx_older = Some (py "2024-01-01T10:00:00.5Z")
  /\ (exists older newer,
        instant_of (py "2024-01-01T10:00:00.5Z") = Some older
        /\ instant_of (py "2024-01-01T10:00:00.51Z") = Some newer
        /\ older < newer)
  /\ fst (get_transactions
            (Fixtures.always
               (Responded (Fixtures.reply 200 (py "OK") (py "")
                             (Fixtures.transactions_body
                                [Fixtures.tx_newer; Fixtures.tx_older]))))
            (PStr (py "acc_01")) (PStr (py "token")) true Fixtures.world0)
     = [Fixtures.tx_older; Fixtures.tx_newer].
Proof.
  split; [reflexivity|]. split; [reflexivity|]. split; [|reflexivity].
  exists 20240101100000500000, 20240101100000510000.
  repeat split.
Qed.

(** ** Logging in to the backend *)

Lemma starts_with_spec p : forall s,
  starts_with p s = true <-> exists post, s = p ++ post.
Proof.
  induction p as [|a p IH]; intros s; cbn [starts_with].
  - split; [eauto|reflexivity].
  - destruct s as [|b s].
    + split; [discriminate|]. intros [post H]. discriminate H.
    + rewrite andb_true_iff, N.eqb_eq, IH. split.
      * intros [-> [post ->]]. eauto.
      * intros [post [= -> ->]]. eauto.
Qed.

Lemma embedsb_spec sub s : embedsb sub s = true <-> embeds sub s.
Proof.
  unfold embeds. induction s as [|c s IH]; cbn [embedsb].
  - rewrite orb_false_r, starts_with_spec. split.
    + intros [post H]. exists [], post. exact H.
    + intros (pre & post & H). destruct pre; [eauto|discriminate H].
  - rewrite orb_true_iff, starts_with_spec, IH. split.
    + intros [[post H]|(pre & post & H)].
      * exists [], post. exact H.
      * exists (c :: pre), post. rewrite H. reflexivity.
    + intros (pre & post & H). destruct pre as [|c' pre].
      * left. eauto.
      * right. injection H as _ H. eauto.
Qed.

Lemma status_not_200 r : 400 <= status_code r < 600 -> (status_code r =? 200) = false.
Proof. intros H. apply Z.eqb_neq. lia. Qed.

Lemma raise_for_status_http_error r :
  400 <= status_code r < 600 ->
  raise_for_status r
  = Raise (HTTPError (http_error_message (status_code r) (reason r) (url r))).
Proof.
  intros [Hlo Hhi]. unfold raise_for_status, http_error_message.
  replace (400 <=? status_code r) with true by (symmetry; apply Z.leb_le; lia).
  destruct (Z.ltb_spec (status_code r) 500); cbn [andb]; [reflexivity|].
  replace (500 <=? status_code r) with true by (symmetry; apply Z.leb_le; lia).
  replace (status_code r <? 600) with true by (symmetry; apply Z.ltb_lt; lia).
  reflexivity.
Qed.

(** C3, as amended. A login that is answered with a status in 400..599
    raises an exception whose text holds the status code: the text is
    [Monetr login failed: ] followed by the message of the [HTTPError],
    which is made of the status code, the reason phrase and the URL and so
    is the same whatever the body of the response; the status and the body
    are printed; one request has been sent and the client is unchanged, no
    cookie stored. *)
Theorem login_error_status_raises E self w monetr_url email password r :
  getitem (client_config self) (py "monetr_url") = Ok monetr_url ->
  getitem (client_config self) (py "monetr_email") = Ok email ->
  getitem (client_config self) (py "monetr_password") = Ok password ->
  net E (sent w) (LoginRequest monetr_url email password) = Responded r ->
  400 <= status_code r < 600 ->
  let msg := py "Monetr login failed: "
             ++ http_error_message (status_code r) (reason r) (url r) in
  exists w',
    login E self w = (Raise (Exception_ msg), self, w')
    /\ embeds (str_of_int (status_code r)) msg
    /\ In (py "Status code: " ++ str_of_int (status_code r)) (stdout w')
    /\ In (py "Error: " ++ text r) (stdout w')
    /\ sent w' = sent w ++ [LoginRequest monetr_url email password]
    /\ forall E2 r2,
        net E2 (sent w) (LoginRequest monetr_url email password) = Responded r2 ->
        status_code r2 = status_code r -> reason r2 = reason r -> url r2 = url r ->
        fst (fst (login E2 self w)) = Raise (Exception_ msg).
Proof.
  intros Hu He Hp Hnet Hst msg. subst msg.
  assert (forall E2 r2,
             net E2 (sent w) (LoginRequest monetr_url email password) = Responded r2 ->
             400 <= status_code r2 < 600 ->
             login E2 self w
             = (Raise (Exception_
                         (py "Monetr login failed: "
                          ++ http_error_message (status_code r2) (reason r2) (url r2))),
                self,
                print (py "Error: " ++ text r2)
                  (print (py "Status code: " ++ str_of_int (status_code r2))
                     (print (nl ++ py "Failed to login to Monetr:")
                        (print (py "Response: " ++ text r2)
                           (print (py "Login failed with status "
                                     ++ str_of_int (status_code r2))
                              (snd (send E2 (LoginRequest monetr_url email password)
                                      (print (nl ++ py "Attempting login to Monetr...")
                                         w))))))))) as Hlogin.
  { intros E2 r2 Hnet2 Hst2. unfold login.
    rewrite Hu, He, Hp. cbn [rbind]. unfold send.
    rewrite sent_print, Hnet2, (status_not_200 r2 Hst2).
    rewrite (raise_for_status_http_error r2 Hst2). reflexivity. }
  eexists. split; [apply (Hlogin E r Hnet Hst)|]. repeat split.
  - exists (py "Monetr login failed: "). unfold http_error_message. eexists.
    reflexivity.
  - cbn [print stdout]. rewrite !in_app_iff. cbn [In]. tauto.
  - cbn [print stdout]. rewrite !in_app_iff. cbn [In]. tauto.
  - rewrite !sent_print, send_sent, sent_print. reflexivity.
  - intros E2 r2 Hnet2 Hs Hr Hurl. rewrite (Hlogin E2 r2 Hnet2) by (rewrite Hs; exact Hst).
    cbn [fst]. rewrite Hs, Hr, Hurl. reflexivity.
Qed.

Lemma login_error_status_raises_witness :
  exists w',
    login Fixtures.refused Fixtures.fresh_client Fixtures.world0
    = (Raise (Exception_
                (py "Monetr login failed: 401 Client Error: Unauthorized for url: http://localhost:4000/api")),
       Fixtures.fresh_client, w')
    /\ embeds (py "401")
         (py "Monetr login failed: 401 Client Error: Unauthorized for url: http://localhost:4000/api")
    /\ In (py "Status code: 401") (stdout w')
    /\ In (py "Error: invalid credentials") (stdout w')
    /\ sent w' = [LoginRequest (PStr (py "http://localhost:4000"))
                    (PStr (py "me@example.org")) (PStr (py "hunter2"))]
    /\ forall E2 r2,
        net E2 [] (LoginRequest (PStr (py "http://localhost:4000"))
                     (PStr (py "me@example.org")) (PStr (py "hunter2")))
        = Responded r2 ->
        status_code r2 = 401 -> reason r2 = py "Unauthorized" ->
        url r2 = py "http://localhost:4000/api" ->
        fst (fst (login E2 Fixtures.fresh_client Fixtures.world0))
        = Raise (Exception_
                   (py "Monetr login failed: 401 Client Error: Unauthorized for url: http://localhost:4000/api")).
Proof.
  apply (login_error_status_raises Fixtures.refused Fixtures.fresh_client
           Fixtures.world0 (PStr (py "http://localhost:4000"))
           (PStr (py "me@example.org")) (PStr (py "hunter2"))
           (Fixtures.reply 401 (py "Unauthorized") (py "invalid credentials") None));
    try reflexivity.
  cbn. lia.
Defined.

(** What [login] does with the other statuses that are not 200 (below 400
    or from 600 on): it prints that the login failed, and then keeps the
    cookies and returns like a successful login. *)
Lemma login_other_status_returns E self w monetr_url email password r :
  getitem (client_config self) (py "monetr_url") = Ok monetr_url ->
  getitem (client_config self) (py "monetr_email") = Ok email ->
  getitem (client_config self) (py "monetr_password") = Ok password ->
  net E (sent w) (LoginRequest monetr_url email password) = Responded r ->
  ~ 400 <= status_code r < 600 ->
  exists w',
    login E self w
    = (Ok tt, {| auth_cookie := Some (cookies r);
                 client_config := client_config self |}, w').
Proof.
  intros Hu He Hp Hnet Hst. unfold login.
  rewrite Hu, He, Hp. cbn [rbind]. unfold send.
  rewrite sent_print, Hnet, (raise_for_status_ok r Hst).
  destruct (status_code r =? 200); eexists; reflexivity.
Qed.

(** Against the claim as stated: a 204 answer is not 200, yet [login]
    returns and keeps the cookies; and the exception raised for a 401
    answer does not hold the body of the response. *)
Lemma login_counterexample :
  fst (fst (login Fixtures.no_content Fixtures.fresh_client Fixtures.world0)) = Ok tt
  /\ exists msg,
      fst (fst (login Fixtures.refused Fixtures.fresh_client Fixtures.world0))
      = Raise (Exception_ msg)
      /\ ~ embeds (py "invalid credentials") msg.
Proof.
  split; [reflexivity|].
  eexists. split; [reflexivity|].
  rewrite <- embedsb_spec. vm_compute. discriminate.
Qed.

(** ** The monitor loop *)














(** ** Attempts and the requests they send *)

Lemma posts_app l1 l2 : posts (l1 ++ l2) = (posts l1 + posts l2)%nat.
Proof. unfold posts. rewrite List.filter_app, length_app. reflexivity. Qed.


Lemma login_posts E self w : posts (sent (snd (login E self w))) = posts (sent w).
Proof.
  destruct (login_sent E self w) as [_ [->|(u & e & p & ->)]]; [reflexivity|].
  rewrite posts_app. cbn. lia.
Qed.







Lemma update_ids_spec ts : forall ids ids',
  update_ids ts ids = Ok ids' ->
  ids ⊆ ids' /\ forall t, In t ts -> exists id, external_id t = Ok id /\ id ∈ ids'.
Proof.
  unfold external_id.
  induction ts as [|t ts IH]; intros ids ids'; cbn [update_ids].
  - intros [= <-]. split; [set_solver|]. intros t [].
  - destruct (getitem t (py "id")) as [v|] eqn:Hv; cbn [rbind]; [|intros [=]].
    destruct (hashable v) as [k|] eqn:Hk; cbn [rbind]; [|intros [=]].
    intros H. destruct (IH _ _ H) as [Hsub Hin]. split.
    { intros x Hx. apply Hsub, elem_of_union. right. exact Hx. }
    intros t' [Heq|Ht'].
    + subst t'. exists k. rewrite Hv. cbn [rbind]. split; [exact Hk|].
      apply Hsub, elem_of_union. left. apply elem_of_singleton. reflexivity.
    + apply Hin, Ht'.
Qed.






(** The scenario of the specification, run: [tx1] is in the seed set and is
    never posted; [tx2] is posted in the first turn, where the backend
    fails, and again in the second, where it succeeds; the two later turns
    post nothing.  Both postings carry the amount -1200, the name
    [Refund] and [isPending = true]. *)
Example monitor_scenario :
  match transaction_monitor Fixtures.scenario (PStr (py "token"))
          Fixtures.fresh_client 4 Fixtures.world0 with
  | Some (m, w) =>
      attempts m = [(HStr (py "tx2"), false); (HStr (py "tx2"), true)]
      /\ elements (initial_transaction_ids m) = [HStr (py "tx2"); HStr (py "tx1")]
      /\ map (fun body => (getitem body (py "amount"), getitem body (py "name"),
                           getitem body (py "isPending")))
             (Fixtures.posted_bodies w)
         = [(Ok (PInt (-1200)), Ok (PStr (py "Refund")), Ok (PBool true));
            (Ok (PInt (-1200)), Ok (PStr (py "Refund")), Ok (PBool true))]
  | None => False
  end.
Proof. vm_compute. repeat split. Qed.

(** ** The codecs: base64 *)

(** Checking a property of the numbers below a bound by enumeration. *)
Lemma N_forall_below (P : N -> bool) (n : nat) :
  forallb P (map N.of_nat (seq 0 n)) = true ->
  forall x, (x < N.of_nat n)%N -> P x = true.
Proof.
  intros H x Hx. rewrite forallb_forall in H. apply H.
  rewrite <- (N2Nat.id x). apply in_map, in_seq. lia.
Qed.

Lemma N_forall2_below (P : N -> N -> bool) (n m : nat) :
  forallb (fun a => forallb (P a) (map N.of_nat (seq 0 m))) (map N.of_nat (seq 0 n)) = true ->
  forall a b, (a < N.of_nat n)%N -> (b < N.of_nat m)%N -> P a b = true.
Proof.
  intros H a b Ha Hb.
  apply (N_forall_below (P a) m); [|exact Hb].
  apply (N_forall_below (fun a => forallb (P a) (map N.of_nat (seq 0 m))) n H a Ha).
Qed.

Module Base64Facts.
Import Base64 CodecAux.
Local Open Scope N_scope.

Lemma a2b_b2a n : n < 64 -> a2b (b2a n) = Some n /\ (b2a n =? pad) = false /\ b2a n < 128.
Proof.
  intros Hn.
  pose proof (N_forall_below
                (fun n => match a2b (b2a n) with
                          | Some m => (m =? n) && negb (b2a n =? pad) && (b2a n <? 128)
                          | None => false
                          end) 64 eq_refl n Hn) as H.
  cbv beta in H. destruct (a2b (b2a n)) as [m|]; [|discriminate].
  rewrite !andb_true_iff, N.eqb_eq, negb_true_iff, N.ltb_lt in H.
  destruct H as [[-> ?] ?]. auto.
Qed.

Lemma octet_pair x y : x < 256 -> y < 256 -> octet_pair_ok x y = true.
Proof. apply (N_forall2_below octet_pair_ok 256 256). vm_compute. reflexivity. Qed.

Lemma octet_pair_facts x y :
  x < 256 -> y < 256 ->
  N.shiftr x 2 < 64 /\ second x y < 64 /\ third x y < 64 /\ N.land x 63 < 64
  /\ N.lor (N.shiftl (N.shiftr x 2) 2) (N.shiftr (second x y) 4) = x
  /\ N.land (second x y) 15 = N.shiftr y 4
  /\ N.shiftr (third x y) 2 = N.land x 15
  /\ N.lor (N.shiftl (N.shiftr x 4) 4) (N.land x 15) = x
  /\ N.land (third x y) 3 = N.shiftr y 6
  /\ N.lor (N.shiftl (N.shiftr x 6) 6) (N.land x 63) = x.
Proof.
  intros Hx Hy. pose proof (octet_pair x y Hx Hy) as H. unfold octet_pair_ok in H.
  rewrite !andb_true_iff, !N.eqb_eq, !N.ltb_lt in H. tauto.
Qed.

Lemma zero_byte : 0 < 256.
Proof. reflexivity. Qed.

(** One full group: four characters give the three octets back. *)
Lemma a2b_loop_group a b c rest leftchar out :
  a < 256 -> b < 256 -> c < 256 ->
  a2b_loop (b2a (N.shiftr a 2) :: b2a (second a b) :: b2a (third b c)
              :: b2a (N.land c 63) :: rest) 0 leftchar 0 out
  = a2b_loop rest 0 0 0 (out ++ [a; b; c]).
Proof.
  intros Ha Hb Hc.
  destruct (octet_pair_facts a b Ha Hb) as (A1 & A2 & _ & _ & A5 & A6 & _).
  destruct (octet_pair_facts b c Hb Hc) as (_ & _ & B3 & _ & _ & _ & B7 & B8 & B9 & _).
  destruct (octet_pair_facts c 0 Hc zero_byte) as (_ & _ & _ & C4 & _ & _ & _ & _ & _ & C10).
  destruct (a2b_b2a _ A1) as (E1 & P1 & _).
  destruct (a2b_b2a _ A2) as (E2 & P2 & _).
  destruct (a2b_b2a _ B3) as (E3 & P3 & _).
  destruct (a2b_b2a _ C4) as (E4 & P4 & _).
  cbn [a2b_loop].
  rewrite P1, E1, P2, E2, P3, E3, P4, E4. cbn [N.eqb Pos.eqb].
  rewrite A5, A6, B7, B8, B9, C10.
  rewrite <- !app_assoc. reflexivity.
Qed.

(** The two short tails. *)
Lemma a2b_loop_one a leftchar out :
  a < 256 ->
  a2b_loop [b2a (N.shiftr a 2); b2a (N.shiftl (N.land a 3) 4); pad; pad] 0 leftchar 0 out
  = Ok (out ++ [a]).
Proof.
  intros Ha.
  destruct (octet_pair_facts a 0 Ha zero_byte) as (A1 & A2 & _ & _ & A5 & _).
  replace (N.shiftl (N.land a 3) 4) with (second a 0)
    by (unfold second; rewrite N.shiftr_0_l, N.lor_0_r; reflexivity).
  destruct (a2b_b2a _ A1) as (E1 & P1 & _).
  destruct (a2b_b2a _ A2) as (E2 & P2 & _).
  cbn [a2b_loop]. rewrite P1, E1, P2, E2. cbn. rewrite A5. reflexivity.
Qed.

Lemma a2b_loop_two a b leftchar out :
  a < 256 -> b < 256 ->
  a2b_loop [b2a (N.shiftr a 2); b2a (second a b); b2a (N.shiftl (N.land b 15) 2); pad]
    0 leftchar 0 out
  = Ok (out ++ [a; b]).
Proof.
  intros Ha Hb.
  destruct (octet_pair_facts a b Ha Hb) as (A1 & A2 & _ & _ & A5 & A6 & _).
  destruct (octet_pair_facts b 0 Hb zero_byte) as (_ & _ & B3 & _ & _ & _ & B7 & B8 & _).
  replace (N.shiftl (N.land b 15) 2) with (third b 0)
    by (unfold third; rewrite N.shiftr_0_l, N.lor_0_r; reflexivity).
  destruct (a2b_b2a _ A1) as (E1 & P1 & _).
  destruct (a2b_b2a _ A2) as (E2 & P2 & _).
  destruct (a2b_b2a _ B3) as (E3 & P3 & _).
  cbn [a2b_loop]. rewrite P1, E1, P2, E2, P3, E3. cbn.
  rewrite A5, A6, B7, B8. rewrite <- app_assoc. reflexivity.
Qed.

(** Induction on a list three items at a time. *)
Lemma list_ind3 {A} (P : list A -> Prop) :
  P [] -> (forall a, P [a]) -> (forall a b, P [a; b]) ->
  (forall a b c l, P l -> P (a :: b :: c :: l)) ->
  forall l, P l.
Proof.
  intros H0 H1 H2 H3.
  assert (forall l, P l /\ (forall a, P (a :: l)) /\ (forall a b, P (a :: b :: l))) as H.
  { induction l as [|x l (IH0 & IH1 & IH2)]; [auto|].
    split; [apply IH1|]. split; [intros a; apply IH2|]. intros a b. apply H3, IH0. }
  intros l. apply H.
Qed.

Lemma b64encode_group a b c l :
  b64encode (a :: b :: c :: l)
  = b2a (N.shiftr a 2) :: b2a (second a b) :: b2a (third b c)
      :: b2a (N.land c 63) :: b64encode l.
Proof. reflexivity. Qed.

Lemma a2b_loop_b64encode bs : forall leftchar out,
  Forall (fun b => b < 256) bs ->
  a2b_loop (b64encode bs) 0 leftchar 0 out = Ok (out ++ bs).
Proof.
  induction bs as [|a|a b|a b c l IH] using list_ind3; intros leftchar out Hbs.
  - cbn. rewrite app_nil_r. reflexivity.
  - inversion Hbs; subst. apply a2b_loop_one; assumption.
  - inversion Hbs as [|? ? ? Hb]; inversion Hb; subst. apply a2b_loop_two; assumption.
  - inversion Hbs as [|? ? Ha Hb]; inversion Hb as [|? ? Hb' Hc];
      inversion Hc as [|? ? Hc' Hl]; subst.
    rewrite b64encode_group, a2b_loop_group by assumption.
    rewrite IH by assumption. rewrite <- app_assoc. reflexivity.
Qed.

Lemma b64encode_ascii bs :
  Forall (fun b => b < 256) bs -> Forall (fun c => c < 128) (b64encode bs).
Proof.
  induction bs as [|a|a b|a b c l IH] using list_ind3; intros Hbs.
  - constructor.
  - inversion Hbs; subst.
    destruct (octet_pair_facts a 0) as (A1 & A2 & _); [assumption|reflexivity|].
    unfold second in A2. rewrite N.shiftr_0_l, N.lor_0_r in A2.
    cbn [b64encode]. repeat constructor; try (apply a2b_b2a; assumption).
  - inversion Hbs as [|? ? Ha Hb]; inversion Hb as [|? ? Hb' _]; subst.
    destruct (octet_pair_facts a b) as (A1 & A2 & _); [assumption..|].
    destruct (octet_pair_facts b 0) as (_ & _ & B3 & _); [assumption|reflexivity|].
    unfold third in B3. rewrite N.shiftr_0_l, N.lor_0_r in B3.
    cbn [b64encode]. repeat constructor; try (apply a2b_b2a; assumption).
  - inversion Hbs as [|? ? Ha Hb]; inversion Hb as [|? ? Hb' Hc];
      inversion Hc as [|? ? Hc' Hl]; subst.
    destruct (octet_pair_facts a b) as (A1 & A2 & _); [assumption..|].
    destruct (octet_pair_facts b c) as (_ & _ & B3 & _); [assumption..|].
    destruct (octet_pair_facts c 0) as (_ & _ & _ & C4 & _); [assumption|reflexivity|].
    rewrite b64encode_group.
    repeat (constructor; [apply a2b_b2a; assumption|]). apply IH, Hl.
Qed.

Lemma b64encode_nonempty bs : bs <> [] -> b64encode bs <> [].
Proof. destruct bs as [|a [|b [|c l]]]; cbn; congruence. Qed.

(** [b64decode] undoes [b64encode]. *)
Lemma b64decode_b64encode bs :
  Forall (fun b => b < 256) bs -> b64decode (b64encode bs) = Ok bs.
Proof.
  intros Hbs. unfold b64decode.
  replace (forallb (fun c => c <? 128) (b64encode bs)) with true.
  - apply (a2b_loop_b64encode bs 0 [] Hbs).
  - symmetry. apply forallb_forall. intros c Hc.
    pose proof (b64encode_ascii bs Hbs) as H. rewrite Forall_forall in H.
    apply N.ltb_lt, H. apply list_elem_of_In, Hc.
Qed.

End Base64Facts.

(** ** The codecs: UTF-8 on ASCII text *)

Lemma utf8_encode_ascii s :
  Forall (fun c => (c < 128)%N) s -> Utf8.encode s = Ok s.
Proof.
  induction 1 as [|c s Hc Hs IH]; cbn [Utf8.encode]; [reflexivity|].
  unfold Utf8.encode_char. apply N.ltb_lt in Hc. rewrite Hc. cbn [rbind].
  rewrite IH. reflexivity.
Qed.

Lemma utf8_decode_ascii s :
  Forall (fun c => (c < 128)%N) s -> Utf8.decode s = Ok s.
Proof.
  induction 1 as [|c s Hc Hs IH]; cbn [Utf8.decode]; [reflexivity|].
  apply N.ltb_lt in Hc. rewrite Hc, IH. reflexivity.
Qed.

(** ** The codecs: JSON strings *)

Module JsonFacts.
Import Json.
Local Open Scope N_scope.

Lemma lor_shiftl_add x y n : y < 2 ^ n -> N.lor (N.shiftl x n) y = x * 2 ^ n + y.
Proof.
  intros Hy.
  assert (N.land (N.shiftl x n) y = 0) as Hdisj.
  { apply N.bits_inj. intros k. rewrite N.land_spec, N.bits_0.
    destruct (N.lt_ge_cases k n) as [Hk|Hk].
    - rewrite N.shiftl_spec_low by exact Hk. reflexivity.
    - rewrite <- (N.mod_small y (2 ^ n)) by exact Hy.
      rewrite N.mod_pow2_bits_high by exact Hk. apply andb_false_r. }
  rewrite <- N.lxor_lor, <- N.add_nocarry_lxor by exact Hdisj.
  rewrite N.shiftl_mul_pow2. reflexivity.
Qed.

Lemma land_15 n : N.land n 15 = n mod 16 /\ N.land n 15 < 16.
Proof.
  change 15 with (N.ones 4). rewrite N.land_ones. change (2 ^ 4) with 16.
  split; [reflexivity|]. apply N.mod_lt. discriminate.
Qed.

Lemma hexval_hex_digit n : n < 16 -> hexval (hex_digit n) = Some n.
Proof.
  intros Hn.
  pose proof (N_forall_below
                (fun n => match hexval (hex_digit n) with
                          | Some m => m =? n
                          | None => false
                          end) 16 eq_refl n Hn) as H.
  cbv beta in H. destruct (hexval (hex_digit n)) as [m|]; [|discriminate].
  apply N.eqb_eq in H. congruence.
Qed.

Lemma nibbles c :
  c < 65536 ->
  4096 * N.land (N.shiftr c 12) 15 + 256 * N.land (N.shiftr c 8) 15
  + 16 * N.land (N.shiftr c 4) 15 + N.land c 15 = c.
Proof.
  intros Hc.
  rewrite !(proj1 (land_15 _)), !N.shiftr_div_pow2.
  change (2 ^ 12) with 4096. change (2 ^ 8) with 256. change (2 ^ 4) with 16.
  pose proof (N.div_mod c 16 ltac:(discriminate)) as H0.
  pose proof (N.div_mod (c / 16) 16 ltac:(discriminate)) as H1.
  pose proof (N.div_mod (c / 256) 16 ltac:(discriminate)) as H2.
  replace (c / 16 / 16) with (c / 256) in H1
    by (rewrite N.Div0.div_div; reflexivity).
  replace (c / 256 / 16) with (c / 4096) in H2
    by (rewrite N.Div0.div_div; reflexivity).
  assert (c / 4096 < 16) as H3 by (apply N.Div0.div_lt_upper_bound; lia).
  rewrite (N.mod_small (c / 4096) 16 H3).
  pose proof (N.mod_lt c 16 ltac:(discriminate)).
  pose proof (N.mod_lt (c / 16) 16 ltac:(discriminate)).
  pose proof (N.mod_lt (c / 256) 16 ltac:(discriminate)).
  lia.
Qed.

(** The four digits of [u_escape c] read back as [c]. *)
Lemma hex4_u_escape c :
  c < 65536 ->
  hex4 (hex_digit (N.land (N.shiftr c 12) 15))
       (hex_digit (N.land (N.shiftr c 8) 15))
       (hex_digit (N.land (N.shiftr c 4) 15))
       (hex_digit (N.land c 15)) = Some c.
Proof.
  intros Hc. unfold hex4.
  rewrite !hexval_hex_digit by apply land_15.
  rewrite (nibbles c Hc). reflexivity.
Qed.

Lemma u_escape_ascii c : Forall (fun d => d < 128) (u_escape c).
Proof.
  assert (forall n, hex_digit (N.land n 15) < 128) as H.
  { intros n. assert (N.land n 15 < 16) as Hn.
    { change 15 with (N.ones 4). rewrite N.land_ones. apply N.mod_lt. discriminate. }
    unfold hex_digit. destruct (N.ltb_spec (N.land n 15) 10); lia. }
  unfold u_escape. repeat constructor; apply H.
Qed.

Lemma escape_char_ascii c : Forall (fun d => d < 128) (escape_char c).
Proof.
  unfold escape_char.
  repeat match goal with
         | |- context [if ?b then _ else _] => destruct b eqn:?
         end; try (repeat constructor; fail).
  - constructor; [|constructor].
    apply andb_true_iff in Heqb6 as [_ H]. apply N.leb_le in H. lia.
  - apply u_escape_ascii.
  - apply Forall_app. split; apply u_escape_ascii.
Qed.

(** Reading back one escaped character. *)
Lemma scanstring_u_escape c T acc :
  c < 65536 -> (55296 <=? c) && (c <=? 56319) = false ->
  scanstring (u_escape c ++ T) acc = scanstring T (acc ++ [c]).
Proof.
  intros Hc Hs. unfold u_escape. cbn [app scanstring].
  change (92 =? 34) with false. change (92 =? 92) with true.
  change (117 =? 117) with true. cbv iota.
  rewrite (hex4_u_escape c Hc), Hs. reflexivity.
Qed.

Lemma surrogate_pair c :
  65536 <= c -> c < 1114112 ->
  let hi := 55296 - 64 + N.shiftr c 10 in
  let lo := 56320 + N.land c 1023 in
  hi < 65536 /\ lo < 65536
  /\ (55296 <=? hi) && (hi <=? 56319) = true
  /\ (56320 <=? lo) && (lo <=? 57343) = true
  /\ 65536 + N.lor (N.shiftl (hi - 55296) 10) (lo - 56320) = c.
Proof.
  intros Hlo Hhi hi lo.
  assert (N.land c 1023 = c mod 1024) as Hl by (apply (N.land_ones c 10)).
  assert (N.shiftr c 10 = c / 1024) as Hh by (apply (N.shiftr_div_pow2 c 10)).
  pose proof (N.mod_lt c 1024 ltac:(discriminate)) as Hm.
  pose proof (N.div_mod c 1024 ltac:(discriminate)) as Hd.
  assert (64 <= c / 1024) as Hq1 by (apply (N.div_le_lower_bound c 1024 64); lia).
  assert (c / 1024 < 1088) as Hq2 by (apply N.Div0.div_lt_upper_bound; lia).
  subst hi lo. rewrite Hl, Hh.
  repeat split; try lia.
  - apply andb_true_iff. split; apply N.leb_le; lia.
  - apply andb_true_iff. split; apply N.leb_le; lia.
  - replace (55296 - 64 + c / 1024 - 55296) with (c / 1024 - 64) by lia.
    replace (56320 + c mod 1024 - 56320) with (c mod 1024) by lia.
    rewrite (lor_shiftl_add _ _ 10) by (change (2 ^ 10) with 1024; lia).
    change (2 ^ 10) with 1024. lia.
Qed.

Lemma scanstring_escape c T acc :
  valid_char c = true ->
  scanstring (escape_char c ++ T) acc = scanstring T (acc ++ [c]).
Proof.
  unfold valid_char. rewrite andb_true_iff, negb_true_iff, N.ltb_lt.
  intros [Hmax Hsur]. unfold escape_char.
  destruct (N.eqb_spec c 34) as [->|H34]; [reflexivity|].
  destruct (N.eqb_spec c 92) as [->|H92]; [reflexivity|].
  destruct (N.eqb_spec c 10) as [->|H10]; [reflexivity|].
  destruct (N.eqb_spec c 13) as [->|H13]; [reflexivity|].
  destruct (N.eqb_spec c 9) as [->|H9]; [reflexivity|].
  destruct (N.eqb_spec c 8) as [->|H8]; [reflexivity|].
  destruct (N.eqb_spec c 12) as [->|H12]; [reflexivity|].
  destruct ((32 <=? c) && (c <=? 126)) eqn:Hprint.
  - apply andb_true_iff in Hprint as [Hge _]. apply N.leb_le in Hge.
    cbn [app scanstring].
    rewrite (proj2 (N.eqb_neq c 34) H34), (proj2 (N.eqb_neq c 92) H92).
    rewrite (proj2 (N.ltb_ge c 32) Hge). reflexivity.
  - destruct (N.ltb_spec c 65536) as [Hbmp|Hastral].
    + apply scanstring_u_escape; assumption.
    + destruct (surrogate_pair c Hastral Hmax) as (Hhi & Hlo & Hhs & Hls & Hjoin).
      unfold u_escape at 1. rewrite <- app_assoc. cbn [app scanstring].
      change (92 =? 34) with false. change (92 =? 92) with true.
      change (117 =? 117) with true. cbv iota.
      rewrite (hex4_u_escape _ Hhi), Hhs.
      unfold u_escape. cbn [app]. cbn [andb]. change (92 =? 92) with true.
      change (117 =? 117) with true. cbn [andb].
      rewrite (hex4_u_escape _ Hlo), Hls, Hjoin. reflexivity.
Qed.

Lemma scanstring_flat_map s : forall acc rest,
  valid_str s = true ->
  scanstring (flat_map escape_char s ++ 34 :: rest) acc = Ok (acc ++ s, rest).
Proof.
  induction s as [|c s IH]; intros acc rest Hs.
  - cbn. rewrite app_nil_r. reflexivity.
  - cbn [valid_str forallb] in Hs. apply andb_true_iff in Hs as [Hc Hs].
    cbn [flat_map]. rewrite <- app_assoc, scanstring_escape by exact Hc.
    rewrite IH by exact Hs. rewrite <- app_assoc. reflexivity.
Qed.

(** A string written by [json.dumps] is read back by [scan_once]. *)
Lemma scan_once_string fuel s rest :
  valid_str s = true ->
  scan_once (S fuel) (encode_basestring_ascii s ++ rest) = Ok (PStr s, rest).
Proof.
  intros Hs. unfold encode_basestring_ascii. cbn [app scan_once].
  change (34 =? 34) with true. cbv iota.
  rewrite <- app_assoc. cbn [app]. rewrite scanstring_flat_map by exact Hs.
  reflexivity.
Qed.

End JsonFacts.

(** ** The codecs: JSON objects of strings *)

Module JsonObjectFacts.
Import Json JsonFacts CodecAux.
Local Open Scope N_scope.

Lemma dumps_dict d : dumps (PDict d) = 123 :: dumps_items d ++ [125].
Proof.
  reflexivity.
Qed.

Lemma scan_once_value fuel v rest :
  config_value v = true ->
  scan_once (S fuel) (dumps v ++ rest) = Ok (v, rest).
Proof.
  destruct v; try discriminate; intros Hv.
  - reflexivity.
  - cbn [dumps]. apply scan_once_string, Hv.
Qed.

Lemma skip_ws_value v rest :
  config_value v = true -> skip_ws (dumps v ++ rest) = dumps v ++ rest.
Proof. destruct v; try discriminate; intros _; reflexivity. Qed.

Lemma dict_set_fresh acc k v :
  forallb (fun kv => negb (pystr_eqb (fst kv) k)) acc = true ->
  dict_set acc k v = acc ++ [(k, v)].
Proof.
  induction acc as [|[k' v'] acc IH]; cbn [forallb dict_set app fst]; [reflexivity|].
  rewrite andb_true_iff, negb_true_iff. intros [-> H]. rewrite IH by exact H.
  reflexivity.
Qed.

Lemma pystr_eqb_sym a b : pystr_eqb a b = pystr_eqb b a.
Proof.
  unfold pystr_eqb. destruct (bool_decide_reflect (a = b)) as [->|H].
  - rewrite bool_decide_eq_true_2; reflexivity.
  - rewrite bool_decide_eq_false_2; [reflexivity|congruence].
Qed.

Lemma dumps_items_cons k x d : dumps_items ((k, x) :: d) = 34 :: after_quote k x d.
Proof.
  cbn [dumps_items]. unfold encode_basestring_ascii, after_quote.
  cbn [app]. rewrite <- app_assoc. reflexivity.
Qed.

Lemma skip_ws_keep c s : is_ws c = false -> skip_ws (c :: s) = c :: s.
Proof. intros H. cbn [skip_ws]. rewrite H. reflexivity. Qed.

Lemma skip_ws_drop c s : is_ws c = true -> skip_ws (c :: s) = skip_ws s.
Proof. intros H. cbn [skip_ws]. rewrite H. reflexivity. Qed.

(** One turn of the pair loop on a pair written by [json.dumps]. *)
Lemma object_pairs_step fuel n k x acc tail :
  valid_str k = true -> config_value x = true ->
  object_pairs (scan_once (S fuel)) (S n)
    (flat_map escape_char k ++ 34 :: 58 :: 32 :: dumps x ++ tail) acc
  = match skip_ws tail with
    | c2 :: s2 =>
        if c2 =? 125 then Ok (PDict (dict_set acc k x), s2)
        else if c2 =? 44 then
          match skip_ws s2 with
          | q :: s3 =>
              if q =? 34
              then object_pairs (scan_once (S fuel)) n s3 (dict_set acc k x)
              else Raise JSONDecodeError
          | [] => Raise JSONDecodeError
          end
        else Raise JSONDecodeError
    | [] => Raise JSONDecodeError
    end.
Proof.
  intros Hk Hx. cbn [object_pairs].
  rewrite scanstring_flat_map by exact Hk. cbn [rbind fst snd app].
  rewrite skip_ws_keep by reflexivity. change (58 =? 58) with true. cbv iota.
  rewrite skip_ws_drop by reflexivity.
  rewrite skip_ws_value, scan_once_value by exact Hx.
  reflexivity.
Qed.

Lemma config_items_cons k v d :
  config_items ((k, v) :: d) = true ->
  valid_str k = true /\ config_value v = true
  /\ forallb (fun kv => negb (pystr_eqb (fst kv) k)) d = true
  /\ config_items d = true.
Proof. cbn [config_items]. rewrite !andb_true_iff. tauto. Qed.

Lemma object_pairs_items fuel d : forall k x acc n rest,
  config_items ((k, x) :: d) = true ->
  forallb (fun kv => forallb (fun kv' => negb (pystr_eqb (fst kv') (fst kv))) acc)
          ((k, x) :: d) = true ->
  (length d < n)%nat ->
  object_pairs (scan_once (S fuel)) n (after_quote k x d ++ 125 :: rest) acc
  = Ok (PDict (acc ++ (k, x) :: d), rest).
Proof.
  induction d as [|[k' x'] d IH]; intros k x acc n rest Hd Hacc Hn.
  - destruct n as [|n]; [cbn in Hn; lia|].
    apply config_items_cons in Hd as (Hk & Hx & _ & _).
    cbn [forallb fst] in Hacc. rewrite andb_true_r in Hacc.
    unfold after_quote. rewrite app_nil_r, <- !app_assoc. cbn [app].
    rewrite object_pairs_step by assumption.
    rewrite skip_ws_keep by reflexivity. change (125 =? 125) with true. cbv iota.
    rewrite dict_set_fresh by exact Hacc. reflexivity.
  - destruct n as [|n]; [cbn in Hn; lia|].
    apply config_items_cons in Hd as (Hk & Hx & Hfresh & Hrest).
    cbn [forallb fst] in Hacc. apply andb_true_iff in Hacc as [Hacc_k Hacc_d].
    unfold after_quote at 1. rewrite <- !app_assoc. cbn [app].
    rewrite <- !app_assoc. cbn [app].
    rewrite object_pairs_step by assumption.
    rewrite skip_ws_keep by reflexivity.
    change (44 =? 125) with false. change (44 =? 44) with true. cbv iota.
    rewrite skip_ws_drop by reflexivity.
    rewrite dumps_items_cons. cbn [app].
    rewrite skip_ws_keep by reflexivity. change (34 =? 34) with true. cbv iota.
    rewrite dict_set_fresh by exact Hacc_k.
    rewrite IH.
    + rewrite <- app_assoc. reflexivity.
    + exact Hrest.
    + cbn [forallb fst] in Hfresh, Hacc_d |- *.
      apply andb_true_iff in Hfresh as [Hk' Hfresh].
      apply andb_true_iff in Hacc_d as [Hacc_k' Hacc_d].
      apply andb_true_iff. split.
      * rewrite forallb_app, Hacc_k'. cbn [forallb fst andb].
        rewrite andb_true_r, pystr_eqb_sym. exact Hk'.
      * rewrite forallb_forall in Hacc_d, Hfresh |- *. intros kv Hkv.
        rewrite forallb_app, (Hacc_d kv Hkv). cbn [forallb fst andb].
        rewrite andb_true_r, pystr_eqb_sym. apply (Hfresh kv Hkv).
    + cbn [length] in Hn. lia.
Qed.

Lemma length_dumps_items d : (length d <= length (dumps_items d))%nat.
Proof.
  induction d as [|[k x] d IH]; [reflexivity|].
  rewrite dumps_items_cons. unfold after_quote.
  cbn [length]. rewrite length_app. cbn [length]. rewrite length_app.
  destruct d as [|kv d]; cbn [length] in *; lia.
Qed.

(** [json.loads] reads back the configuration that [json.dumps] wrote. *)
Lemma loads_object s1 :
  loads (123 :: s1)
  = (r <- JSONObject (scan_once (S (length s1))) (S (length s1)) s1 ;;
     match skip_ws (snd r) with
     | [] => Ok (fst r)
     | _ :: _ => Raise JSONDecodeError
     end).
Proof. reflexivity. Qed.

Lemma JSONObject_quote scan n s :
  JSONObject scan n (34 :: s) = object_pairs scan n s [].
Proof. reflexivity. Qed.

Lemma loads_dumps d :
  config_items d = true -> loads (dumps (PDict d)) = Ok (PDict d).
Proof.
  intros Hd. rewrite dumps_dict, loads_object.
  destruct d as [|[k x] d]; [reflexivity|].
  rewrite dumps_items_cons. cbn [app]. rewrite JSONObject_quote.
  pose proof (length_dumps_items ((k, x) :: d)) as Hlen.
  rewrite dumps_items_cons in Hlen. cbn [length] in Hlen.
  rewrite (object_pairs_items _ d k x [] _ [] Hd).
  - reflexivity.
  - clear. induction ((k, x) :: d) as [|kv l IH]; [reflexivity|].
    cbn [forallb]. exact IH.
  - cbn [length]. rewrite length_app. cbn [length]. lia.
Qed.

Lemma dumps_items_ascii d :
  config_items d = true -> Forall (fun c => c < 128) (dumps_items d).
Proof.
  assert (forall s, Forall (fun c => c < 128) (encode_basestring_ascii s)) as Hstr.
  { intros s. unfold encode_basestring_ascii. constructor; [reflexivity|].
    apply Forall_app. split; [|repeat constructor].
    induction s as [|c s IH]; cbn [flat_map]; [constructor|].
    apply Forall_app. split; [apply escape_char_ascii|exact IH]. }
  induction d as [|[k x] d IH]; intros Hd; [constructor|].
  apply config_items_cons in Hd as (Hk & Hx & _ & Hrest).
  cbn [dumps_items]. apply Forall_app. split; [apply Hstr|].
  repeat (constructor; [reflexivity|]).
  apply Forall_app. split.
  - destruct x; try discriminate Hx; [repeat constructor|apply Hstr].
  - destruct d; [constructor|]. repeat (constructor; [reflexivity|]).
    apply IH, Hrest.
Qed.

Lemma dumps_ascii d :
  config_items d = true -> Forall (fun c => c < 128) (dumps (PDict d)).
Proof.
  intros Hd. rewrite dumps_dict. constructor; [reflexivity|].
  apply Forall_app. split; [apply dumps_items_ascii, Hd|repeat constructor].
Qed.

End JsonObjectFacts.

(** ** The credential store *)

Lemma encrypt_config_blob d :
  config_items d = true ->
  encrypt_config (PDict d) = Ok (Base64.b64encode (Json.dumps (PDict d)))
  /\ Base64.b64encode (Json.dumps (PDict d)) <> [].
Proof.
  intros Hd. pose proof (JsonObjectFacts.dumps_ascii d Hd) as Hascii.
  assert (Forall (fun b => (b < 256)%N) (Json.dumps (PDict d))) as Hbytes.
  { eapply Forall_impl; [exact Hascii|]. cbv beta. intros; lia. }
  split.
  - unfold encrypt_config. rewrite utf8_encode_ascii by exact Hascii.
    cbn [rbind]. apply utf8_decode_ascii, Base64Facts.b64encode_ascii, Hbytes.
  - apply Base64Facts.b64encode_nonempty.
    rewrite JsonObjectFacts.dumps_dict. discriminate.
Qed.

Lemma decode_config_blob d :
  config_items d = true ->
  decode_config (Base64.b64encode (Json.dumps (PDict d))) = Ok (PDict d).
Proof.
  intros Hd. pose proof (JsonObjectFacts.dumps_ascii d Hd) as Hascii.
  assert (Forall (fun b => (b < 256)%N) (Json.dumps (PDict d))) as Hbytes.
  { eapply Forall_impl; [exact Hascii|]. cbv beta. intros; lia. }
  unfold decode_config.
  rewrite Base64Facts.b64decode_b64encode by exact Hbytes. cbn [rbind].
  rewrite utf8_decode_ascii by exact Hascii. cbn [rbind].
  apply JsonObjectFacts.loads_dumps, Hd.
Qed.

(** [decrypt_config] undoes [encrypt_config] on a configuration. *)
Lemma decrypt_encrypt_config d :
  config_items d = true ->
  exists encrypted_data,
    encrypt_config (PDict d) = Ok encrypted_data
    /\ encrypted_data <> []
    /\ decrypt_config encrypted_data = PDict d.
Proof.
  intros Hd. destruct (encrypt_config_blob d Hd) as [He Hne].
  eexists. split; [exact He|]. split; [exact Hne|].
  unfold decrypt_config. rewrite decode_config_blob by exact Hd. reflexivity.
Qed.

Lemma load_config_lookup service w :
  load_config service w
  = match keyring w !! (service, py "config") with
    | Some (c :: s) => decrypt_config (c :: s)
    | _ => PNone
    end.
Proof.
  unfold load_config. destruct (keyring w !! _) as [[|c s]|]; reflexivity.
Qed.

(** C8. Saving a configuration under a service name and loading that
    service gives the configuration back; loading a service that has
    nothing stored, or whose stored text cannot be decoded, gives [None]
    (no exception can leave [load_config]: its result is a value). *)
Theorem save_then_load_config service w :
  (forall d, config_items d = true ->
     exists w', save_config service (PDict d) w = (Ok tt, w')
                /\ load_config service w' = PDict d)
  /\ (keyring w !! (service, py "config") = None -> load_config service w = PNone)
  /\ (forall stored e,
        keyring w !! (service, py "config") = Some stored ->
        decode_config stored = Raise e ->
        load_config service w = PNone).
Proof.
  split; [|split].
  - intros d Hd. destruct (decrypt_encrypt_config d Hd) as (enc & He & Hne & Hdec).
    unfold save_config. rewrite He. eexists. split; [reflexivity|].
    rewrite load_config_lookup. unfold set_keyring. cbn [keyring].
    rewrite lookup_insert_eq. destruct enc; [congruence|exact Hdec].
  - intros Hnone. rewrite load_config_lookup. unfold pystr in *.
    rewrite Hnone. reflexivity.
  - intros stored e Hsome Hraise. rewrite load_config_lookup. unfold pystr in *.
    rewrite Hsome. destruct stored; [reflexivity|].
    unfold decrypt_config. rewrite Hraise. reflexivity.
Qed.

Lemma save_then_load_config_witness :
  exists w',
    save_monzo_config (PDict Fixtures.monzo_config) Fixtures.world0 = (Ok tt, w')
    /\ load_monzo_config w' = PDict Fixtures.monzo_config.
Proof.
  apply (proj1 (save_then_load_config MONZO_SERVICE Fixtures.world0)
           Fixtures.monzo_config).
  vm_compute. reflexivity.
Defined.

(** Text that is not base64 of JSON loads as [None]. *)
Example load_corrupt_config :
  load_monzo_config
    {| keyring := {[ (MONZO_SERVICE, py "config") := py "not base64!" ]};
       sent := []; stdout := []; LOCAL_BANK_ACCOUNT_ID := PNone |} = PNone.
Proof. vm_compute. reflexivity. Qed.

(** ** The authorization code *)

Lemma clear_auth_code_spec w :
  clear_auth_code w
  = (Ok tt, set_keyring (delete (MONZO_SERVICE, py "auth_code")) w).
Proof.
  unfold clear_auth_code, delete_password.
  destruct (keyring w !! (MONZO_SERVICE, py "auth_code")) eqn:Hk; [reflexivity|].
  f_equal. destruct w as [k s o l]. unfold set_keyring. cbn [keyring] in *.
  f_equal. symmetry. apply delete_id, Hk.
Qed.

(** C7. When [exchange_auth_code] returns, the authorization code is no
    longer in the keyring; and clearing the code never raises: with no code
    stored it returns and leaves the world as it is. *)
Theorem exchange_deletes_auth_code E auth_code client_id client_secret w
  access_token w' :
  exchange_auth_code E auth_code client_id client_secret w = (Ok access_token, w') ->
  keyring w' !! (MONZO_SERVICE, py "auth_code") = None
  /\ get_auth_code w' = PNone
  /\ clear_auth_code w' = (Ok tt, w')
  /\ forall w0, fst (clear_auth_code w0) = Ok tt.
Proof.
  intros H.
  assert (keyring w' !! (MONZO_SERVICE, py "auth_code") = None) as Hgone.
  { unfold exchange_auth_code in H.
    destruct (negb (truthy (load_monzo_config w))); [discriminate|].
    destruct (send E _ w) as [[r|e] w1]; [|discriminate].
    destruct (_ <- raise_for_status r ;; _) as [[a t]|e]; [|discriminate].
    destruct (save_tokens a t w1) as [[[]|e] w2]; [|discriminate].
    rewrite clear_auth_code_spec in H. injection H as _ <-.
    unfold set_keyring. cbn [keyring]. apply lookup_delete_eq. }
  split; [exact Hgone|]. split; [unfold get_auth_code; rewrite Hgone; reflexivity|].
  split.
  - rewrite clear_auth_code_spec. f_equal.
    destruct w' as [k s o l]. unfold set_keyring. cbn [keyring] in *.
    f_equal. apply delete_id, Hgone.
  - intros w0. rewrite clear_auth_code_spec. reflexivity.
Qed.

Lemma exchange_deletes_auth_code_witness :
  get_auth_code Fixtures.authorizing = PStr (py "code-123")
  /\ let w' := snd (exchange_auth_code Fixtures.token_server (PStr (py "code-123"))
                      (PStr (py "oauth2client_0000")) (PStr (py "s3cret"))
                      Fixtures.authorizing) in
     keyring w' !! (MONZO_SERVICE, py "auth_code") = None
     /\ get_auth_code w' = PNone
     /\ clear_auth_code w' = (Ok tt, w')
     /\ forall w0, fst (clear_auth_code w0) = Ok tt.
Proof.
  split; [reflexivity|].
  apply (exchange_deletes_auth_code Fixtures.token_server (PStr (py "code-123"))
           (PStr (py "oauth2client_0000")) (PStr (py "s3cret"))
           Fixtures.authorizing (PStr (py "access-1"))).
  vm_compute. reflexivity.
Defined.

(* ===================================================================== *)
(** * Further properties: callback, tokens, console setup, [main] *)
(* ===================================================================== *)
(** ** String methods *)

Lemma split_no_sep sep s :
  forallb (fun c => negb (c =? sep)%N) s = true -> split sep s = [s].
Proof.
  induction s as [|c s IH]; [reflexivity|].
  cbn [forallb split]. intros [Hc Hs]%andb_true_iff.
  apply negb_true_iff in Hc. rewrite Hc, (IH Hs). reflexivity.
Qed.

Lemma split_app sep a b :
  forallb (fun c => negb (c =? sep)%N) a = true ->
  split sep (a ++ sep :: b) = a :: split sep b.
Proof.
  induction a as [|c a IH]; cbn [forallb app split].
  - intros _. rewrite N.eqb_refl. reflexivity.
  - intros [Hc Ha]%andb_true_iff. apply negb_true_iff in Hc.
    rewrite Hc, (IH Ha). reflexivity.
Qed.

Lemma split_length sep s :
  length (split sep s) = S (count_occ N.eq_dec s sep).
Proof.
  induction s as [|c s IH]; [reflexivity|].
  cbn [split count_occ]. destruct (N.eqb_spec c sep) as [->|Hne].
  - destruct (N.eq_dec sep sep); [|contradiction]. cbn [length]. rewrite IH. reflexivity.
  - destruct (N.eq_dec c sep); [contradiction|].
    destruct (split sep s); cbn [length] in *; [discriminate|exact IH].
Qed.

Lemma plain_no sep s :
  (sep = 63 \/ sep = 38 \/ sep = 61)%N ->
  plain s = true -> forallb (fun c => negb (c =? sep)%N) s = true.
Proof.
  intros Hsep. unfold plain. rewrite !forallb_forall. intros H c Hc.
  specialize (H c Hc). apply negb_true_iff in H. apply negb_true_iff.
  apply orb_false_iff in H as [H H3]. apply orb_false_iff in H as [H1 H2].
  destruct Hsep as [->|[->| ->]]; assumption.
Qed.

(** ** The callback handler *)

Lemma dict_get_set d k v k' :
  dict_get (dict_set d k v) k' = if pystr_eqb k k' then Some v else dict_get d k'.
Proof.
  induction d as [|[k0 v0] d IH]; cbn [dict_set dict_get].
  - reflexivity.
  - destruct (pystr_eqb k0 k) eqn:H0; cbn [dict_get].
    + apply bool_decide_eq_true in H0. subst k0.
      destruct (pystr_eqb k k'); reflexivity.
    + rewrite IH. destruct (pystr_eqb k0 k') eqn:H1; [|reflexivity].
      apply bool_decide_eq_true in H1. subst k0.
      rewrite JsonObjectFacts.pystr_eqb_sym, H0. reflexivity.
Qed.

Lemma split_query_string params :
  params <> [] -> plain_params params = true ->
  split 38 (query_string params)
  = map (fun kv => fst kv ++ 61%N :: snd kv) params.
Proof.
  induction params as [|[k v] params IH]; [congruence|]. intros _.
  cbn [plain_params forallb fst snd]. intros [[Hk Hv]%andb_true_iff Hp]%andb_true_iff.
  cbn [query_string map fst snd]. destruct params as [|kv params].
  - rewrite app_nil_r. apply split_no_sep.
    change (61%N :: v) with ([61%N] ++ v). rewrite !forallb_app.
    rewrite (plain_no 38 k), (plain_no 38 v) by auto. reflexivity.
  - change (k ++ 61%N :: v ++ 38%N :: query_string (kv :: params))
      with (k ++ [61%N] ++ v ++ 38%N :: query_string (kv :: params)).
    rewrite !app_assoc, split_app.
    + rewrite IH by (congruence || exact Hp). rewrite <- app_assoc. reflexivity.
    + rewrite !forallb_app.
      rewrite (plain_no 38 k), (plain_no 38 v) by auto. reflexivity.
Qed.

Lemma dict_of_pairs_params params : forall i acc,
  plain_params params = true ->
  dict_of_pairs i (map (split 61) (map (fun kv => fst kv ++ 61%N :: snd kv) params)) acc
  = inr (fold_left (fun a kv => dict_set a (fst kv) (PStr (snd kv))) params acc).
Proof.
  induction params as [|[k v] params IH]; intros i acc; [reflexivity|].
  cbn [plain_params forallb fst snd]. intros [[Hk Hv]%andb_true_iff Hp]%andb_true_iff.
  cbn [map fst snd fold_left].
  rewrite split_app by (apply plain_no; auto).
  rewrite split_no_sep by (apply plain_no; auto).
  cbn [dict_of_pairs]. apply IH, Hp.
Qed.

Lemma dict_get_params k params : forall acc,
  dict_get (fold_left (fun a kv => dict_set a (fst kv) (PStr (snd kv))) params acc) k
  = match last_value k params with
    | Some v => Some (PStr v)
    | None => dict_get acc k
    end.
Proof.
  induction params as [|[k' v] params IH]; intros acc; [reflexivity|].
  cbn [fold_left last_value fst snd]. rewrite IH.
  destruct (last_value k params); [reflexivity|].
  rewrite dict_get_set. destruct (pystr_eqb k' k); reflexivity.
Qed.

Lemma callback_code_params route params :
  forallb (fun c => negb (c =? 63)%N) route = true ->
  params <> [] -> plain_params params = true ->
  callback_code (route ++ 63%N :: query_string params)
  = match last_value (py "code") params with
    | Some auth_code => inr auth_code
    | None => inl CodeKeyError
    end.
Proof.
  intros Hroute Hne Hp. unfold callback_code, query_components.
  rewrite split_app by exact Hroute.
  assert (forallb (fun c => negb (c =? 63)%N) (query_string params) = true) as Hq.
  { clear Hne. induction params as [|[k v] params IH]; [reflexivity|].
    cbn [plain_params forallb fst snd] in Hp.
    apply andb_true_iff in Hp as [[Hk Hv]%andb_true_iff Hp].
    cbn [query_string]. change (61%N :: v ++ ?t) with ([61%N] ++ v ++ t).
    rewrite !forallb_app, (plain_no 63 k), (plain_no 63 v) by auto.
    cbn [forallb]. destruct params; [reflexivity|].
    cbn [forallb]. rewrite (IH Hp). reflexivity. }
  rewrite (split_no_sep _ _ Hq), split_query_string by assumption.
  rewrite dict_of_pairs_params by exact Hp.
  rewrite dict_get_params. destruct (last_value _ params); reflexivity.
Qed.

(** X1. A callback whose query is [k1=v1&...&kn=vn] is answered with the
    success page and status 200 when a parameter is named [code], and the
    value of the last such parameter is then the stored authorization code,
    as it was written in the path; with no such parameter the answer is the
    error page with status 400 and nothing is stored.  The part of the path
    before the [?] and the other parameters ([state]) play no role. *)
Theorem do_GET_stores_last_code route params w :
  forallb (fun c => negb (c =? 63)%N) route = true ->
  params <> [] ->
  plain_params params = true ->
  do_GET (route ++ 63%N :: query_string params) w
  = match last_value (py "code") params with
    | Some auth_code =>
        (page 200 success_message,
         set_keyring (fun k => <[(MONZO_SERVICE, py "auth_code") := auth_code]> k) w)
    | None => (page 400 (error_message CodeKeyError), w)
    end
  /\ forall auth_code,
      last_value (py "code") params = Some auth_code ->
      get_auth_code (snd (do_GET (route ++ 63%N :: query_string params) w))
      = PStr auth_code.
Proof.
  intros Hroute Hne Hp. unfold do_GET.
  rewrite callback_code_params by assumption.
  split.
  - destruct (last_value _ params); reflexivity.
  - intros auth_code ->. cbn [snd]. unfold get_auth_code, set_keyring.
    cbn [keyring]. rewrite lookup_insert_eq. reflexivity.
Qed.

Lemma do_GET_stores_last_code_witness :
  let path := py "/oauth?code=abc%3D&state=monzo_auth_state&code=xyz" in
  do_GET path Fixtures.world0
  = (page 200 success_message,
     set_keyring (fun k => <[(MONZO_SERVICE, py "auth_code") := py "xyz"]> k)
       Fixtures.world0)
  /\ get_auth_code (snd (do_GET path Fixtures.world0)) = PStr (py "xyz").
Proof.
  destruct (do_GET_stores_last_code (py "/oauth")
              [(py "code", py "abc%3D"); (py "state", py "monzo_auth_state");
               (py "code", py "xyz")] Fixtures.world0) as [H1 H2].
  - reflexivity.
  - discriminate.
  - reflexivity.
  - split; [exact H1|]. apply H2. reflexivity.
Defined.

Lemma dict_of_pairs_odd p pieces : forall i acc,
  In p pieces -> length p <> 2%nat ->
  exists j n, dict_of_pairs i pieces acc = inl (DictUpdateError j n).
Proof.
  induction pieces as [|q pieces IH]; intros i acc Hin Hlen; [destruct Hin|].
  destruct (Nat.eq_dec (length q) 2%nat) as [Hq|Hq].
  - destruct q as [|k [|v [|x q]]]; try discriminate Hq.
    cbn [dict_of_pairs]. destruct Hin as [<-|Hin]; [contradiction|].
    apply IH; assumption.
  - destruct q as [|k [|v [|x q]]]; cbn [dict_of_pairs]; eauto.
    contradiction.
Qed.

Lemma do_GET_malformed path w :
  malformed_callback path ->
  exists e, do_GET path w = (page 400 (error_message e), w).
Proof.
  intros [p Hp|route query p Hroute Hquery Hin Hcount]; unfold do_GET, callback_code,
    query_components.
  - rewrite split_no_sep by exact Hp. exists IndexError. reflexivity.
  - rewrite split_app, split_no_sep by assumption.
    destruct (dict_of_pairs_odd (split 61 p) (map (split 61) (split 38 query)) 0 [])
      as (j & n & ->).
    + apply in_map, Hin.
    + rewrite split_length. congruence.
    + eexists. reflexivity.
Qed.

(** X2. A callback without a query, or with a parameter that is not of the
    form [key=value] (no [=] sign, or more than one, as in a code that ends
    in padding), is answered with the error page and status 400, and the
    keyring stays as it was: a code stored earlier is still there, and
    [get_auth_code] gives what it gave before. *)
Theorem do_GET_refuses_malformed path w :
  malformed_callback path ->
  exists e,
    do_GET path w = (page 400 (error_message e), w)
    /\ get_auth_code (snd (do_GET path w)) = get_auth_code w.
Proof.
  intros H. destruct (do_GET_malformed path w H) as [e He].
  exists e. rewrite He. split; reflexivity.
Qed.

Lemma do_GET_refuses_malformed_witness :
  malformed_callback (py "/callback?code=YWJj==&state=monzo_auth_state")
  /\ exists e,
      do_GET (py "/callback?code=YWJj==&state=monzo_auth_state") Fixtures.authorizing
      = (page 400 (error_message e), Fixtures.authorizing)
      /\ get_auth_code
           (snd (do_GET (py "/callback?code=YWJj==&state=monzo_auth_state")
                   Fixtures.authorizing))
         = get_auth_code Fixtures.authorizing.
Proof.
  assert (malformed_callback (py "/callback?code=YWJj==&state=monzo_auth_state")) as H.
  { apply (odd_parameter (py "/callback") (py "code=YWJj==&state=monzo_auth_state")
             (py "code=YWJj==")).
    - reflexivity.
    - reflexivity.
    - left. reflexivity.
    - vm_compute. discriminate. }
  split; [exact H|].
  apply (do_GET_refuses_malformed _ Fixtures.authorizing H).
Defined.

Lemma digits_of_pos_ascii fuel : forall n acc,
  0 <= n ->
  Forall (fun c => (c < 128)%N) acc ->
  Forall (fun c => (c < 128)%N) (digits_of_pos fuel n acc).
Proof.
  induction fuel as [|fuel IH]; intros n acc Hn Hacc; cbn [digits_of_pos]; [exact Hacc|].
  assert (Forall (fun c => (c < 128)%N) (Z.to_N (48 + n mod 10) :: acc)) as H.
  { constructor; [|exact Hacc]. pose proof (Z.mod_pos_bound n 10). lia. }
  destruct (n <? 10); [exact H|].
  apply IH; [|exact H]. apply Z.div_pos; lia.
Qed.

Lemma str_of_nat_ascii n : Forall (fun c => (c < 128)%N) (str_of_int (Z.of_nat n)).
Proof.
  unfold str_of_int. destruct (Z.ltb_spec (Z.of_nat n) 0) as [H|H]; [lia|].
  apply digits_of_pos_ascii; [lia|constructor].
Qed.

Lemma utf8_encode_app a b x y :
  Utf8.encode a = Ok x -> Utf8.encode b = Ok y -> Utf8.encode (a ++ b) = Ok (x ++ y).
Proof.
  revert x. induction a as [|c a IH]; intros x; cbn [Utf8.encode app].
  - intros [= <-] Hb. exact Hb.
  - destruct (Utf8.encode_char c) as [bs|]; cbn [rbind]; [|discriminate].
    destruct (Utf8.encode a) as [rest|]; cbn [rbind]; [|discriminate].
    intros [= <-] Hb. rewrite (IH rest eq_refl Hb). cbn [rbind].
    rewrite <- app_assoc. reflexivity.
Qed.

(** The pages that [do_GET] sends can be encoded: [encoded] is their
    UTF-8 text. *)
Lemma pages_encode :
  Utf8.encode success_message = Ok (encoded success_message)
  /\ forall e, Utf8.encode (error_message e) = Ok (encoded (error_message e)).
Proof.
  split; [vm_compute; reflexivity|].
  intros e. unfold encoded.
  assert (exists data, Utf8.encode (callback_exn_str e) = Ok data) as [data He].
  { exists (callback_exn_str e). apply utf8_encode_ascii.
    destruct e as [|i n|]; cbn [callback_exn_str].
    - vm_compute. repeat constructor.
    - repeat apply Forall_app_2; try apply str_of_nat_ascii;
        vm_compute; repeat constructor.
    - vm_compute. repeat constructor. }
  unfold error_message.
  assert (exists x, Utf8.encode error_message_head = Ok x) as [x Hx]
    by (eexists; vm_compute; reflexivity).
  assert (exists y, Utf8.encode error_message_tail = Ok y) as [y Hy]
    by (eexists; vm_compute; reflexivity).
  rewrite (utf8_encode_app _ _ _ _ Hx (utf8_encode_app _ _ _ _ He Hy)).
  reflexivity.
Qed.

(** ** The credential store and the tokens *)

Lemma services_differ : MONETR_SERVICE <> MONZO_SERVICE.
Proof. intros H. vm_compute in H. discriminate H. Qed.

Lemma save_config_lookup service config w key :
  key <> (service, py "config") ->
  keyring (snd (save_config service config w)) !! key = keyring w !! key.
Proof.
  intros Hne. unfold save_config. destruct (encrypt_config config); [|reflexivity].
  cbn [snd]. unfold set_keyring. cbn [keyring]. apply lookup_insert_ne. congruence.
Qed.

Lemma save_config_frame service config w :
  sent (snd (save_config service config w)) = sent w
  /\ LOCAL_BANK_ACCOUNT_ID (snd (save_config service config w)) = LOCAL_BANK_ACCOUNT_ID w
  /\ stdout (snd (save_config service config w)) = stdout w.
Proof.
  unfold save_config. destruct (encrypt_config config); repeat split.
Qed.

(** X3. The two configurations and the authorization code are stored
    apart: saving one configuration changes neither what the other one
    loads as nor the stored code. *)
Theorem stores_are_independent config w :
  load_monzo_config (snd (save_monetr_config config w)) = load_monzo_config w
  /\ load_monetr_config (snd (save_monzo_config config w)) = load_monetr_config w
  /\ get_auth_code (snd (save_monetr_config config w)) = get_auth_code w
  /\ get_auth_code (snd (save_monzo_config config w)) = get_auth_code w.
Proof.
  unfold load_monzo_config, load_monetr_config, save_monetr_config,
    save_monzo_config, load_config, get_auth_code.
  assert ((MONZO_SERVICE, py "config") <> (MONETR_SERVICE, py "config")) as H1.
  { intros H. apply (f_equal fst) in H. vm_compute in H. discriminate H. }
  assert ((MONETR_SERVICE, py "config") <> (MONZO_SERVICE, py "config")) as H2.
  { intros H. apply (f_equal fst) in H. vm_compute in H. discriminate H. }
  assert (forall service, (MONZO_SERVICE, py "auth_code") <> (service, py "config"))
    as H3.
  { intros service H. apply (f_equal snd) in H. vm_compute in H. discriminate H. }
  rewrite (save_config_lookup _ _ _ _ H1), (save_config_lookup _ _ _ _ H2),
    !(save_config_lookup _ _ _ _ (H3 _)).
  repeat split.
Qed.

Lemma forallb_dict_set (P : pystr -> bool) d k v :
  P k = true ->
  forallb (fun kv => P (fst kv)) d = true ->
  forallb (fun kv => P (fst kv)) (dict_set d k v) = true.
Proof.
  intros Hk. induction d as [|[k0 v0] d IH]; cbn [dict_set forallb fst].
  - rewrite Hk. reflexivity.
  - intros [H0 Hd]%andb_true_iff. destruct (pystr_eqb k0 k); cbn [forallb fst].
    + rewrite H0, Hd. reflexivity.
    + rewrite H0, (IH Hd). reflexivity.
Qed.

Lemma config_items_dict_set d k v :
  valid_str k = true -> config_value v = true -> config_items d = true ->
  config_items (dict_set d k v) = true.
Proof.
  intros Hk Hv. induction d as [|[k0 v0] d IH]; cbn [dict_set].
  - intros _. cbn [config_items forallb]. rewrite Hk, Hv. reflexivity.
  - intros (Hk0 & Hv0 & Hfresh & Hd)%JsonObjectFacts.config_items_cons.
    destruct (pystr_eqb k0 k) eqn:Heq; cbn [config_items].
    + rewrite Hk0, Hv, Hfresh, Hd. reflexivity.
    + rewrite Hk0, Hv0, (IH Hd), andb_true_r. cbn [andb].
      apply (forallb_dict_set (fun x => negb (pystr_eqb x k0))); [|exact Hfresh].
      rewrite JsonObjectFacts.pystr_eqb_sym, Heq. reflexivity.
Qed.

Lemma dict_set_nonempty d k v : dict_set d k v <> [].
Proof. destruct d as [|[k0 v0] d]; cbn [dict_set]; [|destruct (pystr_eqb k0 k)]; discriminate. Qed.

(** Saving a configuration blob under a service and loading it. *)
Lemma save_config_load service d w :
  config_items d = true ->
  exists encrypted_data,
    encrypt_config (PDict d) = Ok encrypted_data
    /\ save_config service (PDict d) w
       = (Ok tt, set_keyring (fun k => <[(service, py "config") := encrypted_data]> k) w)
    /\ load_config service
         (set_keyring (fun k => <[(service, py "config") := encrypted_data]> k) w)
       = PDict d.
Proof.
  intros Hd. destruct (decrypt_encrypt_config d Hd) as (enc & He & Hne & Hdec).
  exists enc. split; [exact He|]. unfold save_config. rewrite He. split; [reflexivity|].
  rewrite load_config_lookup. unfold set_keyring. cbn [keyring].
  rewrite lookup_insert_eq. destruct enc; [congruence|exact Hdec].
Qed.

(** What [save_tokens] does to a stored configuration blob. *)
Lemma save_tokens_stored d access_token refresh_token w :
  load_monzo_config w = PDict d -> d <> [] -> config_items d = true ->
  config_value access_token = true -> config_value refresh_token = true ->
  let d' := dict_set (dict_set d (py "access_token") access_token)
              (py "refresh_token") refresh_token in
  exists encrypted_data,
    save_tokens access_token refresh_token w
    = (Ok tt, set_keyring (fun k => <[(MONZO_SERVICE, py "config") := encrypted_data]> k) w)
    /\ load_monzo_config
         (set_keyring (fun k => <[(MONZO_SERVICE, py "config") := encrypted_data]> k) w)
       = PDict d'.
Proof.
  intros Hload Hne Hd Ha Hr d'.
  assert (config_items d' = true) as Hd'.
  { unfold d'. repeat apply config_items_dict_set; auto. }
  destruct (save_config_load MONZO_SERVICE d' w Hd') as (enc & He & Hsave & Hl).
  exists enc. unfold save_tokens. rewrite Hload.
  destruct d as [|kv d]; [congruence|]. cbn [truthy setitem rbind].
  split; [exact Hsave|exact Hl].
Qed.

Lemma save_tokens_load d access_token refresh_token w :
  load_monzo_config w = PDict d ->
  d <> [] ->
  config_items d = true ->
  config_value access_token = true ->
  config_value refresh_token = true ->
  exists w' d',
    save_tokens access_token refresh_token w = (Ok tt, w')
    /\ load_saved_tokens w' = Ok access_token
    /\ load_monzo_config w' = PDict d'
    /\ dict_get d' (py "refresh_token") = Some refresh_token
    /\ (forall k, k <> py "access_token" -> k <> py "refresh_token" ->
          dict_get d' k = dict_get d k)
    /\ load_monetr_config w' = load_monetr_config w
    /\ get_auth_code w' = get_auth_code w.
Proof.
  intros Hload Hne Hd Ha Hr.
  destruct (save_tokens_stored d access_token refresh_token w Hload Hne Hd Ha Hr)
    as (enc & Hsave & Hl).
  eexists _, _. split; [exact Hsave|].
  split; [|split; [exact Hl|split; [|split; [|split]]]].
  - unfold load_saved_tokens. rewrite Hl.
    pose proof (dict_set_nonempty (dict_set d (py "access_token") access_token)
                  (py "refresh_token") refresh_token) as Hn.
    destruct (dict_set (dict_set d _ _) _ _) eqn:Hset; [congruence|].
    cbn [truthy get_method]. rewrite <- Hset, !dict_get_set. reflexivity.
  - rewrite dict_get_set. reflexivity.
  - intros k Hk1 Hk2. rewrite !dict_get_set. unfold pystr_eqb.
    rewrite !bool_decide_eq_false_2 by congruence. reflexivity.
  - unfold load_monetr_config, load_config, set_keyring. cbn [keyring].
    rewrite lookup_insert_ne; [reflexivity|].
    intros H. apply (f_equal fst) in H. vm_compute in H. discriminate H.
  - unfold get_auth_code, set_keyring. cbn [keyring].
    rewrite lookup_insert_ne; [reflexivity|].
    intros H. apply (f_equal snd) in H. vm_compute in H. discriminate H.
Qed.

(** X4. With a configuration stored, [save_tokens] followed by
    [load_saved_tokens] gives the access token back; the refresh token is
    stored beside it, and the other entries of the configuration, the
    client id and secret, are kept, as are the other configuration and the
    authorization code. *)
Theorem save_tokens_then_load d access_token refresh_token w :
  load_monzo_config w = PDict d ->
  d <> [] ->
  config_items d = true ->
  config_value access_token = true ->
  config_value refresh_token = true ->
  exists w' d',
    save_tokens access_token refresh_token w = (Ok tt, w')
    /\ load_saved_tokens w' = Ok access_token
    /\ load_monzo_config w' = PDict d'
    /\ dict_get d' (py "refresh_token") = Some refresh_token
    /\ (forall k, k <> py "access_token" -> k <> py "refresh_token" ->
          dict_get d' k = dict_get d k)
    /\ load_monetr_config w' = load_monetr_config w
    /\ get_auth_code w' = get_auth_code w.
Proof. apply save_tokens_load. Qed.

Lemma save_tokens_then_load_witness :
  exists w' d',
    save_tokens (PStr (py "access-2")) (PStr (py "refresh-2")) Fixtures.authorizing
    = (Ok tt, w')
    /\ load_saved_tokens w' = Ok (PStr (py "access-2"))
    /\ load_monzo_config w' = PDict d'
    /\ dict_get d' (py "refresh_token") = Some (PStr (py "refresh-2"))
    /\ (forall k, k <> py "access_token" -> k <> py "refresh_token" ->
          dict_get d' k = dict_get Fixtures.monzo_config k)
    /\ load_monetr_config w' = load_monetr_config Fixtures.authorizing
    /\ get_auth_code w' = get_auth_code Fixtures.authorizing.
Proof.
  apply (save_tokens_then_load Fixtures.monzo_config).
  - vm_compute. reflexivity.
  - discriminate.
  - reflexivity.
  - reflexivity.
  - reflexivity.
Defined.

(** ** Exchanging and refreshing tokens *)

Lemma send_keyring E req w : keyring (snd (send E req w)) = keyring w.
Proof. unfold send. destruct (net E (sent w) req); reflexivity. Qed.

Lemma send_responded E req w r :
  net E (sent w) req = Responded r ->
  exists w1, send E req w = (Ok r, w1)
             /\ keyring w1 = keyring w /\ sent w1 = sent w ++ [req]
             /\ LOCAL_BANK_ACCOUNT_ID w1 = LOCAL_BANK_ACCOUNT_ID w.
Proof. intros H. unfold send. rewrite H. eexists. repeat split. Qed.

Lemma save_tokens_failure access_token refresh_token w e w' :
  save_tokens access_token refresh_token w = (Raise e, w') -> w' = w.
Proof.
  unfold save_tokens. destruct (truthy (load_monzo_config w)); [|discriminate].
  destruct (c1 <- setitem _ _ _ ;; _) as [c2|]; [|congruence].
  unfold save_monzo_config, save_config. destruct (encrypt_config c2); congruence.
Qed.

(** X5. When [exchange_auth_code] or [refresh_access_token] raises, the
    keyring is as it was before the call: no token has been stored and the
    authorization code has not been deleted; one request at most has been
    sent. *)
Theorem token_call_failure_keeps_keyring E client_id client_secret v w e w' :
  exchange_auth_code E v client_id client_secret w = (Raise e, w')
  \/ refresh_access_token E client_id client_secret v w = (Raise e, w') ->
  keyring w' = keyring w
  /\ (sent w' = sent w \/ exists data, sent w' = sent w ++ [TokenRequest data]).
Proof.
  intros [H|H].
  - unfold exchange_auth_code in H.
    destruct (negb (truthy (load_monzo_config w))); [injection H as _ <-; auto|].
    pose proof (send_keyring E (authorization_code_grant client_id client_secret v) w) as Hk.
    pose proof (send_sent E (authorization_code_grant client_id client_secret v) w) as Hs.
    unfold authorization_code_grant in Hk, Hs.
    destruct (send E _ w) as [[r|x] w1]; cbn [snd] in Hk, Hs;
      [|injection H as _ <-; eauto].
    destruct (_ <- raise_for_status r ;; _) as [[a t]|x];
      [|injection H as _ <-; eauto].
    destruct (save_tokens a t w1) as [[[]|x] w2] eqn:Hsave.
    + rewrite clear_auth_code_spec in H. discriminate H.
    + apply save_tokens_failure in Hsave. injection H as _ <-. subst w2. eauto.
  - unfold refresh_access_token in H.
    pose proof (send_keyring E (refresh_token_grant client_id client_secret v) w) as Hk.
    pose proof (send_sent E (refresh_token_grant client_id client_secret v) w) as Hs.
    unfold refresh_token_grant in Hk, Hs.
    destruct (send E _ w) as [[r|x] w1]; cbn [snd] in Hk, Hs;
      [|injection H as _ <-; eauto].
    destruct (tokens <- json_of r ;; _) as [[a t]|x];
      [|injection H as _ <-; eauto].
    destruct (save_tokens a t w1) as [[[]|x] w2] eqn:Hsave; [discriminate H|].
    apply save_tokens_failure in Hsave. injection H as _ <-. subst w2. eauto.
Qed.

Lemma token_call_failure_keeps_keyring_witness :
  let w' := snd (exchange_auth_code Fixtures.refused (PStr (py "code-123"))
                   (PStr (py "oauth2client_0000")) (PStr (py "s3cret"))
                   Fixtures.authorizing) in
  keyring w' = keyring Fixtures.authorizing
  /\ (sent w' = sent Fixtures.authorizing
      \/ exists data, sent w' = sent Fixtures.authorizing ++ [TokenRequest data]).
Proof.
  apply (token_call_failure_keeps_keyring Fixtures.refused
           (PStr (py "oauth2client_0000")) (PStr (py "s3cret")) (PStr (py "code-123"))
           Fixtures.authorizing
           (HTTPError (py "401 Client Error: Unauthorized for url: http://localhost:4000/api"))).
  left. vm_compute. reflexivity.
Defined.

Lemma grants_read E r access_token refresh_token :
  grants E r access_token refresh_token ->
  (tokens <- json_of r ;;
   expires_in <- getitem tokens (py "expires_in") ;;
   seconds <- as_int expires_in ;;
   _ <- (if expiry_in_range E seconds then Ok tt else Raise OverflowError) ;;
   access_token <- getitem tokens (py "access_token") ;;
   refresh_token <- getitem tokens (py "refresh_token") ;;
   Ok (access_token, refresh_token)) = Ok (access_token, refresh_token).
Proof.
  intros (tokens & seconds & Hj & He & Hr & Ha & Ht).
  unfold json_of. rewrite Hj. cbn [rbind getitem]. rewrite He. cbn [rbind as_int].
  rewrite Hr. cbn [rbind]. rewrite Ha. cbn [rbind]. rewrite Ht. reflexivity.
Qed.

(** X6. [refresh_access_token] does not look at the status of the answer:
    whatever the status code, an answer whose body grants a pair of tokens
    makes it store the pair in the stored configuration and return the
    access token, which [load_saved_tokens] then gives. *)
Theorem refresh_ignores_status E client_id client_secret refresh_token w r d
  access_token new_refresh_token :
  net E (sent w) (refresh_token_grant client_id client_secret refresh_token)
  = Responded r ->
  grants E r access_token new_refresh_token ->
  load_monzo_config w = PDict d ->
  d <> [] ->
  config_items d = true ->
  config_value access_token = true ->
  config_value new_refresh_token = true ->
  exists w' d',
    refresh_access_token E client_id client_secret refresh_token w
    = (Ok access_token, w')
    /\ load_saved_tokens w' = Ok access_token
    /\ load_monzo_config w' = PDict d'
    /\ dict_get d' (py "refresh_token") = Some new_refresh_token
    /\ sent w'
       = sent w ++ [refresh_token_grant client_id client_secret refresh_token].
Proof.
  intros Hnet Hg Hload Hne Hd Ha Hr.
  destruct (send_responded _ _ _ _ Hnet) as (w1 & Hsend & Hk & Hs & _).
  assert (load_monzo_config w1 = PDict d) as Hload1.
  { unfold load_monzo_config, load_config in *. rewrite Hk. exact Hload. }
  destruct (save_tokens_load d access_token new_refresh_token w1
              Hload1 Hne Hd Ha Hr)
    as (w' & d' & Hsave & Hsaved & Hl & Hrt & _ & _ & _).
  exists w', d'. unfold refresh_access_token.
  unfold refresh_token_grant in Hsend. rewrite Hsend.
  rewrite (grants_read _ _ _ _ Hg), Hsave.
  repeat split; try assumption.
  unfold save_tokens in Hsave. rewrite Hload1 in Hsave.
  destruct d as [|kv d0]; [congruence|]. cbn [truthy setitem rbind] in Hsave.
  pose proof (save_config_frame MONZO_SERVICE
                (PDict (dict_set (dict_set (kv :: d0) (py "access_token") access_token)
                          (py "refresh_token") new_refresh_token)) w1) as (Hf & _).
  unfold save_monzo_config in Hsave. rewrite Hsave in Hf. cbn [snd] in Hf.
  rewrite Hf. exact Hs.
Qed.

Lemma refresh_ignores_status_witness :
  exists w' d',
    refresh_access_token (Cases.granting 503 (py "Service Unavailable")) (PStr (py "oauth2client_0000"))
      (PStr (py "s3cret")) (PStr (py "refresh-1")) Fixtures.authorizing
    = (Ok (PStr (py "access-2")), w')
    /\ load_saved_tokens w' = Ok (PStr (py "access-2"))
    /\ load_monzo_config w' = PDict d'
    /\ dict_get d' (py "refresh_token") = Some (PStr (py "refresh-2"))
    /\ sent w'
       = sent Fixtures.authorizing
           ++ [refresh_token_grant (PStr (py "oauth2client_0000"))
                 (PStr (py "s3cret")) (PStr (py "refresh-1"))].
Proof.
  eapply (refresh_ignores_status (Cases.granting 503 (py "Service Unavailable")) _ _ _ Fixtures.authorizing _
            Fixtures.monzo_config).
  - reflexivity.
  - eexists _, _. repeat split.
  - vm_compute. reflexivity.
  - discriminate.
  - reflexivity.
  - reflexivity.
  - reflexivity.
Defined.

(** X7. With a configuration stored, an answer of the token endpoint that
    is no error and grants a pair of tokens makes [exchange_auth_code]
    return the access token and leave the keyring with the pair stored in
    the configuration, where [load_saved_tokens] finds the access token,
    and without the authorization code. *)
Theorem exchange_then_load_saved_tokens E client_id client_secret auth_code w r d
  access_token refresh_token :
  net E (sent w) (authorization_code_grant client_id client_secret auth_code)
  = Responded r ->
  raise_for_status r = Ok tt ->
  grants E r access_token refresh_token ->
  load_monzo_config w = PDict d ->
  d <> [] ->
  config_items d = true ->
  config_value access_token = true ->
  config_value refresh_token = true ->
  exists w' d',
    exchange_auth_code E auth_code client_id client_secret w = (Ok access_token, w')
    /\ load_saved_tokens w' = Ok access_token
    /\ load_monzo_config w' = PDict d'
    /\ dict_get d' (py "refresh_token") = Some refresh_token
    /\ dict_get d' (py "client_id") = dict_get d (py "client_id")
    /\ dict_get d' (py "client_secret") = dict_get d (py "client_secret")
    /\ get_auth_code w' = PNone.
Proof.
  intros Hnet Hstatus Hg Hload Hne Hd Ha Hr.
  destruct (send_responded _ _ _ _ Hnet) as (w1 & Hsend & Hk & Hs & _).
  assert (load_monzo_config w1 = PDict d) as Hload1.
  { unfold load_monzo_config, load_config in *. rewrite Hk. exact Hload. }
  destruct (save_tokens_load d access_token refresh_token w1
              Hload1 Hne Hd Ha Hr)
    as (w2 & d' & Hsave & Hsaved & Hl & Hrt & Hother & _ & _).
  exists (set_keyring (delete (MONZO_SERVICE, py "auth_code")) w2), d'.
  assert (forall w0, load_monzo_config
                       (set_keyring (delete (MONZO_SERVICE, py "auth_code")) w0)
                     = load_monzo_config w0) as Hdel.
  { intros w0. unfold load_monzo_config, load_config, set_keyring. cbn [keyring].
    rewrite lookup_delete_ne; [reflexivity|].
    intros H. apply (f_equal snd) in H. vm_compute in H. discriminate H. }
  unfold exchange_auth_code. rewrite Hload.
  destruct d as [|kv d0]; [congruence|]. cbn [truthy negb].
  unfold authorization_code_grant in Hsend. rewrite Hsend, Hstatus. cbn [rbind].
  rewrite (grants_read _ _ _ _ Hg), Hsave, clear_auth_code_spec.
  split; [reflexivity|]. split; [|split; [|split; [|split; [|split]]]].
  - unfold load_saved_tokens in *. rewrite Hdel. exact Hsaved.
  - rewrite Hdel. exact Hl.
  - exact Hrt.
  - apply Hother; intros H; vm_compute in H; discriminate H.
  - apply Hother; intros H; vm_compute in H; discriminate H.
  - unfold get_auth_code, set_keyring. cbn [keyring].
    rewrite lookup_delete_eq. reflexivity.
Qed.

Lemma exchange_then_load_saved_tokens_witness :
  exists w' d',
    exchange_auth_code Fixtures.token_server (PStr (py "code-123"))
      (PStr (py "oauth2client_0000")) (PStr (py "s3cret")) Fixtures.authorizing
    = (Ok (PStr (py "access-1")), w')
    /\ load_saved_tokens w' = Ok (PStr (py "access-1"))
    /\ load_monzo_config w' = PDict d'
    /\ dict_get d' (py "refresh_token") = Some (PStr (py "refresh-1"))
    /\ dict_get d' (py "client_id") = dict_get Fixtures.monzo_config (py "client_id")
    /\ dict_get d' (py "client_secret")
       = dict_get Fixtures.monzo_config (py "client_secret")
    /\ get_auth_code w' = PNone.
Proof.
  eapply (exchange_then_load_saved_tokens Fixtures.token_server _ _ _
            Fixtures.authorizing _ Fixtures.monzo_config).
  - reflexivity.
  - reflexivity.
  - eexists _, _. repeat split.
  - vm_compute. reflexivity.
  - discriminate.
  - reflexivity.
  - reflexivity.
  - reflexivity.
Defined.

(** X8. With no configuration stored (or an undecodable one), the two token
    calls part ways: [exchange_auth_code] raises before it sends anything,
    while [refresh_access_token] sends its request and, given a pair of
    tokens, returns the access token although [save_tokens] has stored
    nothing: the keyring is unchanged and [load_saved_tokens] still gives
    [None]. *)
Theorem token_calls_without_configuration E client_id client_secret v w r
  access_token refresh_token :
  truthy (load_monzo_config w) = false ->
  net E (sent w) (refresh_token_grant client_id client_secret v) = Responded r ->
  grants E r access_token refresh_token ->
  exchange_auth_code E v client_id client_secret w
  = (Raise (Exception_ (py "Monzo configuration not found")), w)
  /\ exists w',
      refresh_access_token E client_id client_secret v w = (Ok access_token, w')
      /\ keyring w' = keyring w
      /\ load_saved_tokens w' = Ok PNone.
Proof.
  intros Hnone Hnet Hg. split.
  - unfold exchange_auth_code. rewrite Hnone. reflexivity.
  - destruct (send_responded _ _ _ _ Hnet) as (w1 & Hsend & Hk & _).
    assert (load_monzo_config w1 = load_monzo_config w) as Hload1.
    { unfold load_monzo_config, load_config. rewrite Hk. reflexivity. }
    exists w1. unfold refresh_access_token.
    unfold refresh_token_grant in Hsend. rewrite Hsend, (grants_read _ _ _ _ Hg).
    unfold save_tokens, load_saved_tokens. rewrite Hload1, Hnone. auto.
Qed.

Lemma token_calls_without_configuration_witness :
  exchange_auth_code (Cases.granting 200 (py "OK")) (PStr (py "refresh-1"))
    (PStr (py "oauth2client_0000")) (PStr (py "s3cret")) Cases.started
  = (Raise (Exception_ (py "Monzo configuration not found")), Cases.started)
  /\ exists w',
      refresh_access_token (Cases.granting 200 (py "OK")) (PStr (py "oauth2client_0000"))
        (PStr (py "s3cret")) (PStr (py "refresh-1")) Cases.started
      = (Ok (PStr (py "access-2")), w')
      /\ keyring w' = keyring Cases.started
      /\ load_saved_tokens w' = Ok PNone.
Proof.
  eapply (token_calls_without_configuration (Cases.granting 200 (py "OK"))).
  - reflexivity.
  - reflexivity.
  - eexists _, _. repeat split.
Defined.

(** ** Waiting for the approval *)

Lemma get_accounts_frame E access_token w :
  sent (snd (get_accounts E access_token w)) = sent w ++ [AccountsRequest access_token]
  /\ keyring (snd (get_accounts E access_token w)) = keyring w
  /\ LOCAL_BANK_ACCOUNT_ID (snd (get_accounts E access_token w))
     = LOCAL_BANK_ACCOUNT_ID w.
Proof.
  unfold get_accounts.
  pose proof (send_sent E (AccountsRequest access_token) w) as Hs.
  pose proof (send_keyring E (AccountsRequest access_token) w) as Hk.
  pose proof (send_LOCAL_BANK_ACCOUNT_ID E (AccountsRequest access_token) w) as Hl.
  destruct (send E _ w) as [[r|e] w1]; cbn [snd] in *; auto.
Qed.

(** X9. An answer [yes] confirms the approval whenever the accounts
    endpoint answers with a JSON object, whatever its status code: the
    answer of a provider that refuses the call (403 with an error object)
    confirms it as well.  One request is sent. *)
Theorem approval_confirmed_whatever_the_status U E access_token line stdin w r d :
  answers U "yes" line = true ->
  net E (sent w) (AccountsRequest access_token) = Responded r ->
  resp_json r = Some (PDict d) ->
  exists w',
    wait_for_app_approval U E access_token (line :: stdin) w = (Done true, stdin, w')
    /\ sent w' = sent w ++ [AccountsRequest access_token]
    /\ keyring w' = keyring w.
Proof.
  intros Hyes Hnet Hjson. cbn [wait_for_app_approval]. rewrite Hyes.
  destruct (send_responded _ _ _ _ Hnet) as (w1 & Hsend & Hk & Hs & _).
  unfold get_accounts, json_of. rewrite Hsend, Hjson. cbn [rbind get_method].
  exists w1. auto.
Qed.

Lemma approval_confirmed_whatever_the_status_witness :
  let E := Fixtures.always
             (Responded
                (Fixtures.reply 403 (py "Forbidden") (py "")
                   (Some (PDict [(py "code",
                                  PStr (py "forbidden.insufficient_permissions"))])))) in
  exists w',
    wait_for_app_approval (fun s => s) E (PStr (py "access-1"))
      [py " YES "; py "exit"] Cases.started
    = (Done true, [py "exit"], w')
    /\ sent w' = sent Cases.started ++ [AccountsRequest (PStr (py "access-1"))]
    /\ keyring w' = keyring Cases.started.
Proof.
  intros E.
  eapply (approval_confirmed_whatever_the_status (fun s => s) E).
  - reflexivity.
  - reflexivity.
  - reflexivity.
Defined.

(** X10. [wait_for_app_approval] consumes answers up to the one that ends
    it, sends one accounts request for each [yes] among them and nothing
    else, and leaves the keyring alone.  It returns [True] on a [yes], and
    [False] on an [exit] only; when the answers run out, [EOFError] leaves
    it. *)
Theorem approval_asks_once_per_yes U E access_token stdin w :
  let '(o, rest, w') := wait_for_app_approval U E access_token stdin w in
  exists used,
    stdin = used ++ rest
    /\ sent w'
       = sent w ++ repeat (AccountsRequest access_token)
                     (length (List.filter (answers U "yes") used))
    /\ keyring w' = keyring w
    /\ match o with
       | Done true => exists l x, used = l ++ [x] /\ answers U "yes" x = true
       | Done false =>
           exists l x, used = l ++ [x] /\ answers U "exit" x = true
                       /\ answers U "yes" x = false
       | EndOfInput => rest = []
       | Failed _ => False
       end.
Proof.
  revert w. induction stdin as [|line stdin IH]; intros w; cbn [wait_for_app_approval].
  - exists []. cbn. rewrite app_nil_r. auto.
  - destruct (answers U "yes" line) eqn:Hyes.
    + pose proof (get_accounts_frame E access_token w) as (Hs & Hk & _).
      destruct (get_accounts E access_token w) as [[v|e] w1]; cbn [snd] in Hs, Hk.
      * exists [line]. cbn [app List.filter]. rewrite Hyes. cbn [length repeat].
        repeat split; auto. exists [], line. auto.
      * specialize (IH w1).
        destruct (wait_for_app_approval U E access_token stdin w1) as [[o rest] w'].
        destruct IH as (used & -> & Hs' & Hk' & Ho).
        exists (line :: used). cbn [app List.filter]. rewrite Hyes. cbn [length repeat].
        split; [reflexivity|]. split; [|split].
        -- rewrite Hs', Hs, <- app_assoc. reflexivity.
        -- congruence.
        -- destruct o as [[|]| |]; auto.
           ++ destruct Ho as (l & x & -> & Hx). exists (line :: l), x. auto.
           ++ destruct Ho as (l & x & -> & Hx). exists (line :: l), x. auto.
    + assert (let '(o, rest, w') := wait_for_app_approval U E access_token stdin w in
              exists used,
                line :: stdin = used ++ rest
                /\ sent w'
                   = sent w ++ repeat (AccountsRequest access_token)
                                 (length (List.filter (answers U "yes") used))
                /\ keyring w' = keyring w
                /\ match o with
                   | Done true => exists l x, used = l ++ [x] /\ answers U "yes" x = true
                   | Done false =>
                       exists l x, used = l ++ [x] /\ answers U "exit" x = true
                                   /\ answers U "yes" x = false
                   | EndOfInput => rest = []
                   | Failed _ => False
                   end) as Hloop.
      { specialize (IH w).
        destruct (wait_for_app_approval U E access_token stdin w) as [[o rest] w'].
        destruct IH as (used & -> & Hs' & Hk' & Ho).
        exists (line :: used). cbn [app List.filter]. rewrite Hyes.
        split; [reflexivity|]. split; [exact Hs'|]. split; [exact Hk'|].
        destruct o as [[|]| |]; auto.
        - destruct Ho as (l & x & -> & Hx). exists (line :: l), x. auto.
        - destruct Ho as (l & x & -> & Hx). exists (line :: l), x. auto. }
      destruct (answers U "no" line); [exact Hloop|].
      destruct (answers U "exit" line) eqn:Hexit; [|exact Hloop].
      exists [line]. cbn [app List.filter]. rewrite Hyes. cbn [length repeat].
      rewrite app_nil_r. repeat split. exists [], line. auto.
Qed.

(** ** Setting up the configurations at the console *)

Lemma forallb_lstrip (P : N -> bool) s :
  forallb P s = true -> forallb P (lstrip s) = true.
Proof.
  induction s as [|c s IH]; [reflexivity|]. cbn [lstrip].
  destruct (isspace c); [|auto]. cbn [forallb]. intros [_ H]%andb_true_iff. auto.
Qed.

Lemma forallb_rev (P : N -> bool) s : forallb P (rev s) = forallb P s.
Proof.
  induction s as [|c s IH]; [reflexivity|].
  cbn [rev forallb]. rewrite forallb_app, IH. cbn [forallb].
  rewrite andb_true_r. apply andb_comm.
Qed.

Lemma valid_str_strip s : valid_str s = true -> valid_str (strip s) = true.
Proof.
  unfold valid_str, strip. intros H.
  rewrite forallb_rev. apply forallb_lstrip. rewrite forallb_rev.
  apply forallb_lstrip, H.
Qed.

Lemma lstrip_char_head ch s :
  match lstrip_char ch s with
  | c :: _ => c <> ch
  | [] => True
  end.
Proof.
  induction s as [|c s IH]; cbn [lstrip_char]; [exact I|].
  destruct (N.eqb_spec c ch); [exact IH|assumption].
Qed.

(** [rstrip] leaves no separator at the end. *)
Lemma rstrip_char_end ch s p : rstrip_char ch s <> p ++ [ch].
Proof.
  unfold rstrip_char. intros H. apply (f_equal (@rev N)) in H.
  rewrite rev_involutive, rev_app_distr in H. cbn [rev app] in H.
  pose proof (lstrip_char_head ch (rev s)) as Hh. rewrite H in Hh. congruence.
Qed.

(** X11. When [setup_monzo_config] returns, the configuration it has
    stored holds the client id and secret as typed, without the white
    space around them, and no tokens: whatever was stored before,
    [load_saved_tokens] gives [None] afterwards. *)
Theorem setup_monzo_config_resets_tokens id_line secret_line stdin w :
  (load_monzo_config w = PNone \/ exists d, load_monzo_config w = PDict d) ->
  strip id_line <> [] ->
  valid_str id_line = true ->
  valid_str secret_line = true ->
  exists w',
    let config := PDict [(py "client_id", PStr (strip id_line));
                         (py "client_secret", PStr (strip secret_line));
                         (py "access_token", PNone);
                         (py "refresh_token", PNone)] in
    setup_monzo_config (id_line :: secret_line :: stdin) w = (Done config, stdin, w')
    /\ load_monzo_config w' = config
    /\ load_saved_tokens w' = Ok PNone.
Proof.
  intros Hstored Hid Hvid Hvsecret.
  assert (exists dflt, default_of (load_monzo_config w) (py "client_id") (PStr [])
                       = Ok dflt) as [dflt Hdflt].
  { unfold default_of. destruct Hstored as [->|[d ->]]; [eexists; reflexivity|].
    destruct (truthy (PDict d)); eexists; reflexivity. }
  unfold setup_monzo_config. rewrite Hdflt.
  unfold typed_or. destruct (strip id_line) as [|c s] eqn:Hs; [congruence|].
  rewrite <- Hs.
  destruct (save_config_load MONZO_SERVICE
              [(py "client_id", PStr (strip id_line));
               (py "client_secret", PStr (strip secret_line));
               (py "access_token", PNone);
               (py "refresh_token", PNone)] w) as (enc & _ & Hsave & Hload).
  { cbn [config_items config_value forallb fst].
    rewrite !valid_str_strip by assumption. vm_compute. reflexivity. }
  unfold save_monzo_config. rewrite Hsave. eexists. cbv zeta.
  split; [reflexivity|]. split; [exact Hload|].
  unfold load_saved_tokens, load_monzo_config. rewrite Hload. reflexivity.
Qed.

Lemma setup_monzo_config_resets_tokens_witness :
  let stored :=
    snd (save_monzo_config
           (PDict [(py "client_id", PStr (py "oauth2client_0000"));
                   (py "client_secret", PStr (py "s3cret"));
                   (py "access_token", PStr (py "access-1"));
                   (py "refresh_token", PStr (py "refresh-1"))]) Cases.started) in
  load_saved_tokens stored = Ok (PStr (py "access-1"))
  /\ exists w',
      setup_monzo_config [py " oauth2client_0001 "; py "t0psecret"] stored
      = (Done (PDict [(py "client_id", PStr (py "oauth2client_0001"));
                      (py "client_secret", PStr (py "t0psecret"));
                      (py "access_token", PNone);
                      (py "refresh_token", PNone)]), [], w')
      /\ load_monzo_config w'
         = PDict [(py "client_id", PStr (py "oauth2client_0001"));
                  (py "client_secret", PStr (py "t0psecret"));
                  (py "access_token", PNone);
                  (py "refresh_token", PNone)]
      /\ load_saved_tokens w' = Ok PNone.
Proof.
  intros stored. split; [vm_compute; reflexivity|].
  apply (setup_monzo_config_resets_tokens (py " oauth2client_0001 ")
           (py "t0psecret") [] stored).
  - right. eexists. vm_compute. reflexivity.
  - vm_compute. discriminate.
  - reflexivity.
  - reflexivity.
Defined.

Lemma print_keyring line w : keyring (print line w) = keyring w.
Proof. reflexivity. Qed.

Lemma raise_for_status_200 r : status_code r = 200 -> raise_for_status r = Ok tt.
Proof. intros H. unfold raise_for_status. rewrite H. reflexivity. Qed.

(** [login] leaves the keyring alone; when it returns, it has sent one
    login request with the credentials of the configuration, the answer
    was no error, and the client holds the cookies of the answer. *)
Lemma login_returns E self w :
  keyring (snd (login E self w)) = keyring w
  /\ forall self' w',
      login E self w = (Ok tt, self', w') ->
      exists u e p r,
        getitem (client_config self) (py "monetr_url") = Ok u
        /\ getitem (client_config self) (py "monetr_email") = Ok e
        /\ getitem (client_config self) (py "monetr_password") = Ok p
        /\ net E (sent w) (LoginRequest u e p) = Responded r
        /\ raise_for_status r = Ok tt
        /\ sent w' = sent w ++ [LoginRequest u e p]
        /\ self' = {| auth_cookie := Some (cookies r);
                      client_config := client_config self |}.
Proof.
  unfold login.
  destruct (getitem (client_config self) (py "monetr_url")) as [u|];
    [|split; [reflexivity|discriminate]].
  destruct (getitem (client_config self) (py "monetr_email")) as [e|];
    cbn [rbind]; [|split; [reflexivity|discriminate]].
  destruct (getitem (client_config self) (py "monetr_password")) as [p|];
    cbn [rbind]; [|split; [reflexivity|discriminate]].
  set (w1 := print (nl ++ py "Attempting login to Monetr...") w).
  pose proof (send_keyring E (LoginRequest u e p) w1) as Hk.
  pose proof (send_sent E (LoginRequest u e p) w1) as Hs.
  unfold send in *. change (sent w1) with (sent w) in *.
  change (keyring w1) with (keyring w) in *.
  destruct (net E (sent w) (LoginRequest u e p)) as [r|msg] eqn:Hnet; cbn [snd] in *.
  - assert (raise_for_status r = Ok tt ->
            forall w2, sent w2 = sent w ++ [LoginRequest u e p] ->
            exists u0 e0 p0 r0,
              Ok u = Ok u0 /\ Ok e = Ok e0 /\ Ok p = Ok p0
              /\ net E (sent w) (LoginRequest u0 e0 p0) = Responded r0
              /\ raise_for_status r0 = Ok tt
              /\ sent w2 = sent w ++ [LoginRequest u0 e0 p0]
              /\ {| auth_cookie := Some (cookies r); client_config := client_config self |}
                 = {| auth_cookie := Some (cookies r0);
                      client_config := client_config self |}) as Hdone.
    { intros Hr w2 Hw2. exists u, e, p, r. repeat split; assumption. }
    destruct (status_code r =? 200) eqn:H200.
    + split; [reflexivity|]. intros self' w' [= <- <-].
      apply Hdone; [|reflexivity]. apply raise_for_status_200, Z.eqb_eq, H200.
    + destruct (raise_for_status r) as [[]|x] eqn:Hr.
      * split; [reflexivity|]. intros self' w' [= <- <-].
        apply Hdone; reflexivity.
      * split; [reflexivity|discriminate].
  - split; [reflexivity|discriminate].
Qed.

Lemma login_frame E self w :
  LOCAL_BANK_ACCOUNT_ID (snd (login E self w)) = LOCAL_BANK_ACCOUNT_ID w.
Proof. apply login_sent. Qed.

(** The last step of a pass: nothing is saved unless the login went
    through. *)
Lemma verify_and_save_spec U E url email password bank_id stdin w :
  (forall p, url <> p ++ [47%N]) ->
  let '(pass, rest, w') :=
    verify_and_save U E (monetr_configuration (PStr url) email password bank_id)
      bank_id stdin w in
  (length rest <= length stdin)%nat
  /\ match pass with
     | Finished o => setup_outcome E w o w'
     | StartOver => keyring w' = keyring w /\ (length rest < length stdin)%nat
     end.
Proof.
  intros Hurl. unfold verify_and_save.
  set (config := monetr_configuration (PStr url) email password bank_id).
  set (w1 := set_bank_account_id bank_id w).
  set (client := {| auth_cookie := None; client_config := config |}).
  pose proof (login_returns E client w1) as [Hk Hok].
  pose proof (login_frame E client w1) as Hb.
  destruct (login E client w1) as [[r self'] w2]. cbn [snd] in Hk, Hb.
  change (keyring w1) with (keyring w) in Hk.
  change (LOCAL_BANK_ACCOUNT_ID w1) with bank_id in Hb.
  assert (forall (x : exn) w3, keyring w3 = keyring w ->
            let '(pass, rest, w') :=
              match stdin with
              | [] => (Finished (@EndOfInput pyval), [], w3)
              | retry :: stdin' =>
                  if answers U "yes" retry then (StartOver, stdin', w3)
                  else (Finished (Done PNone), stdin', w3)
              end in
            (length rest <= length stdin)%nat
            /\ match pass with
               | Finished o => setup_outcome E w o w'
               | StartOver => keyring w' = keyring w /\ (length rest < length stdin)%nat
               end) as Hretry.
  { intros _ w3 Hw3. destruct stdin as [|retry stdin'].
    - split; [cbn; lia|exact Hw3].
    - destruct (answers U "yes" retry); cbn [length setup_outcome];
        (split; [lia|]); [split; [exact Hw3|lia]|exact Hw3]. }
  destruct r as [[]|x]; [|apply (Hretry x), Hk].
  destruct (Hok _ _ eq_refl) as (u & e & p & r & Hu & He & Hp & Hnet & Hr & Hs & _).
  injection Hu as <-. injection He as <-. injection Hp as <-.
  unfold save_monetr_config, save_config.
  destruct (encrypt_config config) as [enc|x] eqn:Henc; [|apply (Hretry x), Hk].
  split; [lia|]. cbn [setup_outcome]. unfold config at 1. cbn [monetr_configuration].
  exists url, email, password, bank_id, enc, (sent w1), r.
  unfold set_keyring. cbn [keyring LOCAL_BANK_ACCOUNT_ID sent].
  rewrite Hk. repeat split; auto.
Qed.

Lemma rstrip_slash_spec v url :
  rstrip_slash v = Ok url ->
  exists s, url = PStr s /\ forall p, s <> p ++ [47%N].
Proof.
  destruct v; try discriminate. intros [= <-].
  eexists. split; [reflexivity|]. apply rstrip_char_end.
Qed.

Lemma setup_outcome_keyring E w1 w o w' :
  keyring w1 = keyring w -> setup_outcome E w1 o w' -> setup_outcome E w o w'.
Proof.
  intros Hk. unfold setup_outcome, verified_and_saved.
  destruct o as [[]| |]; rewrite ?Hk; auto.
Qed.

(** One pass either finishes with the outcome of the setup, or starts
    over with fewer lines left and the keyring as it was. *)
Lemma setup_monetr_config_pass_spec U E stdin w :
  let '(pass, rest, w') := setup_monetr_config_pass U E stdin w in
  match pass with
  | Finished o => setup_outcome E w o w'
  | StartOver => keyring w' = keyring w /\ (length rest < length stdin)%nat
  end.
Proof.
  unfold setup_monetr_config_pass.
  destruct (default_of _ (py "monetr_url") _) as [default_url|]; [|reflexivity].
  destruct stdin as [|url_line stdin1]; [reflexivity|].
  destruct (rstrip_slash _) as [url|] eqn:Hurl; [|reflexivity].
  destruct (rstrip_slash_spec _ _ Hurl) as (s & -> & Hs).
  destruct (default_of _ (py "monetr_email") _) as [default_email|]; [|reflexivity].
  destruct stdin1 as [|email_line stdin2]; [reflexivity|].
  destruct stdin2 as [|password_line stdin3]; [reflexivity|].
  destruct (default_of _ (py "bank_account_id") _) as [default_bank_id|]; [|reflexivity].
  destruct stdin3 as [|bank_line stdin4]; [reflexivity|].
  destruct (startswith_bac _) as [[|]|]; [| |reflexivity].
  - pose proof (verify_and_save_spec U E s (typed_or email_line default_email)
                  (PStr (strip password_line)) (typed_or bank_line default_bank_id)
                  stdin4 w Hs) as H.
    unfold monetr_configuration in H.
    destruct (verify_and_save U E _ _ stdin4 w) as [[pass rest] w'].
    destruct H as [Hlen H]. destruct pass; [exact H|].
    destruct H as [Hk Hlt]. split; [exact Hk|]. cbn [length]. lia.
  - destruct stdin4 as [|continue stdin5]; [reflexivity|].
    destruct (answers U "yes" continue); [|split; [reflexivity|cbn [length]; lia]].
    pose proof (verify_and_save_spec U E s (typed_or email_line default_email)
                  (PStr (strip password_line)) (typed_or bank_line default_bank_id)
                  stdin5 w Hs) as H.
    unfold monetr_configuration in H.
    destruct (verify_and_save U E _ _ stdin5 w) as [[pass rest] w'].
    destruct H as [Hlen H]. destruct pass; [exact H|].
    destruct H as [Hk Hlt]. split; [exact Hk|]. cbn [length]. lia.
Qed.

Lemma setup_monetr_config_passes_spec U E n : forall stdin w,
  (length stdin < n)%nat ->
  let '(o, rest, w') := setup_monetr_config_passes U n E stdin w in
  setup_outcome E w o w'
  /\ setup_monetr_config_passes U (S n) E stdin w = (o, rest, w').
Proof.
  induction n as [|n IH]; intros stdin w Hn; [lia|].
  cbn [setup_monetr_config_passes].
  pose proof (setup_monetr_config_pass_spec U E stdin w) as Hpass.
  destruct (setup_monetr_config_pass U E stdin w) as [[[o|] rest] w1].
  - split; [exact Hpass|reflexivity].
  - destruct Hpass as [Hk Hlt].
    assert (length rest < n)%nat as Hrest by lia.
    specialize (IH rest w1 Hrest).
    destruct (setup_monetr_config_passes U n E rest w1) as [[o rest'] w'].
    destruct IH as [Ho Hmore]. split.
    + apply (setup_outcome_keyring E w1 w o w' Hk Ho).
    + exact Hmore.
Qed.

(** X12. [setup_monetr_config] stores a configuration only after the
    backend has accepted a login with its credentials: when it returns a
    configuration, the keyring holds it, the bank account id of the module
    is the configured one, the URL has no slash at its end, and the last
    request is that login, answered without an error status.  In every
    other case (it returns [None], or an exception or the end of the
    input leaves it) the keyring is as it was.  The calls of the function
    to itself end: allowing more passes than there are lines to read
    changes nothing. *)
Theorem setup_monetr_config_saves_verified_only U E stdin w :
  let '(o, rest, w') := setup_monetr_config U E stdin w in
  setup_outcome E w o w'
  /\ forall n, (length stdin < n)%nat ->
               setup_monetr_config_passes U n E stdin w = (o, rest, w').
Proof.
  unfold setup_monetr_config.
  pose proof (setup_monetr_config_passes_spec U E (S (length stdin)) stdin w
                (Nat.lt_succ_diag_r _)) as H.
  destruct (setup_monetr_config_passes U (S (length stdin)) E stdin w)
    as [[o rest] w'] eqn:Hrun.
  destruct H as [Ho _]. split; [exact Ho|].
  intros n Hn. induction n as [|n IH]; [lia|].
  destruct (Nat.eq_dec n (length stdin)) as [->|Hne]; [exact Hrun|].
  assert (length stdin < n)%nat as Hlt by lia.
  pose proof (setup_monetr_config_passes_spec U E n stdin w Hlt) as H.
  rewrite (IH Hlt) in H. apply H.
Qed.

(** ** What the monitoring sends and leaves alone *)

Lemma sends_refl P w : sends P w w.
Proof. exists []. rewrite app_nil_r. auto. Qed.

Lemma sends_trans P w1 w2 w3 : sends P w1 w2 -> sends P w2 w3 -> sends P w1 w3.
Proof.
  intros (a & Ha & HPa) (b & Hb & HPb). exists (a ++ b).
  rewrite Hb, Ha, <- app_assoc. split; [reflexivity|]. apply Forall_app_2; assumption.
Qed.

Lemma sends_impl (P Q : request -> Prop) w w' :
  (forall req, P req -> Q req) -> sends P w w' -> sends Q w w'.
Proof.
  intros HPQ (a & Ha & HPa). exists a. split; [exact Ha|].
  eapply Forall_impl; [exact HPa|exact HPQ].
Qed.

Lemma monitoring_step_refl w : monitoring_step w w.
Proof. repeat split. apply sends_refl. Qed.

Lemma monitoring_step_trans w1 w2 w3 :
  monitoring_step w1 w2 -> monitoring_step w2 w3 -> monitoring_step w1 w3.
Proof.
  intros (Hk1 & Hb1 & Hs1) (Hk2 & Hb2 & Hs2). split; [congruence|].
  split; [congruence|]. rewrite Hb1 in Hs2. eapply sends_trans; eassumption.
Qed.

Lemma monitoring_step_print line w : monitoring_step w (print line w).
Proof.
  split; [reflexivity|]. split; [reflexivity|].
  exists []. rewrite app_nil_r. split; [reflexivity|constructor].
Qed.

Lemma monitoring_step_send E req w :
  monitor_request (LOCAL_BANK_ACCOUNT_ID w) req ->
  monitoring_step w (snd (send E req w)).
Proof.
  intros Hreq. split; [apply send_keyring|].
  split; [apply send_LOCAL_BANK_ACCOUNT_ID|].
  exists [req]. split; [apply send_sent|]. constructor; [exact Hreq|constructor].
Qed.

Lemma login_step E self w : monitoring_step w (snd (login E self w)).
Proof.
  destruct (login_returns E self w) as [Hk _].
  destruct (login_sent E self w) as [Hb Hs].
  split; [exact Hk|]. split; [exact Hb|].
  destruct Hs as [Hs|(u & e & p & Hs)].
  - exists []. rewrite app_nil_r. auto.
  - exists [LoginRequest u e p]. split; [exact Hs|]. repeat constructor.
Qed.

Lemma transaction_data_bank_account_id b amount name date is_pending body :
  transaction_data b amount name date is_pending = Ok body ->
  getitem body (py "bankAccountId") = Ok b.
Proof.
  unfold transaction_data.
  destruct (PyFloat.to_int _); cbn [rbind]; [|discriminate].
  intros [= <-]. reflexivity.
Qed.

Lemma post_transaction_step E self amount name date is_pending w :
  monitoring_step w (snd (post_transaction E self amount name date is_pending w)).
Proof.
  unfold post_transaction.
  assert (exists r0 self1 w1,
             (if no_auth_cookie self then login E self w else (Ok tt, self, w))
             = (r0, self1, w1) /\ monitoring_step w w1)
    as (r0 & self1 & w1 & -> & Hw1).
  { destruct (no_auth_cookie self).
    - pose proof (login_step E self w) as H.
      destruct (login E self w) as [[r0 self1] w1]. eauto.
    - eexists _, _, _. split; [reflexivity|apply monitoring_step_refl]. }
  destruct r0 as [[]|e]; [|exact Hw1].
  destruct (transaction_data _ amount name date is_pending) as [body|e] eqn:Hbody;
    [|exact Hw1].
  destruct (getitem (client_config self1) (py "monetr_url")) as [u|e]; [|exact Hw1].
  pose proof (monitoring_step_send E
                (TransactionPost u (LOCAL_BANK_ACCOUNT_ID w1) body (auth_cookie self1)) w1)
    as Hsend.
  assert (monitoring_step w1
            (snd (send E (TransactionPost u (LOCAL_BANK_ACCOUNT_ID w1) body
                            (auth_cookie self1)) w1))) as Hw2.
  { apply Hsend. split; [reflexivity|].
    apply (transaction_data_bank_account_id _ _ _ _ _ _ Hbody). }
  clear Hsend.
  destruct (send E _ w1) as [[r|x] w2]; cbn [snd] in *.
  - destruct (status_code r =? 200);
      [exact (monitoring_step_trans _ _ _ Hw1 Hw2)|].
    destruct (raise_for_status r); cbn [snd];
      repeat (eapply monitoring_step_trans; [|apply monitoring_step_print]);
      exact (monitoring_step_trans _ _ _ Hw1 Hw2).
  - eapply monitoring_step_trans; [|apply monitoring_step_print].
    exact (monitoring_step_trans _ _ _ Hw1 Hw2).
Qed.

Lemma get_transactions_step E account_id access_token quiet w :
  monitoring_step w (snd (get_transactions E account_id access_token quiet w)).
Proof.
  unfold get_transactions.
  pose proof (monitoring_step_send E
                (TransactionsRequest account_id access_token (since_now E (sent w))) w I)
    as H.
  destruct (send E _ w) as [[r|e] w1]; cbn [snd] in *; [|exact H].
  destruct (read_transactions r); exact H.
Qed.

Lemma process_transaction_step E t m w :
  monitoring_step w (snd (process_transaction E t m w)).
Proof.
  unfold process_transaction.
  destruct (v <- getitem t (py "id") ;; hashable v) as [id|];
    [|apply monitoring_step_refl].
  destruct (bool_decide _); [apply monitoring_step_refl|].
  destruct (amount <- source_amount t ;; _) as [[[[amount name] time] pending]|];
    [|apply monitoring_step_refl].
  pose proof (post_transaction_step E (local_api m) amount name time pending w) as H.
  destruct (post_transaction E _ _ _ _ _ w) as [[[[]|e] api] w1]; exact H.
Qed.

Lemma for_transactions_step E ts : forall m w,
  monitoring_step w (snd (for_transactions E ts m w)).
Proof.
  induction ts as [|t ts IH]; intros m w; cbn [for_transactions];
    [apply monitoring_step_refl|].
  pose proof (process_transaction_step E t m w) as H.
  destruct (process_transaction E t m w) as [[[[]|e] m1] w1]; cbn [snd] in *;
    [|exact H].
  eapply monitoring_step_trans; [exact H|apply IH].
Qed.

Lemma poll_account_step E access_token account m w :
  monitoring_step w (snd (poll_account E access_token account m w)).
Proof.
  unfold poll_account.
  destruct (getitem account (py "type")) as [ty|]; [|apply monitoring_step_refl].
  destruct (is_us_partner ty); [|apply monitoring_step_refl].
  destruct (getitem account (py "id")) as [account_id|]; [|apply monitoring_step_refl].
  pose proof (get_transactions_step E account_id access_token true w) as H.
  destruct (get_transactions E account_id access_token true w) as [ts w1].
  eapply monitoring_step_trans; [exact H|apply for_transactions_step].
Qed.

Lemma for_accounts_step E access_token accounts : forall m w,
  monitoring_step w (snd (for_accounts E access_token accounts m w)).
Proof.
  induction accounts as [|a accounts IH]; intros m w; cbn [for_accounts];
    [apply monitoring_step_refl|].
  pose proof (poll_account_step E access_token a m w) as H.
  destruct (poll_account E access_token a m w) as [[[[]|e] m1] w1]; cbn [snd] in *;
    [|exact H].
  eapply monitoring_step_trans; [exact H|apply IH].
Qed.

Lemma cycle_step E access_token accounts m w :
  monitoring_step w (snd (cycle E access_token accounts m w)).
Proof.
  unfold cycle. destruct (iter_values accounts) as [l|]; [|apply monitoring_step_refl].
  pose proof (for_accounts_step E access_token l m w) as H.
  destruct (for_accounts E access_token l m w) as [[r m1] w1]. exact H.
Qed.

(** X13. Over any number of turns the monitoring loop leaves the keyring
    as it is (no token is refreshed or stored, no configuration changed),
    does not change the bank account id of the module, never calls the
    token endpoint, and every transaction it posts goes out under that bank
    account id, in the URL and in the [bankAccountId] field. *)
Theorem monitoring_leaves_keyring_and_tokens E access_token accounts n m w :
  let w' := snd (monitor_loop E access_token accounts n m w) in
  keyring w' = keyring w
  /\ LOCAL_BANK_ACCOUNT_ID w' = LOCAL_BANK_ACCOUNT_ID w
  /\ exists extra,
      sent w' = sent w ++ extra
      /\ forall req, In req extra ->
           match req with
           | TransactionPost _ bank_account_id body _ =>
               bank_account_id = LOCAL_BANK_ACCOUNT_ID w
               /\ getitem body (py "bankAccountId") = Ok (LOCAL_BANK_ACCOUNT_ID w)
           | TokenRequest _ => False
           | _ => True
           end.
Proof.
  cbv zeta.
  assert (monitoring_step w (snd (monitor_loop E access_token accounts n m w))) as H.
  { revert m w. induction n as [|n IH]; intros m w; cbn [monitor_loop];
      [apply monitoring_step_refl|].
    pose proof (cycle_step E access_token accounts m w) as H.
    destruct (cycle E access_token accounts m w) as [m1 w1].
    eapply monitoring_step_trans; [exact H|apply IH]. }
  destruct H as (Hk & Hb & extra & Hs & Hall).
  split; [exact Hk|]. split; [exact Hb|]. exists extra. split; [exact Hs|].
  intros req Hin. rewrite Forall_forall in Hall.
  apply (Hall req), list_elem_of_In, Hin.
Qed.

(** ** The run of [main] *)

Lemma monitor_request_main bank req :
  monitor_request bank req -> main_request (Some bank) req.
Proof.
  destruct req; cbn [monitor_request main_request]; auto.
  - intros [-> H]. auto.
  - intros [].
Qed.

Lemma main_request_weaken bank req : main_request bank req -> main_request None req.
Proof. destruct req; cbn [main_request]; tauto. Qed.

Lemma is_login_main bank req : is_login req -> main_request bank req.
Proof. destruct req; cbn [is_login main_request]; tauto. Qed.

(** The setup of the Monetr configuration sends logins only. *)
Lemma verify_and_save_sends U E config bank_id stdin w :
  sends is_login w (snd (verify_and_save U E config bank_id stdin w)).
Proof.
  unfold verify_and_save.
  set (w1 := set_bank_account_id bank_id w).
  set (client := {| auth_cookie := None; client_config := config |}).
  assert (sends is_login w (snd (login E client w1))) as H.
  { destruct (login_sent E client w1) as [_ [Hs|(u & e & p & Hs)]].
    - exists []. rewrite app_nil_r. auto.
    - exists [LoginRequest u e p]. split; [exact Hs|]. repeat constructor. }
  destruct (login E client w1) as [[r self'] w2]. cbn [snd] in H.
  assert (forall w3, sent w3 = sent w2 -> sends is_login w w3) as Hfin.
  { intros w3 Hw3. destruct H as (extra & He & Hall). exists extra.
    rewrite Hw3. auto. }
  destruct r as [[]|x].
  - unfold save_monetr_config.
    pose proof (save_config_frame MONETR_SERVICE config w2) as (Hs & _).
    destruct (save_config MONETR_SERVICE config w2) as [[[]|x] w3]; cbn [snd] in Hs |- *.
    + apply Hfin, Hs.
    + destruct stdin as [|retry stdin']; cbn [snd]; [apply Hfin, Hs|].
      destruct (answers U "yes" retry); cbn [snd]; apply Hfin, Hs.
  - destruct stdin as [|retry stdin']; cbn [snd]; [apply Hfin; reflexivity|].
    destruct (answers U "yes" retry); cbn [snd]; apply Hfin; reflexivity.
Qed.

Lemma setup_monetr_config_pass_sends U E stdin w :
  sends is_login w (snd (setup_monetr_config_pass U E stdin w)).
Proof.
  unfold setup_monetr_config_pass.
  destruct (default_of _ (py "monetr_url") _); [|apply sends_refl].
  destruct stdin as [|url_line stdin1]; [apply sends_refl|].
  destruct (rstrip_slash _); [|apply sends_refl].
  destruct (default_of _ (py "monetr_email") _); [|apply sends_refl].
  destruct stdin1 as [|email_line stdin2]; [apply sends_refl|].
  destruct stdin2 as [|password_line stdin3]; [apply sends_refl|].
  destruct (default_of _ (py "bank_account_id") _); [|apply sends_refl].
  destruct stdin3 as [|bank_line stdin4]; [apply sends_refl|].
  destruct (startswith_bac _) as [[|]|]; [| |apply sends_refl].
  - apply verify_and_save_sends.
  - destruct stdin4 as [|continue stdin5]; [apply sends_refl|].
    destruct (answers U "yes" continue); [|apply sends_refl].
    apply verify_and_save_sends.
Qed.

Lemma setup_monetr_config_passes_sends U E n : forall stdin w,
  sends is_login w (snd (setup_monetr_config_passes U n E stdin w)).
Proof.
  induction n as [|n IH]; intros stdin w; cbn [setup_monetr_config_passes];
    [apply sends_refl|].
  pose proof (setup_monetr_config_pass_sends U E stdin w) as H.
  destruct (setup_monetr_config_pass U E stdin w) as [[[o|] rest] w1]; cbn [snd] in *;
    [exact H|].
  eapply sends_trans; [exact H|apply IH].
Qed.

Lemma new_client_sends U E config stdin w :
  sends is_login w (snd (new_client U E config stdin w)).
Proof.
  unfold new_client.
  destruct (truthy (if truthy config then config else load_monetr_config w));
    [apply sends_refl|].
  pose proof (setup_monetr_config_passes_sends U E (S (length stdin)) stdin w) as H.
  unfold setup_monetr_config.
  destruct (setup_monetr_config_passes U _ E stdin w) as [[[c|e|] rest] w1];
    cbn [snd] in *; try exact H.
  destruct (truthy c); [|exact H].
  destruct (getitem c (py "bank_account_id")); exact H.
Qed.

(** With a configuration stored, [LocalAPIClient()] takes it and touches
    nothing. *)
Lemma new_client_stored U E stdin w :
  truthy (load_monetr_config w) = true ->
  new_client U E PNone stdin w
  = (Done {| auth_cookie := None; client_config := load_monetr_config w |}, stdin, w).
Proof. intros H. unfold new_client. cbn [truthy]. rewrite H. reflexivity. Qed.

Lemma seed_step E access_token accounts : forall ids w,
  monitoring_step w (snd (seed E access_token accounts ids w)).
Proof.
  induction accounts as [|a accounts IH]; intros ids w; cbn [seed];
    [apply monitoring_step_refl|].
  destruct (getitem a (py "type")) as [ty|]; [|apply monitoring_step_refl].
  destruct (is_us_partner ty); [|apply IH].
  destruct (getitem a (py "id")) as [account_id|]; [|apply monitoring_step_refl].
  pose proof (get_transactions_step E account_id access_token true w) as H.
  destruct (get_transactions E account_id access_token true w) as [ts w1].
  cbn [snd] in H. destruct (update_ids ts ids); [|exact H].
  eapply monitoring_step_trans; [exact H|apply IH].
Qed.

Lemma monitor_loop_step E access_token accounts n : forall m w,
  monitoring_step w (snd (monitor_loop E access_token accounts n m w)).
Proof.
  induction n as [|n IH]; intros m w; cbn [monitor_loop];
    [apply monitoring_step_refl|].
  pose proof (cycle_step E access_token accounts m w) as H.
  destruct (cycle E access_token accounts m w) as [m1 w1].
  eapply monitoring_step_trans; [exact H|apply IH].
Qed.

Lemma get_accounts_step E access_token w :
  monitoring_step w (snd (get_accounts E access_token w)).
Proof.
  unfold get_accounts.
  pose proof (monitoring_step_send E (AccountsRequest access_token) w I) as H.
  destruct (send E _ w) as [[r|e] w1]; exact H.
Qed.

Lemma start_monitor_step E access_token api n w :
  monitoring_step w (snd (start_monitor E access_token api n w)).
Proof.
  unfold start_monitor.
  pose proof (get_accounts_step E access_token w) as H.
  destruct (get_accounts E access_token w) as [[accounts|e] w1]; cbn [snd] in H;
    [|exact H].
  destruct (negb (truthy accounts)); [exact H|].
  destruct (l <- iter_values accounts ;; _) as [l|]; [|exact H].
  pose proof (seed_step E access_token l ∅ w1) as Hseed.
  destruct (seed E access_token l ∅ w1) as [[ids|e] w2]; cbn [snd] in Hseed.
  - pose proof (monitor_loop_step E access_token accounts n
                  {| initial_transaction_ids := ids; local_api := api; attempts := [] |}
                  w2) as Hloop.
    destruct (monitor_loop E access_token accounts n _ w2) as [m w3].
    cbn [snd] in *.
    eapply monitoring_step_trans; [exact H|].
    eapply monitoring_step_trans; [exact Hseed|exact Hloop].
  - eapply monitoring_step_trans; [exact H|exact Hseed].
Qed.

(** [start_monitor] is [transaction_monitor] with the world kept. *)
Lemma start_monitor_transaction_monitor E access_token api n w :
  transaction_monitor E access_token api n w
  = match start_monitor E access_token api n w with
    | (Monitoring m, w') => Some (m, w')
    | _ => None
    end.
Proof.
  unfold transaction_monitor, start_monitor.
  destruct (get_accounts E access_token w) as [[accounts|e] w1]; [|reflexivity].
  destruct (negb (truthy accounts)); [reflexivity|].
  destruct (l <- iter_values accounts ;; _) as [l|]; [|reflexivity].
  destruct (seed E access_token l ∅ w1) as [[ids|e] w2]; [|reflexivity].
  destruct (monitor_loop E access_token accounts n _ w2) as [m w3]. reflexivity.
Qed.

Lemma monitoring_step_main w w' :
  monitoring_step w w' ->
  LOCAL_BANK_ACCOUNT_ID w' = LOCAL_BANK_ACCOUNT_ID w
  /\ sends (main_request (Some (LOCAL_BANK_ACCOUNT_ID w))) w w'.
Proof.
  intros (_ & Hb & Hs). split; [exact Hb|].
  eapply sends_impl; [|exact Hs]. apply monitor_request_main.
Qed.

Lemma setup_monzo_config_frame stdin w :
  sent (snd (setup_monzo_config stdin w)) = sent w
  /\ LOCAL_BANK_ACCOUNT_ID (snd (setup_monzo_config stdin w)) = LOCAL_BANK_ACCOUNT_ID w.
Proof.
  unfold setup_monzo_config.
  destruct (default_of _ _ _); [|auto].
  destruct stdin as [|id_line [|secret_line stdin']]; [auto|auto|].
  unfold save_monzo_config.
  match goal with
  | |- context [save_config MONZO_SERVICE ?c w] =>
      pose proof (save_config_frame MONZO_SERVICE c w) as (Hs & Hb & _);
      destruct (save_config MONZO_SERVICE c w) as [[[]|e] w']
  end; cbn [snd] in *; auto.
Qed.

Lemma exchange_auth_code_frame E auth_code client_id client_secret w :
  LOCAL_BANK_ACCOUNT_ID (snd (exchange_auth_code E auth_code client_id client_secret w))
  = LOCAL_BANK_ACCOUNT_ID w
  /\ sends (main_request (Some (LOCAL_BANK_ACCOUNT_ID w))) w
       (snd (exchange_auth_code E auth_code client_id client_secret w)).
Proof.
  unfold exchange_auth_code.
  destruct (negb (truthy (load_monzo_config w))); [split; [reflexivity|apply sends_refl]|].
  pose proof (send_sent E (authorization_code_grant client_id client_secret auth_code) w)
    as Hs.
  pose proof (send_LOCAL_BANK_ACCOUNT_ID E
                (authorization_code_grant client_id client_secret auth_code) w) as Hb.
  assert (forall w', sent w' = sent w ++ [authorization_code_grant client_id
                                            client_secret auth_code] ->
                     sends (main_request (Some (LOCAL_BANK_ACCOUNT_ID w))) w w') as Hsends.
  { intros w' Hw'. eexists. split; [exact Hw'|]. constructor; [|constructor].
    cbn. eauto. }
  unfold authorization_code_grant in Hs, Hb, Hsends.
  destruct (send E _ w) as [[r|x] w1]; cbn [snd] in *; [|auto].
  destruct (_ <- raise_for_status r ;; _) as [[a t]|x]; [|auto].
  assert (sent (snd (save_tokens a t w1)) = sent w1
          /\ LOCAL_BANK_ACCOUNT_ID (snd (save_tokens a t w1)) = LOCAL_BANK_ACCOUNT_ID w1)
    as [Hs2 Hb2].
  { unfold save_tokens. destruct (truthy (load_monzo_config w1)); [|auto].
    destruct (c1 <- setitem _ _ _ ;; _) as [c2|]; [|auto].
    pose proof (save_config_frame MONZO_SERVICE c2 w1) as (? & ? & _). auto. }
  destruct (save_tokens a t w1) as [[[]|x] w2]; cbn [snd] in *.
  - rewrite clear_auth_code_spec. cbn [snd]. unfold set_keyring.
    cbn [LOCAL_BANK_ACCOUNT_ID]. split; [congruence|].
    apply Hsends. cbn [sent]. rewrite Hs2. exact Hs.
  - split; [congruence|]. apply Hsends. rewrite Hs2. exact Hs.
Qed.

Lemma wait_for_app_approval_frame U E access_token stdin : forall w,
  let w' := snd (wait_for_app_approval U E access_token stdin w) in
  LOCAL_BANK_ACCOUNT_ID w' = LOCAL_BANK_ACCOUNT_ID w
  /\ sends (main_request (Some (LOCAL_BANK_ACCOUNT_ID w))) w w'.
Proof.
  induction stdin as [|line stdin IH]; intros w; cbv zeta;
    cbn [wait_for_app_approval]; [split; [reflexivity|apply sends_refl]|].
  destruct (answers U "yes" line).
  - pose proof (monitoring_step_main _ _ (get_accounts_step E access_token w))
      as [Hb Hs].
    destruct (get_accounts E access_token w) as [[v|e] w1]; cbn [snd] in *; [auto|].
    destruct (IH w1) as [Hb' Hs']. split; [congruence|].
    rewrite Hb in Hs'. eapply sends_trans; eassumption.
  - destruct (answers U "no" line); [apply IH|].
    destruct (answers U "exit" line); [split; [reflexivity|apply sends_refl]|apply IH].
Qed.

Lemma authorize_frame U E client_id client_secret callback_path stdin w :
  let w' := snd (authorize U E client_id client_secret callback_path stdin w) in
  LOCAL_BANK_ACCOUNT_ID w' = LOCAL_BANK_ACCOUNT_ID w
  /\ sends (main_request (Some (LOCAL_BANK_ACCOUNT_ID w))) w w'.
Proof.
  cbv zeta. unfold authorize.
  destruct stdin as [|line stdin1]; [split; [reflexivity|apply sends_refl]|].
  assert (LOCAL_BANK_ACCOUNT_ID (snd (do_GET callback_path w)) = LOCAL_BANK_ACCOUNT_ID w
          /\ sent (snd (do_GET callback_path w)) = sent w) as [Hb0 Hs0].
  { unfold do_GET. destruct (callback_code callback_path); auto. }
  destruct (do_GET callback_path w) as [calls w1]. cbn [snd] in *.
  unfold get_access_token.
  pose proof (exchange_auth_code_frame E (get_auth_code w1) client_id client_secret w1)
    as [Hb1 Hs1].
  rewrite Hb0 in Hs1.
  assert (sends (main_request (Some (LOCAL_BANK_ACCOUNT_ID w))) w
            (snd (exchange_auth_code E (get_auth_code w1) client_id client_secret w1)))
    as Hs1'.
  { destruct Hs1 as (extra & He & Hall). exists extra. rewrite He, Hs0. auto. }
  destruct (exchange_auth_code E _ client_id client_secret w1) as [[tok|e] w2];
    cbn [snd] in *; [|split; [congruence|exact Hs1']].
  pose proof (wait_for_app_approval_frame U E tok stdin1 w2) as [Hb2 Hs2].
  cbv zeta in Hb2, Hs2. rewrite Hb1, Hb0 in Hs2.
  destruct (wait_for_app_approval U E tok stdin1 w2) as [[[[|]|e|] stdin2] w3];
    cbn [snd] in *; (split; [congruence|eapply sends_trans; eassumption]).
Qed.

(** After [LocalAPIClient()], all that [main] sends are requests of a
    run of [main] under the bank account id as it stands then. *)
Lemma main_after_new_client U E callback_path n stdin w :
  let w1 := snd (new_client U E PNone stdin w) in
  sends (main_request (Some (LOCAL_BANK_ACCOUNT_ID w1))) w1
    (snd (main U E callback_path n stdin w)).
Proof.
  cbv zeta. unfold main.
  destruct (new_client U E PNone stdin w) as [[[api|e|] stdin1] w1]; cbn [snd];
    [|apply sends_refl|apply sends_refl].
  assert (exists r stdin2 w2,
             (if truthy (load_monzo_config w1)
              then (Done (load_monzo_config w1), stdin1, w1)
              else setup_monzo_config stdin1 w1) = (r, stdin2, w2)
             /\ sent w2 = sent w1
             /\ LOCAL_BANK_ACCOUNT_ID w2 = LOCAL_BANK_ACCOUNT_ID w1)
    as (r & stdin2 & w2 & -> & Hs2 & Hb2).
  { destruct (truthy (load_monzo_config w1)); [eauto 7|].
    pose proof (setup_monzo_config_frame stdin1 w1) as [Hs Hb].
    destruct (setup_monzo_config stdin1 w1) as [[r stdin2] w2]. eauto 7. }
  assert (sends (main_request (Some (LOCAL_BANK_ACCOUNT_ID w1))) w1 w2) as H12.
  { exists []. rewrite app_nil_r. auto. }
  destruct r as [monzo_config|e|]; cbn [snd]; [|exact H12|exact H12].
  destruct (negb (truthy monzo_config)); [exact H12|].
  destruct (CLIENT_ID <- getitem monzo_config (py "client_id") ;; _)
    as [[[client_id client_secret] access_token]|e]; [|exact H12].
  destruct (truthy access_token).
  - pose proof (monitoring_step_main _ _ (start_monitor_step E access_token api n w2))
      as [_ Hs].
    destruct (start_monitor E access_token api n w2) as [o w3]. cbn [snd] in *.
    rewrite Hb2 in Hs. eapply sends_trans; eassumption.
  - pose proof (authorize_frame U E client_id client_secret callback_path stdin2 w2)
      as [Hb3 Hs3].
    cbv zeta in Hb3, Hs3. rewrite Hb2 in Hs3.
    assert (sends (main_request (Some (LOCAL_BANK_ACCOUNT_ID w1))) w1
              (snd (authorize U E client_id client_secret callback_path stdin2 w2)))
      as H13 by (eapply sends_trans; eassumption).
    destruct (authorize U E client_id client_secret callback_path stdin2 w2)
      as [[[[tok|]|e|] stdin3] w3]; cbn [snd] in *; try exact H13.
    pose proof (monitoring_step_main _ _ (start_monitor_step E tok api n w3))
      as [_ Hs].
    destruct (start_monitor E tok api n w3) as [o w4]. cbn [snd] in *.
    rewrite Hb3, Hb2 in Hs. eapply sends_trans; eassumption.
Qed.

(** X14. A run of [main] never refreshes the access token: whatever the
    console, the servers and the callback are, and however long it
    monitors, every call of the token endpoint that it makes exchanges an
    authorization code; [refresh_access_token] is not reached. *)
Theorem main_never_refreshes U E callback_path n stdin w :
  exists extra,
    sent (snd (main U E callback_path n stdin w)) = sent w ++ extra
    /\ forall data,
        In (TokenRequest data) extra ->
        dict_get data (py "grant_type") = Some (PStr (py "authorization_code"))
        /\ forall client_id client_secret refresh_token,
            TokenRequest data
            <> refresh_token_grant client_id client_secret refresh_token.
Proof.
  pose proof (new_client_sends U E PNone stdin w) as H1.
  pose proof (main_after_new_client U E callback_path n stdin w) as H2.
  cbv zeta in H2.
  apply (sends_impl _ (main_request None)) in H1; [|apply is_login_main].
  apply (sends_impl _ (main_request None)) in H2; [|apply main_request_weaken].
  destruct (sends_trans _ _ _ _ H1 H2) as (extra & Hs & Hall).
  exists extra. split; [exact Hs|]. intros data Hin.
  rewrite Forall_forall in Hall.
  destruct (Hall _ (proj2 (list_elem_of_In _ _) Hin)) as (id & secret & code & Heq).
  injection Heq as ->. split; [reflexivity|]. intros ? ? ? H. discriminate H.
Qed.

(** X15. When the Monetr configuration is found in the keyring, [main]
    never sets the bank account id of the module: started with the id
    unset ([None], as the module defines it), every transaction that the run
    posts goes to the URL of the bank account [None] and carries [None] as
    its [bankAccountId], whatever the stored configuration says. *)
Theorem main_posts_without_bank_account_id U E callback_path n stdin w :
  truthy (load_monetr_config w) = true ->
  LOCAL_BANK_ACCOUNT_ID w = PNone ->
  exists extra,
    sent (snd (main U E callback_path n stdin w)) = sent w ++ extra
    /\ forall monetr_url bank_account_id body cookie,
        In (TransactionPost monetr_url bank_account_id body cookie) extra ->
        bank_account_id = PNone
        /\ getitem body (py "bankAccountId") = Ok PNone.
Proof.
  intros Hstored Hnone.
  pose proof (main_after_new_client U E callback_path n stdin w) as H.
  cbv zeta in H. rewrite (new_client_stored U E stdin w Hstored) in H.
  cbn [snd] in H. rewrite Hnone in H. destruct H as (extra & Hs & Hall).
  exists extra. split; [exact Hs|]. intros u b body c Hin.
  rewrite Forall_forall in Hall.
  destruct (Hall _ (proj2 (list_elem_of_In _ _) Hin)) as [Hbody ->]. auto.
Qed.

(** ** The monitor: accounts, records that cannot be read, answers *)

(** X16. Only accounts of type [us_partner] are monitored: when every
    account is of another type, the seeding fetches nothing and leaves the
    set of ids as it is, and the loop, however long it runs, sends no
    request, posts nothing and changes nothing. *)
Theorem other_account_types_are_not_monitored E access_token l ids n m w :
  Forall other_type l ->
  seed E access_token l ids w = (Ok ids, w)
  /\ monitor_loop E access_token (PList l) n m w = (m, w).
Proof.
  intros Hl. split.
  - induction Hl as [|a l (ty & Hty & Hus) _ IH]; cbn [seed]; [reflexivity|].
    rewrite Hty, Hus. exact IH.
  - assert (for_accounts E access_token l m w = (Ok tt, m, w)) as Hfor.
    { induction Hl as [|a l (ty & Hty & Hus) _ IH]; cbn [for_accounts]; [reflexivity|].
      unfold poll_account. rewrite Hty, Hus. exact IH. }
    induction n as [|n IH]; cbn [monitor_loop]; [reflexivity|].
    unfold cycle. cbn [iter_values]. rewrite Hfor. exact IH.
Qed.

Lemma other_account_types_are_not_monitored_witness :
  let account := PDict [(py "id", PStr (py "acc_1"));
                        (py "type", PStr (py "uk_retail"));
                        (py "description", PStr (py "Current"))] in
  let m := {| initial_transaction_ids := ∅; local_api := Fixtures.fresh_client;
              attempts := [] |} in
  seed Fixtures.scenario (PStr (py "access-1")) [account] ∅ Cases.started
  = (Ok ∅, Cases.started)
  /\ monitor_loop Fixtures.scenario (PStr (py "access-1")) (PList [account]) 1000 m
       Cases.started
     = (m, Cases.started).
Proof.
  intros account m.
  apply (other_account_types_are_not_monitored Fixtures.scenario).
  repeat constructor. exists (PStr (py "uk_retail")). split; reflexivity.
Defined.

(** X17. A new transaction that cannot be prepared (its amount is no
    number, its merchant is no object, its creation time is not accepted by
    [strptime], ...) ends the processing of the list it is in: neither it
    nor any transaction after it is posted in this turn, and the set of ids
    stays as it is, so that the same happens when the list is fetched
    again. *)
Theorem unreadable_record_blocks_the_rest E t ts m w id e :
  external_id t = Ok id ->
  id ∉ initial_transaction_ids m ->
  prepared E t = Raise e ->
  for_transactions E (t :: ts) m w = (Raise e, m, w)
  /\ forall access_token account accounts account_id w1,
      getitem account (py "type") = Ok (PStr (py "us_partner")) ->
      getitem account (py "id") = Ok account_id ->
      get_transactions E account_id access_token true w = (t :: ts, w1) ->
      cycle E access_token (PList (account :: accounts)) m w = (m, w1).
Proof.
  intros Hid Hnew Hprep.
  assert (forall w0, for_transactions E (t :: ts) m w0 = (Raise e, m, w0)) as Hfor.
  { intros w0. cbn [for_transactions]. unfold process_transaction.
    unfold external_id in Hid. rewrite Hid.
    rewrite bool_decide_eq_false_2 by exact Hnew.
    unfold prepared in Hprep. rewrite Hprep. reflexivity. }
  split; [apply Hfor|].
  intros access_token account accounts account_id w1 Hty Hacc Hget.
  unfold cycle. cbn [iter_values for_accounts]. unfold poll_account.
  rewrite Hty. change (is_us_partner (PStr (py "us_partner"))) with true. cbv iota.
  rewrite Hacc, Hget, Hfor. reflexivity.
Qed.

Lemma unreadable_record_blocks_the_rest_witness :
  let E := Fixtures.always
             (Responded (Fixtures.reply 200 (py "OK") (py "")
                           (Fixtures.transactions_body [Fixtures.tx2; Fixtures.tx1]))) in
  let m := {| initial_transaction_ids := ∅; local_api := Fixtures.fresh_client;
              attempts := [] |} in
  for_transactions E [Fixtures.tx2; Fixtures.tx1] m Cases.started
  = (Raise ValueError, m, Cases.started)
  /\ forall access_token account accounts account_id w1,
      getitem account (py "type") = Ok (PStr (py "us_partner")) ->
      getitem account (py "id") = Ok account_id ->
      get_transactions E account_id access_token true Cases.started
      = ([Fixtures.tx2; Fixtures.tx1], w1) ->
      cycle E access_token (PList (account :: accounts)) m Cases.started = (m, w1).
Proof.
  intros E m.
  apply (unreadable_record_blocks_the_rest E Fixtures.tx2 [Fixtures.tx1] m
           Cases.started (HStr (py "tx2")) ValueError).
  - reflexivity.
  - apply not_elem_of_empty.
  - reflexivity.
Defined.

(** X18. With a session cookie at hand, [post_transaction] sends the one
    posting and nothing else, and it returns normally exactly when the
    backend answers with a status outside 400..599: an answer such as 302
    or 204 counts as a transaction posted. *)
Theorem post_transaction_outcome E self amount name date is_pending w monetr_url body :
  no_auth_cookie self = false ->
  getitem (client_config self) (py "monetr_url") = Ok monetr_url ->
  transaction_data (LOCAL_BANK_ACCOUNT_ID w) amount name date is_pending = Ok body ->
  let req := TransactionPost monetr_url (LOCAL_BANK_ACCOUNT_ID w) body (auth_cookie self) in
  let '(r, self', w') := post_transaction E self amount name date is_pending w in
  self' = self
  /\ sent w' = sent w ++ [req]
  /\ (r = Ok tt <->
      exists answer, net E (sent w) req = Responded answer
                     /\ ~ 400 <= status_code answer < 600).
Proof.
  intros Hcookie Hurl Hbody req. unfold post_transaction.
  rewrite Hcookie, Hbody, Hurl. fold req.
  pose proof (send_sent E req w) as Hs. unfold send in *.
  destruct (net E (sent w) req) as [answer|msg]; cbn [snd] in Hs.
  - assert (raise_for_status answer = Ok tt <-> ~ 400 <= status_code answer < 600)
      as Hstatus.
    { unfold raise_for_status.
      destruct (Z.leb_spec 400 (status_code answer)),
        (Z.ltb_spec (status_code answer) 500),
        (Z.leb_spec 500 (status_code answer)),
        (Z.ltb_spec (status_code answer) 600); cbn [andb];
        split; try discriminate; try lia; reflexivity. }
    destruct (status_code answer =? 200) eqn:H200.
    + split; [reflexivity|]. split; [exact Hs|]. split; [|reflexivity].
      intros _. exists answer. split; [reflexivity|]. apply Z.eqb_eq in H200. lia.
    + destruct (raise_for_status answer) as [[]|x] eqn:Hr.
      * split; [reflexivity|]. split; [exact Hs|]. split; [|reflexivity].
        intros _. exists answer. split; [reflexivity|]. apply Hstatus. reflexivity.
      * split; [reflexivity|]. split; [exact Hs|]. split; [discriminate|].
        intros (answer' & [= <-] & Hok). apply Hstatus in Hok. discriminate Hok.
  - split; [reflexivity|]. split; [exact Hs|]. split; [discriminate|].
    intros (answer' & Hab & _). discriminate Hab.
Qed.

Lemma post_transaction_outcome_witness :
  let E := Fixtures.always (Responded (Fixtures.reply 302 (py "Found") (py "") None)) in
  let self := {| auth_cookie := Some [(py "M-Token", py "abc")];
                 client_config := Fixtures.monetr_config |} in
  let amount := SpecFloat.S754_finite false 6946802425218990 (-49) in
  fst (fst (post_transaction E self amount (PStr (py "Cafe")) Fixtures.noon false
              Fixtures.world0)) = Ok tt.
Proof.
  intros E self amount.
  pose proof (post_transaction_outcome E self amount (PStr (py "Cafe")) Fixtures.noon
                false Fixtures.world0 (PStr (py "http://localhost:4000"))
                (PDict [(py "bankAccountId", PStr (py "bac_01HXYZ"));
                        (py "amount", PInt (-1234));
                        (py "name", PStr (py "Cafe"));
                        (py "merchantName", PStr (py "Cafe"));
                        (py "date", PStr (py "2024-01-01T12:30:05.000Z"));
                        (py "isPending", PBool false);
                        (py "spendingId", PNone);
                        (py "adjustsBalance", PBool true)])
                eq_refl eq_refl eq_refl) as H.
  cbv zeta in H.
  destruct (post_transaction E self amount (PStr (py "Cafe")) Fixtures.noon false
              Fixtures.world0) as [[r self'] w'].
  destruct H as (_ & _ & Hiff). cbn [fst]. apply Hiff.
  eexists. split; [reflexivity|]. cbn. lia.
Defined.

(** ** The order of the transactions fetched *)

Lemma pystr_ltb_irrefl a : pystr_ltb a a = false.
Proof.
  induction a as [|x a IH]; [reflexivity|]. cbn [pystr_ltb].
  rewrite N.ltb_irrefl. exact IH.
Qed.

Lemma filter_insert_desc s x l :
  List.filter (key_is s) (insert_desc x l)
  = if key_is s x then x :: List.filter (key_is s) l else List.filter (key_is s) l.
Proof.
  induction l as [|y l IH]; cbn [insert_desc].
  - cbn [List.filter]. destruct (key_is s x); reflexivity.
  - destruct (key_ltb (fst x) (fst y)) eqn:Hlt.
    + cbn [List.filter]. rewrite IH. destruct (key_is s x) eqn:Hx; [|reflexivity].
      assert (key_is s y = false) as Hy.
      { unfold key_is in *. destruct (fst x) as [| | |kx| |]; try discriminate Hx.
        apply bool_decide_eq_true in Hx. subst kx.
        destruct (fst y) as [| | |ky| |]; try reflexivity.
        apply bool_decide_eq_false. intros ->. cbn [key_ltb] in Hlt.
        rewrite pystr_ltb_irrefl in Hlt. discriminate Hlt. }
      rewrite Hy. reflexivity.
    + cbn [List.filter]. destruct (key_is s x); reflexivity.
Qed.

Lemma filter_sort_desc s l :
  List.filter (key_is s) (sort_desc l) = List.filter (key_is s) l.
Proof.
  unfold sort_desc. induction l as [|x l IH]; [reflexivity|].
  cbn [foldr]. rewrite filter_insert_desc, IH.
  cbn [List.filter]. destruct (key_is s x); reflexivity.
Qed.

Lemma key_is_created_text s k x :
  getitem x (py "created") = Ok k ->
  key_is s (k, x) = bool_decide (created_text x = Some s).
Proof.
  intros Hk. unfold key_is, created_text. rewrite Hk. cbn [fst].
  destruct k as [| | |k| |];
    try (symmetry; apply bool_decide_eq_false; discriminate).
  destruct (decide (k = s)) as [->|Hne].
  - rewrite !bool_decide_eq_true_2; reflexivity.
  - rewrite !bool_decide_eq_false_2; congruence.
Qed.

Lemma mapM_keyed_in items : forall keyed k x,
  mapM (fun x => k <- getitem x (py "created") ;; Ok (k, x)) items = Ok keyed ->
  In (k, x) keyed -> getitem x (py "created") = Ok k.
Proof.
  induction items as [|y items IH]; intros keyed k x; cbn [mapM].
  - intros [= <-] [].
  - destruct (getitem y (py "created")) as [ky|] eqn:Hy; cbn [rbind]; [|discriminate].
    destruct (mapM _ items) as [keyed'|]; cbn [rbind]; [|discriminate].
    intros [= <-] [[= <- <-]|Hin]; [exact Hy|]. apply (IH keyed' _ _ eq_refl Hin).
Qed.

Lemma mapM_keyed_items items : forall keyed,
  mapM (fun x => k <- getitem x (py "created") ;; Ok (k, x)) items = Ok keyed ->
  map snd keyed = items.
Proof.
  induction items as [|x items IH]; intros keyed; cbn [mapM].
  - intros [= <-]. reflexivity.
  - destruct (getitem x (py "created")); cbn [rbind]; [|discriminate].
    destruct (mapM _ items) as [keyed'|]; cbn [rbind]; [|discriminate].
    intros [= <-]. cbn [map snd]. rewrite (IH keyed' eq_refl). reflexivity.
Qed.

Lemma filter_map_snd (p : pyval * pyval -> bool) (q : pyval -> bool) keyed :
  (forall kx, In kx keyed -> p kx = q (snd kx)) ->
  map snd (List.filter p keyed) = List.filter q (map snd keyed).
Proof.
  induction keyed as [|kx keyed IH]; intros H; [reflexivity|].
  cbn [List.filter map]. rewrite (H kx (or_introl eq_refl)).
  destruct (q (snd kx)); cbn [map]; rewrite IH; auto using in_cons.
Qed.

Lemma mapM_keyed_strings items :
  Forall (fun x => exists s, created_text x = Some s) items ->
  exists keyed,
    mapM (fun x => k <- getitem x (py "created") ;; Ok (k, x)) items = Ok keyed
    /\ forallb is_str (map fst keyed) = true.
Proof.
  induction 1 as [|x items [s Hs] _ (keyed & Hk & Hstr)]; cbn [mapM].
  - exists []. auto.
  - unfold created_text in Hs.
    destruct (getitem x (py "created")) as [[| | |k| |]|]; try discriminate Hs.
    cbn [rbind]. rewrite Hk. cbn [rbind]. eexists. split; [reflexivity|].
    cbn [map fst forallb is_str]. exact Hstr.
Qed.

(** X19. When every transaction of an answer has a creation timestamp
    that is a string, [get_transactions] returns the transactions of the
    answer, all of them and no other, and keeps the order in which the
    answer lists those with the same timestamp. *)
Theorem get_transactions_keeps_equal_timestamps_in_order E account_id access_token
  quiet w answer data transactions items :
  net E (sent w) (TransactionsRequest account_id access_token (since_now E (sent w)))
  = Responded answer ->
  raise_for_status answer = Ok tt ->
  resp_json answer = Some (PDict data) ->
  dict_get data (py "transactions") = Some transactions ->
  iter_values transactions = Ok items ->
  Forall (fun x => exists s, created_text x = Some s) items ->
  let sorted_transactions := fst (get_transactions E account_id access_token quiet w) in
  Permutation items sorted_transactions
  /\ forall s, created_at s sorted_transactions = created_at s items.
Proof.
  intros Hnet Hstatus Hjson Htx Hitems Hcreated. cbv zeta.
  destruct (mapM_keyed_strings items Hcreated) as (keyed & Hkeyed & Hstr).
  unfold get_transactions, send. rewrite Hnet.
  unfold read_transactions, json_of. rewrite Hstatus, Hjson.
  cbn [rbind get_method]. rewrite Htx.
  unfold sorted_by_created. rewrite Hitems. cbn [rbind]. rewrite Hkeyed. cbn [rbind].
  unfold comparable. rewrite Hstr, orb_true_r. cbn [orb fst]. split.
  - rewrite <- (mapM_keyed_items items keyed Hkeyed) at 1.
    apply Permutation_map. symmetry. apply sort_desc_perm.
  - intros s. unfold created_at.
    rewrite <- (filter_map_snd (key_is s)).
    + rewrite filter_sort_desc.
      rewrite (filter_map_snd (key_is s)
                 (fun x => bool_decide (created_text x = Some s))).
      * rewrite (mapM_keyed_items items keyed Hkeyed). reflexivity.
      * intros [k x] Hin. apply key_is_created_text.
        apply (mapM_keyed_in items keyed k x Hkeyed Hin).
    + intros [k x] Hin. apply key_is_created_text.
      apply (mapM_keyed_in items keyed k x Hkeyed).
      eapply Permutation_in; [apply sort_desc_perm|exact Hin].
Qed.

Lemma get_transactions_keeps_equal_timestamps_in_order_witness :
  let a := Fixtures.tx "tx_a" "2024-01-01T10:00:00.000Z" in
  let b := Fixtures.tx "tx_b" "2024-01-01T10:00:01.000Z" in
  let c := Fixtures.tx "tx_c" "2024-01-01T10:00:00.000Z" in
  let E := Fixtures.always
             (Responded (Fixtures.reply 200 (py "OK") (py "")
                           (Fixtures.transactions_body [a; b; c]))) in
  let sorted_transactions :=
    fst (get_transactions E (PStr (py "acc_1")) (PStr (py "access-1")) true
           Cases.started) in
  sorted_transactions = [b; a; c]
  /\ Permutation [a; b; c] sorted_transactions
  /\ forall s, created_at s sorted_transactions = created_at s [a; b; c].
Proof.
  intros a b c E sorted_transactions. split; [reflexivity|].
  eapply (get_transactions_keeps_equal_timestamps_in_order E (PStr (py "acc_1"))
            (PStr (py "access-1")) true Cases.started).
  - reflexivity.
  - reflexivity.
  - reflexivity.
  - reflexivity.
  - reflexivity.
  - repeat constructor; eexists; reflexivity.
Defined.

(** ** The authorization and the start of the monitoring *)

Lemma do_GET_refused path w :
  refused_callback path w ->
  exists e, callback_code path = inl e /\ do_GET path w = (page 400 (error_message e), w).
Proof.
  unfold refused_callback, do_GET. intros [calls H].
  destruct (callback_code path) as [e|auth_code]; [exists e; split; reflexivity|].
  cbn [fst] in H. discriminate H.
Qed.

(** X20. A callback that the handler refuses (it answers 400: the path has
    no query, a parameter is not of the form [key=value], or there is no
    [code]) does not stop the authorization: with a configuration stored,
    [main]'s authorization step goes on to call the token endpoint, with
    the authorization code that an earlier run has left in the keyring, or
    with [None]. *)
Theorem refused_callback_still_exchanges U E client_id client_secret callback_path
  line stdin w :
  refused_callback callback_path w ->
  truthy (load_monzo_config w) = true ->
  exists extra,
    sent (snd (authorize U E client_id client_secret callback_path (line :: stdin) w))
    = sent w ++ authorization_code_grant client_id client_secret (get_auth_code w)
               :: extra.
Proof.
  intros Hbad Hconfig. unfold authorize.
  destruct (do_GET_refused callback_path w Hbad) as (e & _ & ->).
  unfold get_access_token.
  assert (exists r w1,
             exchange_auth_code E (get_auth_code w) client_id client_secret w = (r, w1)
             /\ sent w1 = sent w ++ [authorization_code_grant client_id client_secret
                                       (get_auth_code w)]) as (r & w1 & -> & Hs).
  { unfold exchange_auth_code. rewrite Hconfig. cbn [negb].
    pose proof (send_sent E (authorization_code_grant client_id client_secret
                               (get_auth_code w)) w) as Hs.
    unfold authorization_code_grant in *.
    destruct (send E _ w) as [[r|x] w1]; cbn [snd] in Hs; [|eauto].
    destruct (_ <- raise_for_status r ;; _) as [[a t]|x]; [|eauto].
    assert (sent (snd (save_tokens a t w1)) = sent w1) as Hs2.
    { unfold save_tokens. destruct (truthy (load_monzo_config w1)); [|auto].
      destruct (c1 <- setitem _ _ _ ;; _) as [c2|]; [|auto].
      apply (save_config_frame MONZO_SERVICE c2 w1). }
    destruct (save_tokens a t w1) as [[[]|x] w2]; cbn [snd] in Hs2.
    - rewrite clear_auth_code_spec. eexists _, _. split; [reflexivity|].
      unfold set_keyring. cbn [sent]. congruence.
    - eexists _, _. split; [reflexivity|]. congruence. }
  destruct r as [tok|x]; cbn [snd]; [|exists []; exact Hs].
  pose proof (wait_for_app_approval_frame U E tok stdin w1) as [_ (extra & He & _)].
  destruct (wait_for_app_approval U E tok stdin w1) as [[[[|]|x|] stdin2] w3];
    cbn [snd] in *; exists extra; rewrite He, Hs, <- app_assoc; reflexivity.
Qed.

Lemma refused_callback_still_exchanges_witness :
  (refused_callback (py "/favicon.ico") Fixtures.authorizing
   /\ refused_callback (py "/callback?code=YWJj==&state=monzo_auth_state")
        Fixtures.authorizing
   /\ refused_callback (py "/callback?error=access_denied&state=monzo_auth_state")
        Fixtures.authorizing)
  /\ exists extra,
      sent (snd (authorize (fun s => s) Fixtures.token_server
                   (PStr (py "oauth2client_0000")) (PStr (py "s3cret"))
                   (py "/callback?error=access_denied&state=monzo_auth_state")
                   [py ""; py "yes"] Fixtures.authorizing))
      = sent Fixtures.authorizing
          ++ authorization_code_grant (PStr (py "oauth2client_0000"))
               (PStr (py "s3cret")) (PStr (py "code-123")) :: extra.
Proof.
  assert (forall path,
             hd_error (fst (do_GET path Fixtures.authorizing)) = Some (send_response 400) ->
             refused_callback path Fixtures.authorizing) as Hrefused.
  { intros path H. unfold refused_callback.
    destruct (fst (do_GET path Fixtures.authorizing)) as [|c calls]; [discriminate H|].
    injection H as ->. eauto. }
  split.
  - repeat split; apply Hrefused; vm_compute; reflexivity.
  - apply (refused_callback_still_exchanges (fun s => s) Fixtures.token_server
             (PStr (py "oauth2client_0000")) (PStr (py "s3cret"))
             (py "/callback?error=access_denied&state=monzo_auth_state")
             (py "") [py "yes"] Fixtures.authorizing).
    + apply Hrefused. vm_compute. reflexivity.
    + vm_compute. reflexivity.
Defined.

(** X21. Step 4 of [main] takes an answer of the accounts endpoint
    without accounts as the end of its work, whatever the status code: for
    an answer that is a JSON object without [accounts] (the error object of
    an expired token), or with an empty list, it returns after that one
    request, without monitoring and without an error. *)
Theorem no_accounts_no_monitoring E access_token api n w answer data :
  net E (sent w) (AccountsRequest access_token) = Responded answer ->
  resp_json answer = Some (PDict data) ->
  dict_get data (py "accounts") = None
  \/ dict_get data (py "accounts") = Some (PList []) ->
  exists w',
    start_monitor E access_token api n w = (Returned, w')
    /\ sent w' = sent w ++ [AccountsRequest access_token]
    /\ transaction_monitor E access_token api n w = None.
Proof.
  intros Hnet Hjson Hnone.
  destruct (send_responded _ _ _ _ Hnet) as (w1 & Hsend & _ & Hs & _).
  assert (start_monitor E access_token api n w = (Returned, w1)) as Hstart.
  { unfold start_monitor, get_accounts, json_of. rewrite Hsend, Hjson.
    cbn [rbind get_method]. destruct Hnone as [-> | ->]; reflexivity. }
  exists w1. split; [exact Hstart|]. split; [exact Hs|].
  rewrite start_monitor_transaction_monitor, Hstart. reflexivity.
Qed.

Lemma no_accounts_no_monitoring_witness :
  let E := Fixtures.always
             (Responded
                (Fixtures.reply 401 (py "Unauthorized") (py "")
                   (Some (PDict [(py "code", PStr (py "unauthorized.bad_access_token"))])))) in
  exists w',
    start_monitor E (PStr (py "access-1")) Fixtures.fresh_client 5 Cases.started
    = (Returned, w')
    /\ sent w' = sent Cases.started ++ [AccountsRequest (PStr (py "access-1"))]
    /\ transaction_monitor E (PStr (py "access-1")) Fixtures.fresh_client 5 Cases.started
       = None.
Proof.
  intros E.
  eapply (no_accounts_no_monitoring E (PStr (py "access-1")) Fixtures.fresh_client 5
            Cases.started).
  - reflexivity.
  - reflexivity.
  - left. reflexivity.
Defined.

Lemma main_posts_without_bank_account_id_witness :
  getitem (load_monetr_config Cases.ready) (py "bank_account_id")
  = Ok (PStr (py "bac_01HXYZ"))
  /\ exists extra,
      sent (snd (main (fun s => s) Fixtures.scenario (py "/callback") 3 [] Cases.ready))
      = sent Cases.ready ++ extra
      /\ forall monetr_url bank_account_id body cookie,
          In (TransactionPost monetr_url bank_account_id body cookie) extra ->
          bank_account_id = PNone
          /\ getitem body (py "bankAccountId") = Ok PNone.
Proof.
  split; [vm_compute; reflexivity|].
  apply (main_posts_without_bank_account_id (fun s => s) Fixtures.scenario
           (py "/callback") 3 [] Cases.ready).
  - vm_compute. reflexivity.
  - reflexivity.
Defined.

(** The scenario of the specification run through [main] with both
    configurations and a token stored: the console is not read, the
    monitoring is reached, and the two postings of [tx2] go to the bank
    account [None]. *)
Example main_scenario :
  let '(o, stdin, w) :=
    main (fun s => s) Fixtures.scenario (py "/callback") 3 [py "unread"] Cases.ready in
  stdin = [py "unread"]
  /\ match o with
     | Monitoring m =>
         attempts m = [(HStr (py "tx2"), false); (HStr (py "tx2"), true)]
     | _ => False
     end
  /\ Cases.posted_to w = [(PNone, Ok PNone); (PNone, Ok PNone)]
  /\ LOCAL_BANK_ACCOUNT_ID w = PNone.
Proof. vm_compute. repeat split. Qed.

(** ** Logging in before a posting; the seeding *)

(** X22. Without a session cookie (none yet, or an empty jar left by a
    login whose answer set no cookie), [post_transaction] logs in first:
    when the login raises, that exception leaves [post_transaction] and
    nothing is posted; when it returns with a cookie, the call is the
    posting made by the client as the login left it. *)
Theorem post_transaction_logs_in_first E self amount name date is_pending w :
  no_auth_cookie self = true ->
  let '(r, self1, w1) := login E self w in
  match r with
  | Raise e =>
      post_transaction E self amount name date is_pending w = (Raise e, self1, w1)
      /\ posts (sent w1) = posts (sent w)
  | Ok _ =>
      no_auth_cookie self1 = false ->
      post_transaction E self amount name date is_pending w
      = post_transaction E self1 amount name date is_pending w1
  end.
Proof.
  intros Hnone.
  pose proof (login_posts E self w) as Hp.
  destruct (login E self w) as [[r self1] w1] eqn:Hlogin. cbn [snd] in Hp.
  destruct r as [[]|e].
  - intros Hcookie. unfold post_transaction. rewrite Hnone, Hlogin, Hcookie.
    reflexivity.
  - split; [|exact Hp]. unfold post_transaction. rewrite Hnone, Hlogin. reflexivity.
Qed.

Lemma post_transaction_logs_in_first_witness :
  let amount := SpecFloat.S754_finite false 6946802425218990 (-49) in
  (let '(r, self1, w1) := login Fixtures.refused Fixtures.fresh_client Fixtures.world0 in
   match r with
   | Raise e =>
       post_transaction Fixtures.refused Fixtures.fresh_client amount (PStr (py "Cafe"))
         Fixtures.noon false Fixtures.world0 = (Raise e, self1, w1)
       /\ posts (sent w1) = posts (sent Fixtures.world0)
   | Ok _ => True
   end)
  /\ (let '(r, self1, w1) :=
        login Fixtures.scenario Fixtures.fresh_client Fixtures.world0 in
      match r with
      | Raise e => True
      | Ok _ =>
          post_transaction Fixtures.scenario Fixtures.fresh_client amount
            (PStr (py "Cafe")) Fixtures.noon false Fixtures.world0
          = post_transaction Fixtures.scenario self1 amount (PStr (py "Cafe"))
              Fixtures.noon false w1
      end).
Proof.
  intros amount. split.
  - pose proof (post_transaction_logs_in_first Fixtures.refused Fixtures.fresh_client
                  amount (PStr (py "Cafe")) Fixtures.noon false Fixtures.world0 eq_refl)
      as H.
    destruct (login Fixtures.refused Fixtures.fresh_client Fixtures.world0)
      as [[[[]|e] self1] w1]; [exact I|exact H].
  - pose proof (post_transaction_logs_in_first Fixtures.scenario Fixtures.fresh_client
                  amount (PStr (py "Cafe")) Fixtures.noon false Fixtures.world0 eq_refl)
      as H.
    destruct (login Fixtures.scenario Fixtures.fresh_client Fixtures.world0)
      as [[[[]|e] self1] w1] eqn:Hlogin; [|exact I].
    apply H. vm_compute in Hlogin. injection Hlogin as <- _. reflexivity.
Defined.

Lemma seed_grows E access_token accounts : forall ids w ids',
  fst (seed E access_token accounts ids w) = Ok ids' -> ids ⊆ ids'.
Proof.
  induction accounts as [|a accounts IH]; intros ids w ids'; cbn [seed].
  - intros [= <-]. reflexivity.
  - destruct (getitem a (py "type")) as [ty|]; [|discriminate].
    destruct (is_us_partner ty); [|apply IH].
    destruct (getitem a (py "id")) as [account_id|]; [|discriminate].
    destruct (get_transactions E account_id access_token true w) as [ts w1].
    destruct (update_ids ts ids) as [ids1|] eqn:Hu; [|discriminate].
    intros H. destruct (update_ids_spec _ _ _ Hu) as [Hsub _].
    etransitivity; [exact Hsub|]. apply (IH _ _ _ H).
Qed.

Lemma seed_app E access_token pre : forall post ids w,
  seed E access_token (pre ++ post) ids w
  = match seed E access_token pre ids w with
    | (Ok ids1, w1) => seed E access_token post ids1 w1
    | (Raise e, w1) => (Raise e, w1)
    end.
Proof.
  induction pre as [|a pre IH]; intros post ids w; cbn [app seed]; [reflexivity|].
  destruct (getitem a (py "type")) as [ty|]; [|reflexivity].
  destruct (is_us_partner ty); [|apply IH].
  destruct (getitem a (py "id")) as [account_id|]; [|reflexivity].
  destruct (get_transactions E account_id access_token true w) as [ts w1].
  destruct (update_ids ts ids) as [ids1|]; [apply IH|reflexivity].
Qed.

(** X23. When the seeding succeeds, the set of ids holds the id of every
    transaction that was fetched for a [us_partner] account on the way
    (the fetch made in the world that the seeding of the accounts before it
    left), and such a transaction is passed over by the monitor, in any
    state that knows these ids: nothing is sent for it and nothing
    changes. *)
Theorem seed_collects_every_fetched_id E access_token pre account post ids w ids'
  account_id :
  fst (seed E access_token (pre ++ account :: post) ids w) = Ok ids' ->
  getitem account (py "type") = Ok (PStr (py "us_partner")) ->
  getitem account (py "id") = Ok account_id ->
  let w_then := snd (seed E access_token pre ids w) in
  forall t,
    In t (fst (get_transactions E account_id access_token true w_then)) ->
    exists id,
      external_id t = Ok id
      /\ id ∈ ids'
      /\ forall m w2,
          ids' ⊆ initial_transaction_ids m ->
          process_transaction E t m w2 = (Ok tt, m, w2).
Proof.
  intros Hseed Hty Hid w_then t Hin. subst w_then.
  rewrite seed_app in Hseed.
  destruct (seed E access_token pre ids w) as [[ids1|e] w1]; [|discriminate Hseed].
  cbn [snd] in Hin. cbn [seed] in Hseed. rewrite Hty in Hseed.
  change (is_us_partner (PStr (py "us_partner"))) with true in Hseed. cbv iota in Hseed.
  rewrite Hid in Hseed.
  destruct (get_transactions E account_id access_token true w1) as [ts w2].
  cbn [fst] in Hin.
  destruct (update_ids ts ids1) as [ids2|] eqn:Hu; [|discriminate Hseed].
  destruct (update_ids_spec _ _ _ Hu) as [_ Hall].
  destruct (Hall t Hin) as (id & Hext & Hmem).
  pose proof (seed_grows _ _ _ _ _ _ Hseed) as Hsub.
  exists id. split; [exact Hext|]. split; [apply Hsub, Hmem|].
  intros m w3 Hm. unfold process_transaction. unfold external_id in Hext.
  rewrite Hext. rewrite bool_decide_eq_true_2; [reflexivity|].
  apply Hm, Hsub, Hmem.
Qed.

Lemma seed_collects_every_fetched_id_witness :
  In Fixtures.tx1
    (fst (get_transactions Fixtures.scenario (PStr (py "acc_1")) (PStr (py "access-1"))
            true Cases.started))
  /\ exists id,
      external_id Fixtures.tx1 = Ok id
      /\ id ∈ ({[HStr (py "tx1")]} : gset hkey)
      /\ forall m w2,
          ({[HStr (py "tx1")]} : gset hkey) ⊆ initial_transaction_ids m ->
          process_transaction Fixtures.scenario Fixtures.tx1 m w2 = (Ok tt, m, w2).
Proof.
  assert (In Fixtures.tx1
            (fst (get_transactions Fixtures.scenario (PStr (py "acc_1"))
                    (PStr (py "access-1")) true Cases.started))) as Hin.
  { left. reflexivity. }
  split; [exact Hin|].
  apply (seed_collects_every_fetched_id Fixtures.scenario (PStr (py "access-1"))
           [] (PDict [(py "id", PStr (py "acc_1"));
                      (py "type", PStr (py "us_partner"));
                      (py "description", PStr (py "Current"))])
           [] ∅ Cases.started {[HStr (py "tx1")]} (PStr (py "acc_1"))).
  - vm_compute. reflexivity.
  - reflexivity.
  - reflexivity.
  - exact Hin.
Defined.

(** ** The codecs: every JSON value *)

Module JsonValueFacts.
Import Json JsonFacts JsonObjectFacts CodecAux.

(** Induction on a value with the hypothesis for every element of a list
    and for every value of a dict. *)
Lemma pyval_nested_ind (P : pyval -> Prop) :
  P PNone -> (forall b, P (PBool b)) -> (forall z, P (PInt z)) ->
  (forall s, P (PStr s)) ->
  (forall l, Forall P l -> P (PList l)) ->
  (forall d, Forall (fun kv => P (snd kv)) d -> P (PDict d)) ->
  forall v, P v.
Proof.
  intros HNone HBool HInt HStr HList HDict. fix IH 1. intros [|b|z|s|l|d].
  - exact HNone.
  - apply HBool.
  - apply HInt.
  - apply HStr.
  - apply HList. induction l as [|x l IHl]; constructor; [apply IH|exact IHl].
  - apply HDict. induction d as [|[k x] d IHd]; constructor; [apply IH|exact IHd].
Qed.

Lemma json_value_dict d : json_value (PDict d) = json_items d.
Proof. reflexivity. Qed.

Lemma dumps_list l : dumps (PList l) = 91%N :: dumps_elements l ++ [93%N].
Proof. reflexivity. Qed.

(** *** Integers *)

Lemma digit_char n :
  0 <= n < 10 ->
  is_digit (Z.to_N (48 + n)) = true /\ Z.of_N (Z.to_N (48 + n) - 48) = n
  /\ (Z.to_N (48 + n) < 128)%N
  /\ (0 < n -> (Z.to_N (48 + n) =? 48)%N = false).
Proof.
  intros Hn. unfold is_digit. repeat split.
  - apply andb_true_iff. split; apply N.leb_le; lia.
  - lia.
  - lia.
  - intros Hpos. apply N.eqb_neq. lia.
Qed.

Lemma scan_digits_of_pos fuel : forall n acc,
  0 <= n < 10 ^ Z.of_nat fuel ->
  scan_digits (digits_of_pos fuel n acc) 0 = scan_digits acc n.
Proof.
  induction fuel as [|fuel IH]; intros n acc Hn.
  - change (10 ^ Z.of_nat 0) with 1 in Hn. assert (n = 0) as -> by lia. reflexivity.
  - cbn [digits_of_pos].
    assert (0 <= n mod 10 < 10) as Hmod by (apply Z.mod_pos_bound; lia).
    destruct (digit_char (n mod 10) Hmod) as (Hd & Hv & _ & _).
    destruct (Z.ltb_spec n 10) as [Hsmall|Hbig].
    + cbn [scan_digits]. rewrite Hd, Hv. rewrite Z.mod_small by lia. reflexivity.
    + rewrite IH.
      * cbn [scan_digits]. rewrite Hd, Hv. f_equal.
        pose proof (Z.div_mod n 10). lia.
      * rewrite Nat2Z.inj_succ, Z.pow_succ_r in Hn by lia. split.
        -- apply Z.div_pos; lia.
        -- apply Z.div_lt_upper_bound; lia.
Qed.

Lemma digits_of_pos_head fuel : forall n acc,
  0 < n < 10 ^ Z.of_nat fuel ->
  exists c s, digits_of_pos fuel n acc = c :: s
              /\ is_digit c = true /\ (c =? 48)%N = false.
Proof.
  induction fuel as [|fuel IH]; intros n acc Hn.
  - change (10 ^ Z.of_nat 0) with 1 in Hn. lia.
  - cbn [digits_of_pos]. destruct (Z.ltb_spec n 10) as [Hsmall|Hbig].
    + rewrite Z.mod_small by lia.
      destruct (digit_char n) as (Hd & _ & _ & Hnz); [lia|].
      eexists _, _. split; [reflexivity|]. split; [exact Hd|apply Hnz; lia].
    + apply IH. rewrite Nat2Z.inj_succ, Z.pow_succ_r in Hn by lia. split.
      * apply Z.div_str_pos. lia.
      * apply Z.div_lt_upper_bound; lia.
Qed.

Lemma digits_of_pos_ascii_all fuel : forall n acc,
  0 <= n -> Forall (fun c => (c < 128)%N) acc ->
  Forall (fun c => (c < 128)%N) (digits_of_pos fuel n acc).
Proof.
  induction fuel as [|fuel IH]; intros n acc Hn Hacc; [exact Hacc|].
  cbn [digits_of_pos].
  assert (0 <= n mod 10 < 10) as Hmod by (apply Z.mod_pos_bound; lia).
  destruct (digit_char (n mod 10) Hmod) as (_ & _ & Hlt & _).
  destruct (n <? 10).
  - constructor; assumption.
  - apply IH; [apply Z.div_pos; lia|constructor; assumption].
Qed.

Lemma decimal_fuel n : 0 < n -> n < 10 ^ Z.of_nat (S (Z.to_nat (Z.log2 n))).
Proof.
  intros Hn. pose proof (Z.log2_nonneg n) as Hlog.
  rewrite Nat2Z.inj_succ, Z2Nat.id by exact Hlog.
  destruct (Z.log2_spec n Hn) as [_ Hlt].
  eapply Z.lt_le_trans; [exact Hlt|].
  apply Z.pow_le_mono_l. lia.
Qed.

Lemma scan_digits_stop rest n :
  delimited rest = true -> scan_digits rest n = (n, rest).
Proof.
  destruct rest as [|c rest]; [reflexivity|]. cbn [delimited scan_digits].
  intros H. rewrite negb_true_iff, !orb_false_iff in H.
  destruct H as [[[-> _] _] _]. reflexivity.
Qed.

Lemma float_part_stop rest : delimited rest = true -> float_part_follows rest = false.
Proof.
  destruct rest as [|c [|d rest]]; try reflexivity. cbn [delimited float_part_follows].
  intros H. rewrite negb_true_iff, !orb_false_iff in H.
  destruct H as [[[_ ->] ->] ->]. reflexivity.
Qed.

Lemma scan_number_positive neg n rest :
  0 < n -> delimited rest = true ->
  scan_number neg (digits_of_pos (S (Z.to_nat (Z.log2 n))) n [] ++ rest)
  = Ok (PInt (if neg then - n else n), rest).
Proof.
  intros Hn Hrest. pose proof (decimal_fuel n Hn) as Hfuel.
  assert (scan_digits (digits_of_pos (S (Z.to_nat (Z.log2 n))) n [] ++ rest) 0
          = (n, rest)) as Hscan.
  { assert (forall fuel m acc,
               digits_of_pos fuel m acc ++ rest = digits_of_pos fuel m (acc ++ rest))
      as Happ.
    { induction fuel as [|fuel IH]; intros m acc; [reflexivity|].
      cbn [digits_of_pos]. destruct (m <? 10); [reflexivity|]. rewrite IH. reflexivity. }
    rewrite Happ, scan_digits_of_pos by lia. cbn [app].
    apply scan_digits_stop, Hrest. }
  destruct (digits_of_pos_head _ n [] (conj Hn Hfuel)) as (c & s & Heq & Hd & Hnz).
  rewrite Heq in *. cbn [app] in *. unfold scan_number.
  rewrite Hnz, Hd, Hscan, float_part_stop by exact Hrest. reflexivity.
Qed.

Lemma str_of_int_head z :
  exists c s, str_of_int z = c :: s /\ value_start c = true.
Proof.
  unfold str_of_int. destruct (Z.ltb_spec z 0) as [Hneg|Hpos].
  - eexists _, _. split; reflexivity.
  - destruct (Z.eq_dec z 0) as [->|Hnz].
    + eexists _, _. split; reflexivity.
    + destruct (digits_of_pos_head _ z [] (conj (ltac:(lia) : 0 < z)
                                              (decimal_fuel z ltac:(lia))))
        as (c & s & -> & Hd & _).
      exists c, s. split; [reflexivity|]. unfold value_start. rewrite Hd.
      apply orb_true_r.
Qed.

Lemma scan_once_int fuel z rest :
  delimited rest = true ->
  scan_once (S fuel) (str_of_int z ++ rest) = Ok (PInt z, rest).
Proof.
  intros Hrest. unfold str_of_int. destruct (Z.ltb_spec z 0) as [Hneg|Hpos].
  - cbn [app scan_once]. change (45 =? 34)%N with false. change (45 =? 123)%N with false.
    change (45 =? 91)%N with false. change (45 =? 45)%N with true. cbv iota.
    rewrite scan_number_positive by (lia || exact Hrest). f_equal. f_equal. f_equal. lia.
  - destruct (Z.eq_dec z 0) as [->|Hnz].
    + cbn. rewrite float_part_stop by exact Hrest. reflexivity.
    + assert (0 < z) as Hz by lia.
      destruct (digits_of_pos_head _ z [] (conj Hz (decimal_fuel z Hz)))
        as (c & s & Heq & Hd & _).
      pose proof (scan_number_positive false z rest Hz Hrest) as Hnum.
      rewrite Heq in *. cbn [app] in *. cbn [scan_once].
      unfold is_digit in Hd. apply andb_true_iff in Hd as [Hlo Hhi].
      apply N.leb_le in Hlo, Hhi.
      assert ((c =? 34)%N = false) as -> by (apply N.eqb_neq; lia).
      assert ((c =? 123)%N = false) as -> by (apply N.eqb_neq; lia).
      assert ((c =? 91)%N = false) as -> by (apply N.eqb_neq; lia).
      assert ((c =? 45)%N = false) as -> by (apply N.eqb_neq; lia).
      assert (is_digit c = true) as ->.
      { unfold is_digit. apply andb_true_iff. split; apply N.leb_le; lia. }
      exact Hnum.
Qed.

Lemma str_of_int_ascii z : Forall (fun c => (c < 128)%N) (str_of_int z).
Proof.
  unfold str_of_int. destruct (Z.ltb_spec z 0).
  - constructor; [reflexivity|]. apply digits_of_pos_ascii_all; [lia|constructor].
  - apply digits_of_pos_ascii_all; [lia|constructor].
Qed.

(** *** The text of a value *)

Lemma dumps_head v : exists c s, dumps v = c :: s /\ value_start c = true.
Proof.
  destruct v as [|[]|z|s|l|d]; try (eexists _, _; split; reflexivity).
  apply str_of_int_head.
Qed.

Lemma value_start_facts c :
  value_start c = true ->
  is_ws c = false /\ (c =? 93)%N = false /\ (c =? 125)%N = false.
Proof.
  unfold value_start, is_ws, is_digit. rewrite !orb_true_iff, andb_true_iff.
  rewrite !N.eqb_eq, !N.leb_le. intros H.
  assert (c <> 32 /\ c <> 9 /\ c <> 10 /\ c <> 13 /\ c <> 93 /\ c <> 125)%N
    as (H1 & H2 & H3 & H4 & H5 & H6) by lia.
  apply N.eqb_neq in H1, H2, H3, H4, H5, H6.
  rewrite H1, H2, H3, H4, H5, H6. repeat split.
Qed.

Lemma skip_ws_dumps v rest : skip_ws (dumps v ++ rest) = dumps v ++ rest.
Proof.
  destruct (dumps_head v) as (c & s & -> & Hc).
  destruct (value_start_facts c Hc) as (Hws & _). cbn [app]. apply skip_ws_keep, Hws.
Qed.

Lemma encode_basestring_ascii_ascii s :
  Forall (fun c => (c < 128)%N) (encode_basestring_ascii s).
Proof.
  unfold encode_basestring_ascii. constructor; [reflexivity|].
  apply Forall_app. split; [|repeat constructor].
  induction s as [|c s IH]; cbn [flat_map]; [constructor|].
  apply Forall_app. split; [apply escape_char_ascii|exact IH].
Qed.

Lemma dumps_value_ascii v : Forall (fun c => (c < 128)%N) (dumps v).
Proof.
  induction v as [|b|z|s|l IH|d IH] using pyval_nested_ind.
  - repeat constructor.
  - destruct b; repeat constructor.
  - apply str_of_int_ascii.
  - apply encode_basestring_ascii_ascii.
  - rewrite dumps_list. constructor; [reflexivity|].
    apply Forall_app. split; [|repeat constructor].
    induction IH as [|x l Hx _ IHl]; [constructor|]. cbn [dumps_elements].
    apply Forall_app. split; [exact Hx|].
    destruct l; [constructor|]. repeat (constructor; [reflexivity|]). exact IHl.
  - rewrite dumps_dict. constructor; [reflexivity|].
    apply Forall_app. split; [|repeat constructor].
    induction IH as [|[k x] d Hx _ IHd]; [constructor|]. cbn [dumps_items].
    apply Forall_app. split; [apply encode_basestring_ascii_ascii|].
    repeat (constructor; [reflexivity|]).
    apply Forall_app. split; [exact Hx|].
    destruct d; [constructor|]. repeat (constructor; [reflexivity|]). exact IHd.
Qed.

Lemma dumps_nonempty v : (1 <= length (dumps v))%nat.
Proof. destruct (dumps_head v) as (c & s & -> & _). cbn [length]. lia. Qed.

Lemma length_dumps_elements l : (length l <= length (dumps_elements l))%nat.
Proof.
  induction l as [|x l IH]; [reflexivity|]. cbn [dumps_elements length].
  rewrite length_app. pose proof (dumps_nonempty x).
  destruct l; cbn [length] in *; lia.
Qed.

Lemma length_dumps_element x l :
  In x l -> (length (dumps x) <= length (dumps_elements l))%nat.
Proof.
  induction l as [|y l IH]; [intros []|]. cbn [dumps_elements].
  rewrite length_app. intros [->|Hin]; [lia|].
  destruct l as [|z l]; [destruct Hin|]. specialize (IH Hin). cbn [length] in *. lia.
Qed.

Lemma length_dumps_item k x d :
  In (k, x) d -> (length (dumps x) <= length (dumps_items d))%nat.
Proof.
  induction d as [|[k' y] d IH]; [intros []|]. cbn [dumps_items].
  rewrite length_app. cbn [length]. rewrite length_app.
  intros [[= -> ->]|Hin]; [lia|].
  destruct d as [|z d]; [destruct Hin|]. specialize (IH Hin). cbn [length] in *. lia.
Qed.

Lemma json_items_cons k v d :
  json_items ((k, v) :: d) = true ->
  valid_str k = true /\ json_value v = true
  /\ forallb (fun kv => negb (pystr_eqb (fst kv) k)) d = true
  /\ json_items d = true.
Proof. cbn [json_items]. rewrite !andb_true_iff. tauto. Qed.

(** *** Lists *)

Section Elements.
Variable scan : pystr -> result (pyval * pystr).

(** The item loop on the elements that [json.dumps] wrote, for a scanner
    that reads each of them back. *)
Lemma array_items_elements l : forall x acc n rest,
  (forall y tail, In y (x :: l) -> delimited tail = true ->
                  scan (dumps y ++ tail) = Ok (y, tail)) ->
  (length l < n)%nat ->
  array_items scan n (dumps_elements (x :: l) ++ 93%N :: rest) acc
  = Ok (PList (acc ++ x :: l), rest).
Proof.
  induction l as [|x' l IH]; intros x acc n rest Hscan Hn.
  - destruct n as [|n]; [cbn in Hn; lia|]. cbn [dumps_elements array_items].
    rewrite app_nil_r, Hscan by (auto using in_eq). cbn [rbind fst snd].
    reflexivity.
  - destruct n as [|n]; [cbn in Hn; lia|].
    change (dumps_elements (x :: x' :: l))
      with (dumps x ++ 44%N :: 32%N :: dumps_elements (x' :: l)).
    rewrite <- app_assoc. cbn [app array_items].
    rewrite Hscan by (auto using in_eq). cbn [rbind fst snd].
    rewrite skip_ws_keep by reflexivity.
    change (44 =? 93)%N with false. change (44 =? 44)%N with true. cbv iota.
    rewrite skip_ws_drop by reflexivity.
    change (dumps_elements (x' :: l) ++ 93%N :: rest)
      with (dumps_elements (x' :: l) ++ 93%N :: rest).
    assert (skip_ws (dumps_elements (x' :: l) ++ 93%N :: rest)
            = dumps_elements (x' :: l) ++ 93%N :: rest) as ->.
    { cbn [dumps_elements]. rewrite <- app_assoc. apply skip_ws_dumps. }
    rewrite IH.
    + rewrite <- app_assoc. reflexivity.
    + intros y tail Hy. apply Hscan. right. exact Hy.
    + cbn [length] in Hn. lia.
Qed.

Lemma JSONArray_nonempty n s c s1 :
  skip_ws s = c :: s1 -> (c =? 93)%N = false ->
  JSONArray scan n s = array_items scan n (c :: s1) [].
Proof. unfold JSONArray. intros -> ->. reflexivity. Qed.

Lemma JSONArray_elements l n rest :
  (forall y tail, In y l -> delimited tail = true ->
                  scan (dumps y ++ tail) = Ok (y, tail)) ->
  (length l < n)%nat ->
  JSONArray scan n (dumps_elements l ++ 93%N :: rest) = Ok (PList l, rest).
Proof.
  intros Hscan Hn. destruct l as [|x l]; [reflexivity|].
  assert (skip_ws (dumps_elements (x :: l) ++ 93%N :: rest)
          = dumps_elements (x :: l) ++ 93%N :: rest) as Hskip.
  { cbn [dumps_elements]. rewrite <- app_assoc. apply skip_ws_dumps. }
  assert (exists c s1, dumps_elements (x :: l) ++ 93%N :: rest = c :: s1
                       /\ (c =? 93)%N = false) as (c & s1 & Heq & Hclose).
  { destruct (dumps_head x) as (c & s & Hx & Hc).
    destruct (value_start_facts c Hc) as (_ & Hclose & _).
    cbn [dumps_elements]. rewrite Hx. cbn [app]. eauto. }
  rewrite (JSONArray_nonempty n _ c s1); [|rewrite Hskip; exact Heq|exact Hclose].
  rewrite <- Heq. apply array_items_elements; [exact Hscan|].
  cbn [length] in Hn. lia.
Qed.

(** *** Dicts *)

Lemma object_pairs_pair n k x acc tail :
  valid_str k = true ->
  scan (dumps x ++ tail) = Ok (x, tail) ->
  object_pairs scan (S n)
    (flat_map escape_char k ++ 34%N :: 58%N :: 32%N :: dumps x ++ tail) acc
  = match skip_ws tail with
    | c2 :: s2 =>
        if (c2 =? 125)%N then Ok (PDict (dict_set acc k x), s2)
        else if (c2 =? 44)%N then
          match skip_ws s2 with
          | q :: s3 =>
              if (q =? 34)%N
              then object_pairs scan n s3 (dict_set acc k x)
              else Raise JSONDecodeError
          | [] => Raise JSONDecodeError
          end
        else Raise JSONDecodeError
    | [] => Raise JSONDecodeError
    end.
Proof.
  intros Hk Hx. cbn [object_pairs].
  rewrite scanstring_flat_map by exact Hk. cbn [rbind fst snd app].
  rewrite skip_ws_keep by reflexivity. change (58 =? 58)%N with true. cbv iota.
  rewrite skip_ws_drop by reflexivity.
  rewrite skip_ws_dumps, Hx. reflexivity.
Qed.

Lemma object_pairs_json_items d : forall k x acc n rest,
  json_items ((k, x) :: d) = true ->
  (forall k' y tail, In (k', y) ((k, x) :: d) -> delimited tail = true ->
                     scan (dumps y ++ tail) = Ok (y, tail)) ->
  forallb (fun kv => forallb (fun kv' => negb (pystr_eqb (fst kv') (fst kv))) acc)
          ((k, x) :: d) = true ->
  (length d < n)%nat ->
  object_pairs scan n (after_quote k x d ++ 125%N :: rest) acc
  = Ok (PDict (acc ++ (k, x) :: d), rest).
Proof.
  induction d as [|[k' x'] d IH]; intros k x acc n rest Hd Hscan Hacc Hn.
  - destruct n as [|n]; [cbn in Hn; lia|].
    apply json_items_cons in Hd as (Hk & Hx & _ & _).
    cbn [forallb fst] in Hacc. rewrite andb_true_r in Hacc.
    unfold after_quote. rewrite app_nil_r, <- !app_assoc. cbn [app].
    rewrite object_pairs_pair;
      [|exact Hk|apply (Hscan k); [left; reflexivity|reflexivity]].
    rewrite skip_ws_keep by reflexivity. change (125 =? 125)%N with true. cbv iota.
    rewrite dict_set_fresh by exact Hacc. reflexivity.
  - destruct n as [|n]; [cbn in Hn; lia|].
    apply json_items_cons in Hd as (Hk & Hx & Hfresh & Hrest).
    cbn [forallb fst] in Hacc. apply andb_true_iff in Hacc as [Hacc_k Hacc_d].
    unfold after_quote at 1. rewrite <- !app_assoc. cbn [app].
    rewrite <- !app_assoc. cbn [app].
    rewrite object_pairs_pair;
      [|exact Hk|apply (Hscan k); [left; reflexivity|reflexivity]].
    rewrite skip_ws_keep by reflexivity.
    change (44 =? 125)%N with false. change (44 =? 44)%N with true. cbv iota.
    rewrite skip_ws_drop by reflexivity.
    rewrite dumps_items_cons. cbn [app].
    rewrite skip_ws_keep by reflexivity. change (34 =? 34)%N with true. cbv iota.
    rewrite dict_set_fresh by exact Hacc_k.
    rewrite IH.
    + rewrite <- app_assoc. reflexivity.
    + exact Hrest.
    + intros k0 y tail Hin. apply (Hscan k0). right. exact Hin.
    + cbn [forallb fst] in Hfresh, Hacc_d |- *.
      apply andb_true_iff in Hfresh as [Hk' Hfresh].
      apply andb_true_iff in Hacc_d as [Hacc_k' Hacc_d].
      apply andb_true_iff. split.
      * rewrite forallb_app, Hacc_k'. cbn [forallb fst andb].
        rewrite andb_true_r, pystr_eqb_sym. exact Hk'.
      * rewrite forallb_forall in Hacc_d, Hfresh |- *. intros kv Hkv.
        rewrite forallb_app, (Hacc_d kv Hkv). cbn [forallb fst andb].
        rewrite andb_true_r, pystr_eqb_sym. apply (Hfresh kv Hkv).
    + cbn [length] in Hn. lia.
Qed.

Lemma JSONObject_json_items d n rest :
  json_items d = true ->
  (forall k y tail, In (k, y) d -> delimited tail = true ->
                    scan (dumps y ++ tail) = Ok (y, tail)) ->
  (length d < n)%nat ->
  JSONObject scan n (dumps_items d ++ 125%N :: rest) = Ok (PDict d, rest).
Proof.
  intros Hd Hscan Hn. destruct d as [|[k x] d]; [reflexivity|].
  rewrite dumps_items_cons. cbn [app]. rewrite JSONObject_quote.
  apply (object_pairs_json_items d k x [] n rest Hd Hscan);
    [|cbn [length] in Hn; lia].
  clear. induction ((k, x) :: d) as [|kv l IH]; [reflexivity|].
  cbn [forallb]. exact IH.
Qed.

End Elements.

(** *** [scan_once] and [loads] *)

Lemma json_value_elements l x : json_value (PList l) = true -> In x l -> json_value x = true.
Proof. cbn [json_value]. rewrite forallb_forall. auto. Qed.

Lemma json_items_in d : forall k x,
  json_items d = true -> In (k, x) d -> json_value x = true.
Proof.
  induction d as [|[k' y] d IH]; intros k x Hd; [intros []|].
  apply json_items_cons in Hd as (_ & Hy & _ & Hrest).
  intros [[= -> ->]|Hin]; [exact Hy|]. apply (IH k x Hrest Hin).
Qed.

(** A value written by [json.dumps] is read back by [scan_once], with
    fuel for the length of its text, in front of any text that ends a
    number. *)
Lemma scan_once_dumps v : forall fuel rest,
  json_value v = true ->
  (length (dumps v) <= fuel)%nat ->
  delimited rest = true ->
  scan_once fuel (dumps v ++ rest) = Ok (v, rest).
Proof.
  induction v as [|b|z|s|l IH|d IH] using pyval_nested_ind;
    intros fuel rest Hv Hfuel Hrest;
    (destruct fuel as [|fuel]; [pose proof (dumps_nonempty PNone);
       first [pose proof (dumps_nonempty (PBool b))
             |pose proof (dumps_nonempty (PInt z))
             |pose proof (dumps_nonempty (PStr s))
             |pose proof (dumps_nonempty (PList l))
             |pose proof (dumps_nonempty (PDict d))
             |idtac]; cbn [dumps] in *; cbn [length] in *; try lia|]).
  - reflexivity.
  - destruct b; reflexivity.
  - apply scan_once_int, Hrest.
  - apply scan_once_string, Hv.
  - rewrite dumps_list in *. cbn [app scan_once].
    change (91 =? 34)%N with false. change (91 =? 123)%N with false.
    change (91 =? 91)%N with true. cbv iota.
    rewrite <- app_assoc. cbn [app].
    cbn [length] in Hfuel. rewrite length_app in Hfuel. cbn [length] in Hfuel.
    apply JSONArray_elements.
    + intros y tail Hy Htail. rewrite List.Forall_forall in IH.
      apply (IH y Hy); [apply (json_value_elements l y Hv Hy)| |exact Htail].
      pose proof (length_dumps_element y l Hy). lia.
    + pose proof (length_dumps_elements l). lia.
  - rewrite dumps_dict in *. cbn [app scan_once].
    change (123 =? 34)%N with false. change (123 =? 123)%N with true. cbv iota.
    rewrite <- app_assoc. cbn [app].
    cbn [length] in Hfuel. rewrite length_app in Hfuel. cbn [length] in Hfuel.
    rewrite json_value_dict in Hv.
    apply JSONObject_json_items.
    + exact Hv.
    + intros k y tail Hy Htail. rewrite List.Forall_forall in IH.
      apply (IH (k, y) Hy); [apply (json_items_in d k y Hv Hy)| |exact Htail].
      pose proof (length_dumps_item k y d Hy). cbn [snd]. lia.
    + pose proof (length_dumps_items d). lia.
Qed.

(** On a text of ASCII characters [json.loads] meets no byte-order mark. *)
Lemma loads_ascii s :
  Forall (fun c => (c < 128)%N) s ->
  loads s
  = (r <- scan_once (S (length s)) (skip_ws s) ;;
     match skip_ws (snd r) with
     | [] => Ok (fst r)
     | _ :: _ => Raise JSONDecodeError
     end).
Proof.
  intros H. destruct s as [|c s]; [reflexivity|].
  inversion H as [|? ? Hc _]; subst.
  destruct c as [|p]; [reflexivity|].
  do 8 (try (destruct p as [p|p|]; [| |reflexivity])); exfalso; lia.
Qed.

(** [json.loads] reads back what [json.dumps] wrote. *)
Lemma loads_dumps_value v : json_value v = true -> loads (dumps v) = Ok v.
Proof.
  intros Hv. rewrite loads_ascii by apply dumps_value_ascii.
  pose proof (skip_ws_dumps v []) as Hskip. rewrite app_nil_r in Hskip.
  pose proof (scan_once_dumps v (S (length (dumps v))) [] Hv) as Hscan.
  rewrite app_nil_r in Hscan.
  rewrite Hskip, Hscan by (reflexivity || lia). reflexivity.
Qed.

End JsonValueFacts.

Lemma encrypt_config_value v :
  encrypt_config v = Ok (Base64.b64encode (Json.dumps v))
  /\ Base64.b64encode (Json.dumps v) <> [].
Proof.
  pose proof (JsonValueFacts.dumps_value_ascii v) as Hascii.
  assert (Forall (fun b => (b < 256)%N) (Json.dumps v)) as Hbytes.
  { eapply Forall_impl; [exact Hascii|]. cbv beta. intros; lia. }
  split.
  - unfold encrypt_config. rewrite utf8_encode_ascii by exact Hascii.
    cbn [rbind]. apply utf8_decode_ascii, Base64Facts.b64encode_ascii, Hbytes.
  - apply Base64Facts.b64encode_nonempty.
    destruct (JsonValueFacts.dumps_head v) as (c & s & -> & _). discriminate.
Qed.

(** X24. [decrypt_config] undoes [encrypt_config] on every JSON value
    within the limits of the interpreter, not only on a configuration of
    strings: a value whose strings hold valid code points, whose integers
    have at most 4300 digits, whose dicts have distinct keys and whose
    nesting is at most 100 deep (lists, dicts, integers, booleans and [None]
    included) is encoded without an error and comes back as it was, with
    its keys in their order, when it is saved under a service name and
    loaded again. *)
Theorem save_then_load_any_json_value service v w :
  json_value v = true ->
  (nesting v <= 100)%nat ->
  exists encrypted_data,
    encrypt_config v = Ok encrypted_data
    /\ decrypt_config encrypted_data = v
    /\ load_config service (snd (save_config service v w)) = v.
Proof.
  intros Hv _. destruct (encrypt_config_value v) as [He Hne].
  pose proof (JsonValueFacts.dumps_value_ascii v) as Hascii.
  assert (Forall (fun b => (b < 256)%N) (Json.dumps v)) as Hbytes.
  { eapply Forall_impl; [exact Hascii|]. cbv beta. intros; lia. }
  assert (decrypt_config (Base64.b64encode (Json.dumps v)) = v) as Hdec.
  { unfold decrypt_config, decode_config.
    rewrite Base64Facts.b64decode_b64encode by exact Hbytes. cbn [rbind].
    rewrite utf8_decode_ascii by exact Hascii. cbn [rbind].
    rewrite JsonValueFacts.loads_dumps_value by exact Hv. reflexivity. }
  eexists. split; [exact He|]. split; [exact Hdec|].
  unfold save_config. rewrite He. cbn [snd].
  rewrite load_config_lookup. unfold set_keyring. cbn [keyring].
  rewrite lookup_insert_eq.
  destruct (Base64.b64encode (Json.dumps v)); [congruence|exact Hdec].
Qed.

Lemma save_then_load_any_json_value_witness :
  let v := PDict [(py "access_token", PStr (py "access-1"));
                  (py "expires_in", PInt 21600);
                  (py "scopes", PList [PStr (py "read"); PInt (-7); PBool true; PNone;
                                       PDict [(py "nested", PList [])]])] in
  exists encrypted_data,
    encrypt_config v = Ok encrypted_data
    /\ decrypt_config encrypted_data = v
    /\ load_config MONZO_SERVICE (snd (save_config MONZO_SERVICE v Fixtures.world0)) = v.
Proof.
  intros v. apply (save_then_load_any_json_value MONZO_SERVICE v Fixtures.world0).
  - vm_compute. reflexivity.
  - vm_compute. lia.
Defined.
